(** * CARS analyzer: classification, ranking and session state

    A shallow embedding of [app.py] (the Streamlit script) and of the boundary
    of [generators/gpt_generator.py], with the properties of the
    error-classification and session-state engine proved over it.

    Conventions of the embedding:
    - a Python [str] is a [string]; the texts the claims speak about (keywords,
      marker, keys) are ASCII, and [lower] and [strip] act on the ASCII range;
    - a pandas cell is a [Cell]: [NaN] for a missing value, [Str s] for a
      present value whose text, as [str] gives it, is [s];
    - the [defaultdict(list)] report is an association list in insertion order;
    - [st.session_state] is a [gmap string SVal];
    - the script's effects (session writes, calls of the generator, what is
      drawn) are threaded through a small state-and-exception monad. *)

From Stdlib Require Import String Ascii List Bool Arith Lia Permutation Sorted.
From Stdlib Require Import DecimalString DecimalNat.
From stdpp Require Import gmap strings.
Import ListNotations.

Local Open Scope string_scope.
Local Open Scope list_scope.

(** ** Python string primitives *)

Module Py.

(** [s.lower()], on the ASCII letters. *)
Definition lower_char (c : ascii) : ascii :=
  let n := nat_of_ascii c in
  if (65 <=? n)%nat && (n <=? 90)%nat then ascii_of_nat (n + 32) else c.

Fixpoint lower (s : string) : string :=
  match s with
  | EmptyString => EmptyString
  | String c s' => String (lower_char c) (lower s')
  end.

(** [kw in s]: [kw] occurs in [s] as a contiguous substring. *)
Fixpoint contains (kw s : string) : bool :=
  String.prefix kw s
  || match s with
     | EmptyString => false
     | String _ s' => contains kw s'
     end.

(** [any(f(x) for x in l)] *)
Definition any {A} (f : A -> bool) (l : list A) : bool := existsb f l.

(** [s[n:]] *)
Fixpoint drop (n : nat) (s : string) : string :=
  match n, s with
  | O, _ => s
  | S _, EmptyString => EmptyString
  | S k, String _ s' => drop k s'
  end.

(** The characters [str.isspace] accepts in the ASCII range. *)
Definition isspace (c : ascii) : bool :=
  let n := nat_of_ascii c in
  ((9 <=? n)%nat && (n <=? 13)%nat) || ((28 <=? n)%nat && (n <=? 32)%nat).

Fixpoint lstrip (s : string) : string :=
  match s with
  | EmptyString => EmptyString
  | String c s' => if isspace c then lstrip s' else s
  end.

Fixpoint rstrip (s : string) : string :=
  match s with
  | EmptyString => EmptyString
  | String c s' =>
      match rstrip s' with
      | EmptyString => if isspace c then EmptyString else String c EmptyString
      | r => String c r
      end
  end.

(** [s.strip()] *)
Definition strip (s : string) : string := rstrip (lstrip s).

(** [s.split(sep)] for a non-empty [sep]: the pieces between the
    non-overlapping occurrences of [sep], found from the left.  [skip]
    counts the characters of a separator still to be passed over and [cur]
    is the current piece, most recent character first. *)
Fixpoint rev_onto (cur acc : string) : string :=
  match cur with
  | EmptyString => acc
  | String c cur' => rev_onto cur' (String c acc)
  end.

Fixpoint split_from (sep : string) (skip : nat) (cur : string) (s : string)
  : list string :=
  match s with
  | EmptyString => [rev_onto cur EmptyString]
  | String c s' =>
      match skip with
      | S k => split_from sep k cur s'
      | O =>
          if String.prefix sep s
          then rev_onto cur EmptyString
                 :: split_from sep (String.length sep - 1) EmptyString s'
          else split_from sep O (String c cur) s'
      end
  end.

Definition split (sep s : string) : list string := split_from sep 0 EmptyString s.

(** [str(n)] for a non-negative [int] *)
Definition str_of_nat (n : nat) : string := NilZero.string_of_uint (Nat.to_uint n).

End Py.

(** ** The dataset *)

(** A cell of the DataFrame: pandas reads a missing field as NaN; a present
    value, a text or a number, is given by the text [str] returns for it, which
    is all the script looks at. *)
Inductive Cell :=
| NaN
| Str (s : string).

Global Instance Cell_eq_dec : EqDecision Cell.
Proof. solve_decision. Defined.

(** [pd.isna(v)] and [pd.notna(v)] *)
Definition isna (v : Cell) : bool := match v with NaN => true | Str _ => false end.
Definition notna (v : Cell) : bool := negb (isna v).

(** [str(v)] *)
Definition str (v : Cell) : string := match v with NaN => "nan" | Str s => s end.

(** The two columns the script reads from a row. *)
Record Row := { Passage_Title : Cell; Why_I_Got_It_Wrong : Cell }.

Definition DataFrame := list Row.

(** ** The error report: [defaultdict(list)], keys in insertion order *)

Definition Report := list (string * list Cell).

(** [results[pattern].append(passage)]: a key not seen before is created with
    an empty list at the end of the dictionary, then the passage is appended. *)
Fixpoint dd_append (results : Report) (pattern : string) (passage : Cell) : Report :=
  match results with
  | [] => [(pattern, [passage])]
  | (k, v) :: rest =>
      if String.eqb k pattern then (k, v ++ [passage]) :: rest
      else (k, v) :: dd_append rest pattern passage
  end.

(** [results.get(pattern)] *)
Fixpoint report_lookup (results : Report) (pattern : string) : option (list Cell) :=
  match results with
  | [] => None
  | (k, v) :: rest => if String.eqb k pattern then Some v else report_lookup rest pattern
  end.

(** The matched sequence of a category; a category that is not a key has none. *)
Definition matched (results : Report) (pattern : string) : list Cell :=
  match report_lookup results pattern with Some v => v | None => [] end.

(** ** Core analysis: [analyze_errors] *)

Definition error_patterns : list (string * list string) :=
  [ ("Tone/Attitude", ["tone"; "attitude"; "perspective"; "viewpoint"; "neutral"; "negative"]);
    ("Context Misread", ["context"; "paragraph"; "line"; "section"; "reread"; "passage"]);
    ("Overthinking", ["assumed"; "overthought"; "bias"; "should be"; "reasoning"]);
    ("Detail Missed", ["missed"; "overlooked"; "didn't notice"; "not stated"]);
    ("Question Misinterpretation", ["misunderstood"; "misinterpreted"; "question"]);
    ("Structure Error", ["main idea"; "first sentence"; "paragraph structure"]);
    ("Vocabulary", ["word"; "term"; "phrase"; "meaning"; "empirical"]) ].

(** The inner loop over [error_patterns.items()] for one row. *)
Definition match_patterns (patterns : list (string * list string))
    (error_text : string) (passage : Cell) (results : Report) : Report :=
  fold_left
    (fun results '(pattern, keywords) =>
       if Py.any (fun kw => Py.contains kw error_text) keywords
       then dd_append results pattern passage
       else results)
    patterns results.

(** The body of the loop over [df.iterrows()]. *)
Definition analyze_row (results : Report) (row : Row) : Report :=
  if isna (Why_I_Got_It_Wrong row) then results
  else
    let error_text :=
      if notna (Why_I_Got_It_Wrong row)
      then Py.lower (str (Why_I_Got_It_Wrong row)) else "" in
    let passage := Passage_Title row in
    match_patterns error_patterns error_text passage results.

Definition analyze_errors (df : DataFrame) : Report := fold_left analyze_row df [].

(** ** Ranking: [top_errors] *)

(** [sorted(items, key=lambda x: len(x[1]), reverse=True)]: Python's sort is
    stable, also with [reverse=True]: items with equal keys keep their order. *)
Definition sort_key (x : string * list Cell) : nat := List.length (snd x).

Fixpoint insert_desc (x : string * list Cell) (l : Report) : Report :=
  match l with
  | [] => [x]
  | y :: l' => if (sort_key x <? sort_key y)%nat then y :: insert_desc x l' else x :: l
  end.

Definition sorted_desc (l : Report) : Report := fold_right insert_desc [] l.

(** [sorted(error_report.items(), ...)[:3]] *)
Definition top_errors (error_report : Report) : Report := firstn 3 (sorted_desc error_report).

(** ** Loading: [read_csv], [dropna], [astype(str)] *)

(** The field texts [pd.read_csv] reads as missing with its default
    [na_values]; the empty field is the first of them. *)
Definition na_values : list string :=
  [ ""; "#N/A"; "#N/A N/A"; "#NA"; "-1.#IND"; "-1.#QNAN"; "-NaN"; "-nan";
    "1.#IND"; "1.#QNAN"; "<NA>"; "N/A"; "NA"; "NULL"; "NaN"; "None"; "n/a";
    "nan"; "null" ].

(** A field that [pd.read_csv] reads as missing, in any column. *)
Definition is_na (field : string) : bool := existsb (String.eqb field) na_values.

(** What [pd.read_csv] makes of the fields that are not missing.  It chooses a
    type for a column from the fields of the column: integers are read as
    integers, and as floats when a field of the column is missing; numbers as
    floats; [True] and [False] as booleans; the fields of any other column
    are kept as they are written.  [parsed column i] is the text [str] gives
    for the value read at row [i] of a column with the fields [column]: for
    the field [01] it is [1] in a column of integers, [1.0] when the column
    also has a missing field, and [01] in a column with a field that is no
    number. *)
Class Pandas := { parsed : list string -> nat -> string }.

(** One column of the file, read. *)
Definition read_column `{Pandas} (column : list string) : list Cell :=
  imap (fun i field => if is_na field then NaN else Str (parsed column i)) column.

(** [pd.read_csv(uploaded_file)] on the records of the file, each given by the
    texts of its [Passage_Title] and [Why_I_Got_It_Wrong] fields (a field the
    record lacks is the empty text). *)
Definition read_csv `{Pandas} (records : list (string * string)) : DataFrame :=
  zip_with (fun title why => {| Passage_Title := title; Why_I_Got_It_Wrong := why |})
           (read_column (map fst records)) (read_column (map snd records)).

(** Columns of texts: a field that is not missing is read as it is written.
    This is what pandas does in a column with a field that is neither a
    number nor a boolean. *)
Definition text_columns : Pandas := {| parsed := fun column i => nth i column "" |}.

(** [df.dropna(subset=["Why_I_Got_It_Wrong"])] *)
Definition dropna (df : DataFrame) : DataFrame :=
  List.filter (fun row => notna (Why_I_Got_It_Wrong row)) df.

(** [df["Why_I_Got_It_Wrong"].astype(str)]: a present value becomes its text;
    the script casts after [dropna], when no value is missing (one that were
    would become the text [nan] in pandas 2). *)
Definition astype_str (df : DataFrame) : DataFrame :=
  map (fun row =>
         {| Passage_Title := Passage_Title row;
            Why_I_Got_It_Wrong := Str (str (Why_I_Got_It_Wrong row)) |})
      df.

(** Lines 87-91: the frame handed to [analyze_errors]. *)
Definition load `{Pandas} (records : list (string * string)) : DataFrame :=
  astype_str (dropna (read_csv records)).

Definition scenario : DataFrame :=
  [ {| Passage_Title := Str "P1";
       Why_I_Got_It_Wrong := Str "The tone was clearly negative but I misread it" |};
    {| Passage_Title := Str "P2";
       Why_I_Got_It_Wrong := Str "I missed a key detail in paragraph 2" |};
    {| Passage_Title := Str "P3"; Why_I_Got_It_Wrong := NaN |} ].

(** ** What the classifier is meant to record, in the spec's words *)

(** The keyword list of a category of the catalog. *)
Definition keywords_of (cat : string) : list string :=
  match find (fun e => String.eqb (fst e) cat) error_patterns with
  | Some e => snd e
  | None => []
  end.

(** A row triggers a category when its explanation is present and its
    lower-cased text contains some keyword of the category. *)
Definition triggers (cat : string) (row : Row) : bool :=
  match Why_I_Got_It_Wrong row with
  | NaN => false
  | Str s => existsb (fun kw => Py.contains kw (Py.lower s)) (keywords_of cat)
  end.

(** A row has an explanation when the cell is neither missing nor empty. *)
Definition has_explanation (row : Row) : bool :=
  match Why_I_Got_It_Wrong row with
  | NaN => false
  | Str s => negb (String.eqb s "")
  end.


(** The entries of a catalog filed under [cat] whose keywords [text] hits. *)
Definition hits (patterns : list (string * list string)) (text cat : string)
  : list (string * list string) :=
  List.filter (fun e => String.eqb (fst e) cat
                        && Py.any (fun kw => Py.contains kw text) (snd e))
              patterns.

(** Descending order of match counts. *)
Definition ge_count (x y : string * list Cell) : Prop := sort_key y <= sort_key x.

(** A separator no proper suffix of which is a prefix of it: two occurrences
    of such a separator in a text cannot overlap. *)
Definition border_free (sep : string) : bool :=
  forallb (fun d => negb (String.prefix (Py.drop d sep) sep))
          (seq 1 (String.length sep - 1)).

(** ** The session: state, exceptions, drawing *)

(** A chat message: [{"role": ..., "content": ...}] *)
Record Msg := { role : string; content : string }.

(** The values the script stores in [st.session_state]. *)
Inductive SVal :=
| VStr (s : string)
| VBool (b : bool)
| VList (l : list Msg).

(** Python truthiness of a stored value. *)
Definition truthy (v : SVal) : bool :=
  match v with
  | VStr s => negb (String.eqb s "")
  | VBool b => b
  | VList l => match l with [] => false | _ => true end
  end.

(** [RerunException] derives from [BaseException] through Streamlit's
    [ScriptControlException], so [except Exception] lets it pass; every other
    exception the script meets is an [Exception] and carries its text. *)
Inductive Exc :=
| PyException (msg : string)
| RerunException.

(** What the script draws. *)
Inductive Ui :=
| Markdown (text : string)
| ChatMessage (role content : string)
| StError (text : string).

(** The state a run of the script acts on: the session dictionary, the calls
    of [generate_cars_content] made so far (error type and history, oldest
    first), and what has been drawn.  The dictionary holds the entries the
    script assigns and reads, under its passage, reveal and chat keys;
    Streamlit also keeps the values of the keyed widgets there, under
    [btn_...] and [input_...], entries that the script neither reads nor
    assigns and that are not kept here. *)
Record World := {
  session_state : gmap string SVal;
  requests : list (string * option (list Msg));
  screen : list Ui
}.

Definition empty_world : World :=
  {| session_state := ∅; requests := []; screen := [] |}.

Inductive Outcome (A : Type) :=
| Ok (a : A)
| Raise (e : Exc).
Arguments Ok {A} a.
Arguments Raise {A} e.

(** Computations of the script: state passing with exceptions. *)
Definition M (A : Type) : Type := World -> Outcome A * World.

Definition ret {A} (a : A) : M A := fun w => (Ok a, w).

Definition bind {A B} (m : M A) (f : A -> M B) : M B :=
  fun w =>
    match m w with
    | (Ok a, w') => f a w'
    | (Raise e, w') => (Raise e, w')
    end.

Definition raise {A} (e : Exc) : M A := fun w => (Raise e, w).

(** [try: body except Exception as e: handler(str(e))] *)
Definition try_except {A} (body : M A) (handler : string -> M A) : M A :=
  fun w =>
    match body w with
    | (Raise (PyException msg), w') => handler msg w'
    | r => r
    end.

Declare Scope script_scope.
Delimit Scope script_scope with script.
Notation "x <- m ;; k" := (bind m (fun x => k))
  (at level 100, m at next level, right associativity) : script_scope.
Notation "m ;;; k" := (bind m (fun _ => k))
  (at level 100, right associativity) : script_scope.
Local Open Scope script_scope.

(** [key in st.session_state] *)
Definition contains_key (key : string) : M bool :=
  fun w => (Ok (bool_decide (is_Some (session_state w !! key))), w).

(** [st.session_state[key]] *)
Definition session_get (key : string) : M SVal :=
  fun w =>
    match session_state w !! key with
    | Some v => (Ok v, w)
    | None => (Raise (PyException "KeyError"), w)
    end.

(** [st.session_state[key] = v] *)
Definition session_set (key : string) (v : SVal) : M unit :=
  fun w =>
    (Ok tt, {| session_state := <[key := v]> (session_state w);
               requests := requests w; screen := screen w |}).

(** [st.session_state[key].append(msg)]: the stored list is extended in place. *)
Definition session_append (key : string) (msg : Msg) : M unit :=
  v <- session_get key ;;
  match v with
  | VList l => session_set key (VList (l ++ [msg]))
  | _ => raise (PyException "AttributeError")
  end.

Definition draw (u : Ui) : M unit :=
  fun w =>
    (Ok tt, {| session_state := session_state w; requests := requests w;
               screen := screen w ++ [u] |}).

Fixpoint for_each {A} (l : list A) (body : A -> M unit) : M unit :=
  match l with
  | [] => ret tt
  | a :: l' => body a ;;; for_each l' body
  end.

(** ** The generator: [generate_cars_content] *)

(** The language-model service behind [client.chat.completions.create] and the
    two system prompts: the [n]-th request of the session, made with
    [messages], either yields the content of the first choice or raises. *)
Class Generator := {
  chat_completions : nat -> list Msg -> string + string;
  generation_prompt : string -> string;
  follow_up_prompt : string -> string
}.

(** The [messages] of a request; an absent and an empty history both ask for
    a full passage ([if not conversation_history]). *)
Definition messages_for `{Generator} (error_type : string)
    (conversation_history : option (list Msg)) : list Msg :=
  match conversation_history with
  | None | Some [] =>
      [ {| role := "system"; content := generation_prompt error_type |};
        {| role := "user";
           content := "Create a full CARS passage and 3 MCQs targeting: " +:+ error_type |} ]
  | Some history =>
      [ {| role := "system"; content := follow_up_prompt error_type |} ] ++ history
  end.

Definition generate_cars_content `{Generator} (error_type : string)
    (conversation_history : option (list Msg)) : M string :=
  fun w =>
    let messages := messages_for error_type conversation_history in
    let w' := {| session_state := session_state w;
                 requests := requests w ++ [(error_type, conversation_history)];
                 screen := screen w |} in
    match chat_completions (List.length (requests w)) messages with
    | inl text => (Ok text, w')
    | inr msg => (Raise (PyException msg), w')
    end.

(** ** One practice unit: the body of the [st.expander] of [err_type] at [idx] *)

Definition passage_key (err_type : string) (idx : nat) : string :=
  "passage_" +:+ err_type +:+ "_" +:+ Py.str_of_nat idx.
Definition chat_key (err_type : string) (idx : nat) : string :=
  "chat_" +:+ err_type +:+ "_" +:+ Py.str_of_nat idx.
Definition reveal_key (err_type : string) (idx : nat) : string :=
  "reveal_" +:+ err_type +:+ "_" +:+ Py.str_of_nat idx.

Definition marker : string := "### Answer & Explanation".
Definition answers_unavailable : string := "⚠️ Answers not available.".

(** Lines 128-132: generate the passage only once, then read it back. *)
Definition getOrGenerateContent `{Generator} (err_type : string) (idx : nat) : M string :=
  cached <- contains_key (passage_key err_type idx) ;;
  (if cached then ret tt
   else content <- generate_cars_content err_type None ;;
        session_set (passage_key err_type idx) (VStr content)) ;;;
  full_text <- session_get (passage_key err_type idx) ;;
  match full_text with
  | VStr text => ret text
  | _ => raise (PyException "AttributeError")
  end.

(** Lines 133-135: [(passage_text, answers_text)] *)
Definition parse_content (full_text : string) : string * string :=
  let parts := Py.split marker full_text in
  let passage_text := Py.strip (nth 0 parts "") in
  let answers_text :=
    if (1 <? List.length parts)%nat then Py.strip (nth 1 parts "") else answers_unavailable in
  (passage_text, answers_text).

(** Lines 142-147: the flag defaults to [False]; the button is drawn only
    while the flag is false, and a click sets the flag. *)
Definition reveal_gate (err_type : string) (idx : nat) (clicked : bool) : M unit :=
  present <- contains_key (reveal_key err_type idx) ;;
  (if present then ret tt else session_set (reveal_key err_type idx) (VBool false)) ;;;
  flag <- session_get (reveal_key err_type idx) ;;
  if negb (truthy flag)
  then (if clicked then session_set (reveal_key err_type idx) (VBool true) else ret tt)
  else ret tt.

(** Line 149: the flag as the script reads it. *)
Definition read_revealed (err_type : string) (idx : nat) : M bool :=
  flag <- session_get (reveal_key err_type idx) ;;
  ret (truthy flag).

(** Line 165 *)
Definition appendUserTurn (err_type : string) (idx : nat) (prompt : string) : M unit :=
  session_append (chat_key err_type idx) {| role := "user"; content := prompt |}.

(** [l[-n:]] for a positive [n] *)
Definition last_n {A} (n : nat) (l : list A) : list A := skipn (List.length l - n) l.

(** Lines 168-170 *)
Definition requestAssistantTurn `{Generator} (err_type : string) (idx : nat) : M string :=
  cached <- session_get (passage_key err_type idx) ;;
  transcript <- session_get (chat_key err_type idx) ;;
  match cached, transcript with
  | VStr text, VList entries =>
      let full_context := [ {| role := "assistant"; content := text |} ] ++ last_n 5 entries in
      reply <- generate_cars_content err_type (Some full_context) ;;
      session_append (chat_key err_type idx) {| role := "assistant"; content := reply |} ;;;
      ret reply
  | _, _ => raise (PyException "TypeError")
  end.

(** Lines 157-175: the transcript is created empty, drawn, and a submitted
    prompt is appended before the generator is asked. *)
Definition chat `{Generator} (err_type : string) (idx : nat) (prompt : option string)
  : M unit :=
  present <- contains_key (chat_key err_type idx) ;;
  (if present then ret tt else session_set (chat_key err_type idx) (VList [])) ;;;
  transcript <- session_get (chat_key err_type idx) ;;
  match transcript with
  | VList entries => for_each entries (fun msg => draw (ChatMessage (role msg) (content msg)))
  | _ => raise (PyException "TypeError")
  end ;;;
  match prompt with
  | None | Some EmptyString => ret tt
  | Some text =>
      appendUserTurn err_type idx text ;;;
      try_except
        (reply <- requestAssistantTurn err_type idx ;;
         raise RerunException)
        (fun e => draw (StError ("GPT failed: " +:+ e)))
  end.

(** Lines 122-175 for one category of the ranking. *)
Definition practice_unit `{Generator} (err_type : string) (idx : nat)
    (clicked : bool) (prompt : option string) : M unit :=
  full_text <- getOrGenerateContent err_type idx ;;
  let '(passage_text, answers_text) := parse_content full_text in
  draw (Markdown "### 📘 Passage + Questions") ;;;
  draw (Markdown passage_text) ;;;
  reveal_gate err_type idx clicked ;;;
  revealed <- read_revealed err_type idx ;;
  (if revealed
   then draw (Markdown "### ✅ Answers & Explanations") ;;; draw (Markdown answers_text)
   else ret tt) ;;;
  draw (Markdown "---") ;;;
  draw (Markdown "💬 **Ask a question about the passage:**") ;;;
  chat err_type idx prompt.

(** ** A session: runs of practice units, one after the other *)

(** What the user did to one unit in one run. *)
Record Interaction := {
  unit_type : string;
  unit_idx : nat;
  clicked_reveal : bool;
  chat_prompt : option string
}.

Definition interact `{Generator} (ev : Interaction) : M unit :=
  practice_unit (unit_type ev) (unit_idx ev) (clicked_reveal ev) (chat_prompt ev).

(** The state persists from one unit to the next, however the unit ended. *)
Definition session_run `{Generator} (evs : list Interaction) (w : World) : World :=
  fold_left (fun w ev => snd (interact ev w)) evs w.

(** The reveal flag of a unit; a unit not created yet is not revealed. *)
Definition revealed_in (flag : option SVal) : bool :=
  match flag with
  | Some v => truthy v
  | None => false
  end.

Definition isRevealed (err_type : string) (idx : nat) (w : World) : bool :=
  revealed_in (session_state w !! reveal_key err_type idx).

(** The interaction clicks the reveal button of the unit of [err_type] at [idx]. *)
Definition reveals (err_type : string) (idx : nat) (ev : Interaction) : bool :=
  clicked_reveal ev && bool_decide (unit_type ev = err_type /\ unit_idx ev = idx).

(** The transcript of a unit. *)
Definition transcript_of (err_type : string) (idx : nat) (w : World) : option SVal :=
  session_state w !! chat_key err_type idx.

(** A generator that answers every request with [text] and one that fails. *)
Definition canned (text : string) : Generator :=
  {| chat_completions := fun _ _ => inl text;
     generation_prompt := fun e => e;
     follow_up_prompt := fun e => e |}.

Definition failing (msg : string) : Generator :=
  {| chat_completions := fun _ _ => inr msg;
     generation_prompt := fun e => e;
     follow_up_prompt := fun e => e |}.

(** ** Frames *)

(** A computation writes the session dictionary at the keys in [keys] only. *)
Definition only_writes {A} (keys : string -> Prop) (m : M A) : Prop :=
  forall w k, ~ keys k -> session_state (snd (m w)) !! k = session_state w !! k.

(** A computation keeps a property of the session dictionary, however it ends. *)
Definition preserves {A} (J : gmap string SVal -> Prop) (m : M A) : Prop :=
  forall w, J (session_state w) -> J (session_state (snd (m w))).

(** The entries the script appends to a transcript. *)
Definition user_turn (text : string) : Msg := {| role := "user"; content := text |}.
Definition assistant_turn (text : string) : Msg := {| role := "assistant"; content := text |}.

(** The history of a follow-up request: the stored passage as an assistant
    entry, then the last five entries of the transcript. *)
Definition full_context (text : string) (entries : list Msg) : list Msg :=
  [assistant_turn text] ++ last_n 5 entries.

Definition with_session (st : gmap string SVal) (w : World) : World :=
  {| session_state := st; requests := requests w; screen := screen w |}.

(** A generator that answers the first request of a session with [text] and
    fails with [msg] from then on. *)
Definition flaky (text msg : string) : Generator :=
  {| chat_completions := fun n _ => match n with O => inl text | S _ => inr msg end;
     generation_prompt := fun e => e;
     follow_up_prompt := fun e => e |}.

(** The session after a first run, without click or prompt, of the unit of
    Tone/Attitude at index 0. *)
Definition opened (G : Generator) : World :=
  snd (@practice_unit G "Tone/Attitude" 0 false None empty_world).

(** ** Helper functions: suggestions and the targeted practice *)

(** [d.get(key, default)] on a dictionary given by its items. *)
Fixpoint dict_get {V : Type} (d : list (string * V)) (key : string) (default : V) : V :=
  match d with
  | [] => default
  | (k, v) :: rest => if String.eqb k key then v else dict_get rest key default
  end.

Definition suggestions : list (string * string) :=
  [ ("Tone/Attitude", "Highlight adjectives/verbs that indicate tone. Practice identifying neutral vs. opinionated language.");
    ("Context Misread", "Before answering, summarize each paragraph in 5 words. Check question references (e.g., 'paragraph 3').");
    ("Overthinking", "Eliminate answers that require assumptions not in text. Stick to passage evidence only.");
    ("Detail Missed", "Circle key nouns/numbers when reading. Verify answer choices against specific passage lines.");
    ("Question Misinterpretation", "Restate the question in your own words before looking at answers.");
    ("Structure Error", "Note the first/last sentences of paragraphs - they often contain main ideas.");
    ("Vocabulary", "Make flashcards for unfamiliar terms. Look for defining phrases like 'means' or 'refers to'.") ].

Definition fix_fallback : string := "Review similar question types in practice passages.".

Definition get_fix_suggestion (pattern : string) : string :=
  dict_get suggestions pattern fix_fallback.

Definition samples : list (string * string) :=
  [ ("Tone/Attitude", "Read a passage and highlight all tone words (e.g., 'criticizes', 'admires').");
    ("Context Misread", "Find a passage with multiple viewpoints. Map which paragraphs support each view.");
    ("Overthinking", "Do 5 questions where you must justify each answer with exact passage text.");
    ("Detail Missed", "Annotate a passage by underlining: dates, names, and specialized terms.");
    ("Question Misinterpretation", "Restate 3 hard questions in your own words before answering.");
    ("Structure Error", "Outline a passage's structure: main idea → evidence → conclusion.");
    ("Vocabulary", "Identify 5 unfamiliar words from passages and guess meanings from context.") ].

(** [max(items, key=lambda x: len(x[1]))] on a non-empty sequence: the first
    item whose key no other item exceeds. *)
Fixpoint py_max (best : string * list Cell) (items : Report) : string * list Cell :=
  match items with
  | [] => best
  | x :: rest => if (sort_key best <? sort_key x)%nat then py_max x rest else py_max best rest
  end.

Definition practice_fallback : string := "Practice identifying main ideas in 3 passages today.".

Definition generate_sample_question (error_report : Report) : string :=
  match error_report with
  | [] => practice_fallback
  | first :: rest =>
      let top_error := py_max first rest in
      dict_get samples (fst top_error) "" +:+ " (Your top error: " +:+ fst top_error +:+ ")"
  end.

(** Two rows with the same title whose explanations differ at most in the
    case of their letters. *)
Definition same_up_to_case (row row' : Row) : Prop :=
  Passage_Title row = Passage_Title row'
  /\ match Why_I_Got_It_Wrong row, Why_I_Got_It_Wrong row' with
     | NaN, NaN => True
     | Str s, Str s' => Py.lower s = Py.lower s'
     | _, _ => False
     end.

(** A row with its explanation in lower case. *)
Definition lowered (row : Row) : Row :=
  {| Passage_Title := Passage_Title row;
     Why_I_Got_It_Wrong :=
       match Why_I_Got_It_Wrong row with
       | NaN => NaN
       | Str s => Str (Py.lower s)
       end |}.

(** An entry of a report filed under a category of [patterns], with a
    non-empty sequence. *)
Definition filed (patterns : list (string * list string)) (entry : string * list Cell) : Prop :=
  In (fst entry) (map fst patterns) /\ snd entry <> [].

(** ** Specifications of the script's computations *)

(** From a state satisfying [P], the computation ends normally with a result
    and a state satisfying [Q], or raises an exception in a state satisfying
    [E]. *)
Definition hoare {A} (P : World -> Prop) (m : M A)
    (Q : A -> World -> Prop) (E : Exc -> World -> Prop) : Prop :=
  forall w, P w ->
    match m w with
    | (Ok a, w') => Q a w'
    | (Raise e, w') => E e w'
    end.

(** The computation makes at most [n] requests to the generator, each for an
    error type in [allowed], and forgets none made before. *)
Definition asks {A} (allowed : string -> Prop) (n : nat) (m : M A) : Prop :=
  forall w, exists new,
    requests (snd (m w)) = requests w ++ new
    /\ List.length new <= n
    /\ Forall (fun request => allowed (fst request)) new.

(** The entries of a unit hold what the script stores in them: a text for the
    passage, a boolean for the flag, a list of messages for the transcript. *)
Definition typed_unit (err_type : string) (idx : nat) (st : gmap string SVal) : Prop :=
  (st !! passage_key err_type idx = None
   \/ exists text, st !! passage_key err_type idx = Some (VStr text))
  /\ (st !! reveal_key err_type idx = None
      \/ exists flag, st !! reveal_key err_type idx = Some (VBool flag))
  /\ (st !! chat_key err_type idx = None
      \/ exists entries, st !! chat_key err_type idx = Some (VList entries)).

Definition well_typed (st : gmap string SVal) : Prop :=
  forall err_type idx, typed_unit err_type idx st.

(** What a unit draws: the passage, the answers when [shown], the chat so far. *)
Definition unit_view (full_text : string) (shown : bool) (entries : list Msg) : list Ui :=
  [ Markdown "### 📘 Passage + Questions"; Markdown (fst (parse_content full_text)) ]
  ++ (if shown
      then [ Markdown "### ✅ Answers & Explanations"; Markdown (snd (parse_content full_text)) ]
      else [])
  ++ [ Markdown "---"; Markdown "💬 **Ask a question about the passage:**" ]
  ++ map (fun msg => ChatMessage (role msg) (content msg)) entries.

(** ** The practice section and the script around it *)

(** The widget events of a run: for the unit of an error type at an index,
    whether its reveal button was clicked, and the prompt submitted to its
    chat input, if any. *)
Record Events := {
  button_clicked : string -> nat -> bool;
  chat_submitted : string -> nat -> option string
}.

(** A run in which the user did nothing. *)
Definition no_events : Events :=
  {| button_clicked := fun _ _ => false; chat_submitted := fun _ _ => None |}.

(** [enumerate(l)] *)
Definition enumerate {A} (l : list A) : list (nat * A) := combine (seq 0 (List.length l)) l.

(** Lines 118-175: the units of the ranked categories, in rank order; a unit
    that raises ends the loop. *)
Definition practice_section `{Generator} (error_report : Report) (events : Events) : M unit :=
  for_each (enumerate (top_errors error_report))
    (fun '(idx, (err_type, _)) =>
       practice_unit err_type idx
         (button_clicked events err_type idx) (chat_submitted events err_type idx)).

(** Lines 85-186, for what a run does to the session and asks of the
    generator: the uploaded records are loaded and analysed, a non-empty
    report leads to the practice section, and an [Exception] raised on the way
    is reported by the outer handler.  The page elements drawn outside the
    units (headers, the expanders of the report, the chart, the raw data, the
    warning for an empty report) touch neither the session nor the generator
    and are not drawn here. *)
Definition script `{Generator} `{Pandas} (uploaded_file : option (list (string * string)))
    (events : Events) : M unit :=
  match uploaded_file with
  | None => ret tt
  | Some records =>
      try_except
        (let df := load records in
         let error_report := analyze_errors df in
         match error_report with
         | [] => ret tt
         | _ :: _ => practice_section error_report events
         end)
        (fun e => draw (StError ("Error processing file: " +:+ e)))
  end.

(** The ranked categories of the records of a file, with their indices. *)
Definition ranked_units `{Pandas} (records : list (string * string))
  : list (nat * (string * list Cell)) :=
  enumerate (top_errors (analyze_errors (load records))).

(** The unit of a ranked category is in the session: its passage is a stored
    text, its flag a stored boolean, its transcript a stored list. *)
Definition stored_unit (st : gmap string SVal) (unit : nat * (string * list Cell)) : Prop :=
  let '(idx, (err_type, _)) := unit in
  (exists text, st !! passage_key err_type idx = Some (VStr text))
  /\ (exists flag, st !! reveal_key err_type idx = Some (VBool flag))
  /\ (exists entries, st !! chat_key err_type idx = Some (VList entries)).

(** Two session dictionaries hold the same passages, flags and transcripts. *)
Definition same_units (st st' : gmap string SVal) : Prop :=
  forall err_type idx,
    st' !! passage_key err_type idx = st !! passage_key err_type idx
    /\ st' !! reveal_key err_type idx = st !! reveal_key err_type idx
    /\ st' !! chat_key err_type idx = st !! chat_key err_type idx.

(** The state in which a unit asks for a rerun: a prompt was submitted, the
    stored passage and the transcript ending with the prompt's user turn were
    sent as the last request on record, and the generator's reply to that
    request is the last entry of the transcript. *)
Definition replied `{Generator} (err_type : string) (idx : nat) (prompt : option string)
    (w : World) : Prop :=
  exists c rest text entries reply earlier,
    let asked := entries ++ [user_turn (String c rest)] in
    prompt = Some (String c rest)
    /\ session_state w !! passage_key err_type idx = Some (VStr text)
    /\ session_state w !! chat_key err_type idx = Some (VList (asked ++ [assistant_turn reply]))
    /\ requests w = earlier ++ [(err_type, Some (full_context text asked))]
    /\ chat_completions (List.length earlier)
         (messages_for err_type (Some (full_context text asked))) = inl reply.

(** The state in which the first generation of a unit's passage has failed
    with [msg]: the request is the last on record and no passage is stored. *)
Definition generation_failed `{Generator} (err_type : string) (idx : nat) (msg : string)
    (w : World) : Prop :=
  exists earlier,
    session_state w !! passage_key err_type idx = None
    /\ requests w = earlier ++ [(err_type, None)]
    /\ chat_completions (List.length earlier) (messages_for err_type None) = inr msg.

(** The records of a one-row file, and a click-free chat with the unit its
    report ranks first. *)
Definition demo_records : list (string * string) :=
  [ ("P1", "The tone was clearly negative") ].

Definition demo_chat : Interaction :=
  {| unit_type := "Tone/Attitude"; unit_idx := 0; clicked_reveal := false;
     chat_prompt := Some "why?" |}.

(** A run in which a prompt is submitted to the unit of Tone/Attitude at
    index 0 and nothing else is done. *)
Definition demo_events : Events :=
  {| button_clicked := fun _ _ => false;
     chat_submitted := fun err_type idx =>
       if String.eqb err_type "Tone/Attitude" && (idx =? 0)%nat then Some "why?" else None |}.
Example lower_ex : Py.lower "The Tone, Z@[`{" = "the tone, z@[`{".
Proof. reflexivity. Qed.

Example contains_ex :
  Py.contains "tone" "the tone was" = true /\ Py.contains "reread" "misread it" = false
  /\ Py.contains "" "" = true.
Proof. repeat split; reflexivity. Qed.

Example split_ex :
  Py.split "##" "a##b####c##" = ["a"; "b"; ""; "c"; ""] /\ Py.split "##" "" = [""]
  /\ Py.split "aa" "aaa" = [""; "a"] /\ Py.split "##" "abc" = ["abc"].
Proof. repeat split; reflexivity. Qed.

Example strip_ex : Py.strip "
 a b 	 " = "a b" /\ Py.strip "   " = "" /\ Py.strip "" = "".
Proof. repeat split; reflexivity. Qed.

Example str_of_nat_ex : Py.str_of_nat 0 = "0" /\ Py.str_of_nat 12 = "12".
Proof. split; reflexivity. Qed.

Example scenario_report : analyze_errors scenario =
  [("Tone/Attitude", [Str "P1"]); ("Context Misread", [Str "P2"]); ("Detail Missed", [Str "P2"])].
Proof. vm_compute. reflexivity. Qed.

Example top_ex : map fst (top_errors [("a", [NaN]); ("b", [NaN; NaN]); ("c", [NaN]); ("d", [NaN;NaN]); ("e", [NaN; NaN; NaN])]) = ["e"; "b"; "d"].
Proof. vm_compute. reflexivity. Qed.

(** ** Facts about the report dictionary *)

Section ReportFacts.

Implicit Types (r : Report) (k : string) (p : Cell).

Lemma report_lookup_dd_append r k p k' :
  report_lookup (dd_append r k p) k' =
  if String.eqb k k' then Some (matched r k ++ [p]) else report_lookup r k'.
Proof.
  unfold matched.
  induction r as [|[k0 v0] r IH]; simpl.
  - destruct (String.eqb_spec k k'); reflexivity.
  - destruct (String.eqb_spec k0 k) as [->|Hk0]; simpl.
    + destruct (String.eqb_spec k k'); reflexivity.
    + rewrite IH.
      destruct (String.eqb_spec k0 k') as [->|Hk0'].
      * destruct (String.eqb_spec k k'); [congruence | reflexivity].
      * reflexivity.
Qed.

Lemma matched_dd_append r k p k' :
  matched (dd_append r k p) k' =
  if String.eqb k k' then matched r k' ++ [p] else matched r k'.
Proof.
  unfold matched at 1. rewrite report_lookup_dd_append.
  destruct (String.eqb_spec k k') as [->|]; reflexivity.
Qed.

Lemma keys_dd_append r k p :
  map fst (dd_append r k p) =
  if existsb (String.eqb k) (map fst r) then map fst r else map fst r ++ [k].
Proof.
  induction r as [|[k0 v0] r IH]; simpl; [reflexivity|].
  rewrite (String.eqb_sym k k0).
  destruct (String.eqb_spec k0 k) as [->|Hne]; simpl; [reflexivity|].
  rewrite IH. destruct (existsb _ _); reflexivity.
Qed.

Lemma NoDup_dd_append r k p :
  NoDup (map fst r) -> NoDup (map fst (dd_append r k p)).
Proof.
  intros Hnd. rewrite keys_dd_append.
  destruct (existsb (String.eqb k) (map fst r)) eqn:E; [assumption|].
  apply NoDup_app. split; [assumption|]. split; [|apply NoDup_singleton].
  intros x Hx Hk. apply list_elem_of_In in Hx, Hk. destruct Hk as [<-|[]].
  assert (existsb (String.eqb k) (map fst r) = true); [|congruence].
  apply existsb_exists. exists k. split; [assumption | apply String.eqb_refl].
Qed.

Lemma in_report_matched r k (v : list Cell) :
  NoDup (map fst r) -> In (k, v) r -> matched r k = v.
Proof.
  unfold matched.
  induction r as [|[k0 v0] r IH]; simpl; [tauto|].
  intros Hnd [Heq|Hin].
  - inversion Heq; subst. rewrite String.eqb_refl. reflexivity.
  - inversion Hnd as [|? ? Hnotin Hnd']; subst.
    destruct (String.eqb_spec k0 k) as [->|Hne].
    + exfalso. apply Hnotin, list_elem_of_In. apply (in_map fst) in Hin. exact Hin.
    + apply IH; assumption.
Qed.

End ReportFacts.

(** ** The classifier records a row once under each category it triggers *)

Section Classifier.

Implicit Types (patterns : list (string * list string)) (text cat : string).

Lemma matched_match_patterns patterns text p r cat :
  matched (match_patterns patterns text p r) cat =
  matched r cat ++ map (fun _ => p) (hits patterns text cat).
Proof.
  unfold match_patterns. revert r.
  induction patterns as [|[k kws] patterns IH]; intros r; simpl.
  - rewrite app_nil_r. reflexivity.
  - rewrite IH. destruct (Py.any _ kws) eqn:Hany.
    + rewrite matched_dd_append.
      destruct (String.eqb k cat); simpl; [rewrite <- app_assoc|]; reflexivity.
    + rewrite andb_false_r. reflexivity.
Qed.

Lemma keys_match_patterns patterns text p r :
  NoDup (map fst r) -> NoDup (map fst (match_patterns patterns text p r)).
Proof.
  unfold match_patterns. revert r.
  induction patterns as [|[k kws] patterns IH]; intros r Hnd; simpl; [assumption|].
  apply IH. destruct (Py.any _ kws); [apply NoDup_dd_append|]; assumption.
Qed.

Lemma hits_absent patterns text cat :
  cat ∉ map fst patterns -> hits patterns text cat = [].
Proof.
  induction patterns as [|[k kws] patterns IH]; simpl; [reflexivity|].
  intros Hnotin. apply not_elem_of_cons in Hnotin as [Hne Hnotin].
  destruct (String.eqb_spec k cat) as [->|_]; simpl; [congruence|].
  apply IH, Hnotin.
Qed.

Lemma hits_unique patterns text cat :
  NoDup (map fst patterns) ->
  hits patterns text cat =
  match find (fun e => String.eqb (fst e) cat) patterns with
  | Some e => if Py.any (fun kw => Py.contains kw text) (snd e) then [e] else []
  | None => []
  end.
Proof.
  induction patterns as [|[k kws] patterns IH]; simpl; [reflexivity|].
  intros Hnd. inversion Hnd as [|? ? Hnotin Hnd']; subst.
  destruct (String.eqb_spec k cat) as [->|Hne]; simpl.
  - fold (hits patterns text cat). rewrite hits_absent by assumption.
    destruct (Py.any _ kws); reflexivity.
  - apply IH. assumption.
Qed.

Lemma error_patterns_keys_unique : NoDup (map fst error_patterns).
Proof.
  apply (bool_decide_unpack _). vm_compute. reflexivity.
Qed.

Lemma analyze_row_matched r (row : Row) cat :
  matched (analyze_row r row) cat =
  matched r cat ++ (if triggers cat row then [Passage_Title row] else []).
Proof.
  unfold analyze_row, triggers.
  destruct (Why_I_Got_It_Wrong row) as [|s]; cbn [isna notna negb str].
  - rewrite app_nil_r. reflexivity.
  - rewrite matched_match_patterns, (hits_unique _ _ _ error_patterns_keys_unique).
    unfold keywords_of, Py.any.
    destruct (find _ error_patterns) as [e|]; [|reflexivity].
    destruct (existsb _ (snd e)); reflexivity.
Qed.

Lemma fold_analyze_row_matched (df : DataFrame) r cat :
  matched (fold_left analyze_row df r) cat =
  matched r cat ++ map Passage_Title (List.filter (triggers cat) df).
Proof.
  revert r. induction df as [|row df IH]; intros r; simpl.
  - rewrite app_nil_r. reflexivity.
  - rewrite IH, analyze_row_matched, <- app_assoc.
    destruct (triggers cat row); reflexivity.
Qed.

Lemma analyze_errors_matched (df : DataFrame) cat :
  matched (analyze_errors df) cat = map Passage_Title (List.filter (triggers cat) df).
Proof. unfold analyze_errors. rewrite fold_analyze_row_matched. reflexivity. Qed.

Lemma analyze_errors_keys_unique (df : DataFrame) : NoDup (map fst (analyze_errors df)).
Proof.
  unfold analyze_errors.
  assert (H : forall r, NoDup (map fst r) -> NoDup (map fst (fold_left analyze_row df r))).
  { induction df as [|row df IH]; intros r Hr; simpl; [assumption|].
    apply IH. unfold analyze_row.
    destruct (isna _); [assumption | apply keys_match_patterns; assumption]. }
  apply H. constructor.
Qed.

(** An empty explanation contains no keyword of the catalog. *)
Lemma analyze_row_empty r p :
  analyze_row r {| Passage_Title := p; Why_I_Got_It_Wrong := Str "" |} = r.
Proof. reflexivity. Qed.

Lemma keywords_of_nonempty cat : Forall (fun kw => kw <> "") (keywords_of cat).
Proof.
  assert (H : Forall (fun e => Forall (fun kw => kw <> "") (snd e)) error_patterns)
    by (repeat constructor; discriminate).
  unfold keywords_of.
  destruct (find _ error_patterns) as [e|] eqn:Hfind; [|constructor].
  apply find_some in Hfind as [Hin _].
  rewrite Forall_forall in H. apply H, list_elem_of_In, Hin.
Qed.

Lemma triggers_has_explanation cat (row : Row) :
  triggers cat row = true -> has_explanation row = true.
Proof.
  unfold triggers, has_explanation.
  destruct (Why_I_Got_It_Wrong row) as [|s]; [discriminate|].
  destruct s; [|reflexivity].
  intros H. apply existsb_exists in H as (kw & Hin & Hkw).
  pose proof (keywords_of_nonempty cat) as Hne.
  rewrite Forall_forall in Hne. apply list_elem_of_In, Hne in Hin.
  destruct kw; [congruence | discriminate].
Qed.

End Classifier.


(** ** The classifier's report *)

Lemma analyze_row_unusable r (row : Row) :
  has_explanation row = false -> analyze_row r row = r.
Proof.
  destruct row as [p [|s]]; unfold has_explanation; simpl; [reflexivity|].
  destruct s; [intros _; apply analyze_row_empty | discriminate].
Qed.

Lemma fold_analyze_row_usable (df : DataFrame) r :
  fold_left analyze_row df r = fold_left analyze_row (List.filter has_explanation df) r.
Proof.
  revert r. induction df as [|row df IH]; intros r; [reflexivity|].
  cbn [fold_left List.filter].
  destruct (has_explanation row) eqn:Hrow; cbn [fold_left].
  - apply IH.
  - rewrite analyze_row_unusable by assumption. apply IH.
Qed.

Lemma in_matched_provenance (df : DataFrame) cat p :
  In p (matched (analyze_errors df) cat) ->
  exists row, In row df /\ Passage_Title row = p
              /\ has_explanation row = true /\ triggers cat row = true.
Proof.
  rewrite analyze_errors_matched. intros Hin.
  apply in_map_iff in Hin as (row & Hp & Hrow).
  apply filter_In in Hrow as [Hrow Htrig].
  exists row. repeat split; try assumption.
  apply (triggers_has_explanation cat), Htrig.
Qed.

(** C5 (skip invariant).  Rows whose explanation is missing or empty leave no
    trace in the report: the report is the one of the dataset without them,
    every passage of a category's sequence comes from a row with a present,
    non-empty explanation that triggers the category, and a passage that only
    rows without explanation bear occurs in no sequence. *)
Theorem skip_invariant (df : DataFrame) :
  analyze_errors df = analyze_errors (List.filter has_explanation df)
  /\ (forall cat seq p, In (cat, seq) (analyze_errors df) -> In p seq ->
        exists row, In row df /\ Passage_Title row = p
                    /\ has_explanation row = true /\ triggers cat row = true)
  /\ (forall p,
        (forall row, In row df -> Passage_Title row = p -> has_explanation row = false) ->
        forall cat seq, In (cat, seq) (analyze_errors df) -> ~ In p seq).
Proof.
  assert (Hprov : forall cat seq p, In (cat, seq) (analyze_errors df) -> In p seq ->
            exists row, In row df /\ Passage_Title row = p
                        /\ has_explanation row = true /\ triggers cat row = true).
  { intros cat seq p Hentry Hp. apply in_matched_provenance.
    rewrite (in_report_matched _ _ seq (analyze_errors_keys_unique df) Hentry).
    exact Hp. }
  split; [apply fold_analyze_row_usable|]. split; [exact Hprov|].
  intros p Hrows cat seq Hentry Hp.
  destruct (Hprov cat seq p Hentry Hp) as (row & Hin & Htitle & Hexp & _).
  rewrite (Hrows row Hin Htitle) in Hexp. discriminate.
Qed.

Lemma skip_invariant_witness : ~ In (Str "P3") [Str "P2"].
Proof.
  refine (proj2 (proj2 (skip_invariant scenario)) (Str "P3") _ "Detail Missed" [Str "P2"] _).
  - intros row Hin Htitle. simpl in Hin.
    destruct Hin as [<-|[<-|[<-|[]]]]; [discriminate Htitle | discriminate Htitle | reflexivity].
  - vm_compute. right. right. left. reflexivity.
Defined.

Lemma count_occ_map_filter {A} (f : A -> Cell) (g : A -> bool) (l : list A) (p : Cell) :
  count_occ Cell_eq_dec (map f (List.filter g l)) p =
  List.length (List.filter (fun a => g a && bool_decide (f a = p)) l).
Proof.
  induction l as [|a l IH]; simpl; [reflexivity|].
  destruct (g a); simpl; [|exact IH].
  destruct (Cell_eq_dec (f a) p) as [Heq|Hne].
  - rewrite bool_decide_eq_true_2 by assumption. simpl. rewrite IH. reflexivity.
  - rewrite bool_decide_eq_false_2 by assumption. exact IH.
Qed.

(** C10 (one entry per row and category).  A row adds its passage to a
    category's sequence once when it triggers the category, however many
    keywords of the category its explanation contains, and not at all
    otherwise; so a passage occurs in the sequence as many times as there are
    rows bearing it that trigger the category. *)
Theorem once_per_row (df : DataFrame) (results : Report) (row : Row) (cat : string) (p : Cell) :
  matched (analyze_row results row) cat =
    matched results cat ++ (if triggers cat row then [Passage_Title row] else [])
  /\ matched (analyze_errors df) cat = map Passage_Title (List.filter (triggers cat) df)
  /\ count_occ Cell_eq_dec (matched (analyze_errors df) cat) p =
     List.length
       (List.filter (fun row => triggers cat row && bool_decide (Passage_Title row = p)) df).
Proof.
  split; [apply analyze_row_matched|]. split; [apply analyze_errors_matched|].
  rewrite analyze_errors_matched. apply count_occ_map_filter.
Qed.

Example several_keywords_one_entry :
  analyze_errors
    [ {| Passage_Title := Str "P7";
         Why_I_Got_It_Wrong := Str "Missed the TONE and the attitude: too negative" |};
      {| Passage_Title := Str "P7"; Why_I_Got_It_Wrong := Str "neutral viewpoint" |} ]
  = [("Tone/Attitude", [Str "P7"; Str "P7"]); ("Detail Missed", [Str "P7"])].
Proof. vm_compute. reflexivity. Qed.

(** C2 (scenario).  The three-row dataset yields the report with P1 under
    Tone/Attitude and P2 under Context Misread and Detail Missed, P3 occurs
    nowhere, and the ranking keeps the three categories, each of count 1, in
    first-seen order. *)
Theorem scenario_report_and_rank :
  analyze_errors scenario =
    [ ("Tone/Attitude", [Str "P1"]); ("Context Misread", [Str "P2"]);
      ("Detail Missed", [Str "P2"]) ]
  /\ Forall (fun entry => ~ In (Str "P3") (snd entry)) (analyze_errors scenario)
  /\ top_errors (analyze_errors scenario) =
       [ ("Tone/Attitude", [Str "P1"]); ("Context Misread", [Str "P2"]);
         ("Detail Missed", [Str "P2"]) ]
  /\ map sort_key (top_errors (analyze_errors scenario)) = [1; 1; 1].
Proof.
  assert (Hreport := scenario_report).
  rewrite Hreport. split; [reflexivity|]. split; [|split; reflexivity].
  repeat constructor; simpl; intros [H|[]]; discriminate H.
Qed.

(** ** Loading *)

Section Loading.

Context `{P : Pandas}.

(** The frame read has a missing explanation exactly where the field of the
    record is one of the texts read as missing. *)
Lemma read_csv_isna (records : list (string * string)) :
  Forall2 (fun record row => isna (Why_I_Got_It_Wrong row) = is_na (snd record))
          records (read_csv records).
Proof.
  unfold read_csv, read_column.
  assert (Hcolumns : forall (titles whys : nat -> string -> Cell),
            (forall i field, isna (whys i field) = is_na field) ->
            Forall2 (fun record row => isna (Why_I_Got_It_Wrong row) = is_na (snd record))
                    records
                    (zip_with (fun title why =>
                                 {| Passage_Title := title; Why_I_Got_It_Wrong := why |})
                              (imap titles (map fst records))
                              (imap whys (map snd records)))).
  { induction records as [|[title why] records IH]; intros titles whys Hwhys;
      cbn [map imap zip_with fst snd]; constructor.
    - apply Hwhys.
    - apply IH. intros i field. apply Hwhys. }
  apply Hcolumns. intros i field. destruct (is_na field); reflexivity.
Qed.

Lemma length_read_csv (records : list (string * string)) :
  List.length (read_csv records) = List.length records.
Proof. symmetry. apply (Forall2_length _ _ _ (read_csv_isna records)). Qed.

Lemma astype_str_dropna (df : DataFrame) : astype_str (dropna df) = dropna df.
Proof.
  unfold astype_str, dropna.
  induction df as [|[p [|s]] df IH]; simpl; [reflexivity | exact IH | rewrite IH; reflexivity].
Qed.



End Loading.


(** A file whose explanations are texts: the records with an empty or [NA]
    explanation are left out, the one with an empty title is kept. *)
Example load_ex :
  @load text_columns [("P1", "tone"); ("P2", ""); ("P3", "NA"); ("", "missed line 3")] =
  [ {| Passage_Title := Str "P1"; Why_I_Got_It_Wrong := Str "tone" |};
    {| Passage_Title := NaN; Why_I_Got_It_Wrong := Str "missed line 3" |} ].
Proof. vm_compute. reflexivity. Qed.

(** ** Texts: prefixes, occurrences and [split] *)

Section Strings.

Implicit Types (s t x y z sep cur : string) (c : ascii).

Lemma append_cons c x y : String c x +:+ y = String c (x +:+ y).
Proof. reflexivity. Qed.

Lemma append_nil y : "" +:+ y = y.
Proof. reflexivity. Qed.

Lemma string_app_nil_r s : s +:+ "" = s.
Proof. induction s as [|c s IH]; [reflexivity|]. rewrite append_cons, IH. reflexivity. Qed.

Lemma string_app_assoc x y z : (x +:+ y) +:+ z = x +:+ y +:+ z.
Proof. induction x as [|c x IH]; [reflexivity|]. rewrite !append_cons, IH. reflexivity. Qed.

Lemma string_length_app x y : String.length (x +:+ y) = String.length x + String.length y.
Proof.
  induction x as [|c x IH]; [reflexivity|].
  rewrite append_cons. cbn [String.length]. rewrite IH. reflexivity.
Qed.

Lemma prefix_spec s t : String.prefix s t = true <-> exists z, t = s +:+ z.
Proof.
  revert t. induction s as [|c s IH]; intros t.
  - split; [intros _; exists t; reflexivity | intros _; destruct t; reflexivity].
  - destruct t as [|c' t]; cbn [String.prefix].
    + split; [discriminate | intros [z Hz]; discriminate Hz].
    + destruct (ascii_dec c c') as [<-|Hne].
      * rewrite IH. split; intros [z Hz]; exists z.
        -- rewrite Hz. reflexivity.
        -- injection Hz as Hz. exact Hz.
      * split; [discriminate | intros [z Hz]; injection Hz as Hc _; congruence].
Qed.

Lemma contains_spec sep s : Py.contains sep s = true <-> exists x y, s = x +:+ sep +:+ y.
Proof.
  induction s as [|c s IH]; cbn [Py.contains].
  - rewrite orb_false_r, prefix_spec. split.
    + intros [z Hz]. exists "", z. exact Hz.
    + intros (x & y & Hxy). destruct x; [exists y; exact Hxy | discriminate Hxy].
  - rewrite orb_true_iff, prefix_spec, IH. split.
    + intros [[z Hz]|(x & y & Hxy)].
      * exists "", z. exact Hz.
      * exists (String c x), y. rewrite Hxy. reflexivity.
    + intros (x & y & Hxy). destruct x as [|c' x].
      * left. exists y. exact Hxy.
      * right. injection Hxy as _ Hxy. exists x, y. exact Hxy.
Qed.

Lemma string_app_eq_app x y u v :
  x +:+ y = u +:+ v ->
  (exists z, u = x +:+ z /\ y = z +:+ v) \/ (exists z, x = u +:+ z /\ v = z +:+ y).
Proof.
  revert u. induction x as [|c x IH]; intros u H.
  - left. exists u. split; [reflexivity | exact H].
  - destruct u as [|c' u].
    + right. exists (String c x). split; [reflexivity | symmetry; exact H].
    + injection H as <- H. destruct (IH u H) as [(z & -> & Hy)|(z & -> & Hv)].
      * left. exists z. split; [reflexivity | exact Hy].
      * right. exists z. split; [reflexivity | exact Hv].
Qed.

Lemma drop_app x y : Py.drop (String.length x) (x +:+ y) = y.
Proof. induction x as [|c x IH]; [destruct y; reflexivity | exact IH]. Qed.

Lemma border_free_spec sep d :
  border_free sep = true -> 1 <= d < String.length sep ->
  String.prefix (Py.drop d sep) sep = false.
Proof.
  unfold border_free. rewrite forallb_forall. intros Hfree Hd.
  apply negb_true_iff, Hfree, in_seq. lia.
Qed.

(** An occurrence of a border-free separator cannot start inside a text that
    has none and run over into the separator that follows it. *)
Lemma no_overlap sep x y :
  border_free sep = true -> x <> "" -> Py.contains sep x = false ->
  String.prefix sep (x +:+ sep +:+ y) = false.
Proof.
  intros Hfree Hx Hnone. apply not_true_is_false. intros Hpre.
  apply prefix_spec in Hpre as [t Ht].
  apply string_app_eq_app in Ht as [(z & Hsep & Hz)|(z & Hxz & _)].
  - assert (Hlen : String.length sep = String.length x + String.length z)
      by (rewrite Hsep at 1; apply string_length_app).
    assert (Hdrop : Py.drop (String.length x) sep = z)
      by (rewrite Hsep at 1; apply drop_app).
    apply string_app_eq_app in Hz as [(z' & Hz' & _)|(z' & Hz' & _)].
    + apply (f_equal String.length) in Hz'. rewrite string_length_app in Hz'.
      destruct x; [congruence|]. cbn [String.length] in *. lia.
    + destruct z as [|c z].
      * rewrite string_app_nil_r in Hsep. subst x.
        assert (Py.contains sep sep = true); [|congruence].
        apply contains_spec. exists "", "". rewrite string_app_nil_r. reflexivity.
      * assert (String.prefix (Py.drop (String.length x) sep) sep = true).
        { rewrite Hdrop. apply prefix_spec. exists z'. exact Hz'. }
        rewrite border_free_spec in H; [discriminate | exact Hfree |].
        destruct x; [congruence|]. cbn [String.length] in *. lia.
  - assert (Py.contains sep x = true); [|congruence].
    apply contains_spec. exists "", z. exact Hxz.
Qed.

Lemma rev_onto_app cur x y : Py.rev_onto cur (x +:+ y) = Py.rev_onto cur x +:+ y.
Proof. revert x. induction cur as [|c cur IH]; intros x; [reflexivity | apply (IH (String c x))]. Qed.

Lemma split_from_skip sep x cur y :
  Py.split_from sep (String.length x) cur (x +:+ y) = Py.split_from sep 0 cur y.
Proof. induction x as [|c x IH]; [reflexivity | exact IH]. Qed.

(** Without an occurrence of the separator there is one piece: the text. *)
Lemma split_from_none sep cur s :
  Py.contains sep s = false -> Py.split_from sep 0 cur s = [Py.rev_onto cur s].
Proof.
  revert cur. induction s as [|c s IH]; intros cur Hnone.
  - reflexivity.
  - cbn [Py.contains] in Hnone. apply orb_false_iff in Hnone as [Hpre Hnone].
    cbn [Py.split_from]. rewrite Hpre. rewrite (IH _ Hnone). reflexivity.
Qed.

(** The first piece ends at the first occurrence of the separator, and the
    rest of the split is the split of what follows that occurrence. *)
Lemma split_from_first sep cur x y :
  border_free sep = true -> sep <> "" -> Py.contains sep x = false ->
  Py.split_from sep 0 cur (x +:+ sep +:+ y) =
  Py.rev_onto cur x :: Py.split_from sep 0 "" y.
Proof.
  intros Hfree Hsep. revert cur. induction x as [|c x IH]; intros cur Hnone.
  - destruct sep as [|c sep]; [congruence|].
    change ("" +:+ String c sep +:+ y) with (String c (sep +:+ y)).
    cbn [Py.split_from].
    replace (String.prefix (String c sep) (String c (sep +:+ y))) with true
      by (symmetry; apply prefix_spec; exists y; reflexivity).
    replace (String.length (String c sep) - 1) with (String.length sep)
      by (cbn [String.length]; lia).
    rewrite split_from_skip. reflexivity.
  - pose proof (no_overlap sep (String c x) y Hfree ltac:(discriminate) Hnone) as Hpre.
    cbn [Py.contains] in Hnone. apply orb_false_iff in Hnone as [_ Hnone].
    change (String c x +:+ sep +:+ y) with (String c (x +:+ sep +:+ y)) in *.
    cbn [Py.split_from]. rewrite Hpre. rewrite (IH _ Hnone). reflexivity.
Qed.

Lemma split_none sep s : Py.contains sep s = false -> Py.split sep s = [s].
Proof. apply split_from_none. Qed.

Lemma split_first sep x y :
  border_free sep = true -> sep <> "" -> Py.contains sep x = false ->
  Py.split sep (x +:+ sep +:+ y) = x :: Py.split sep y.
Proof. apply split_from_first. Qed.

Lemma split_not_nil sep s : Py.split sep s <> [].
Proof.
  unfold Py.split. generalize 0 "". induction s as [|c s IH]; intros skip cur.
  - discriminate.
  - cbn [Py.split_from]. destruct skip; [|apply IH].
    destruct (String.prefix sep (String c s)); [discriminate | apply IH].
Qed.

End Strings.

(** ** Ranking *)

Section Ranking.

Implicit Types (x y : string * list Cell) (l r : Report).

Lemma insert_desc_perm x l : Permutation (insert_desc x l) (x :: l).
Proof.
  induction l as [|y l IH]; simpl; [reflexivity|].
  destruct (sort_key x <? sort_key y)%nat; [|reflexivity].
  rewrite IH. apply perm_swap.
Qed.

Lemma sorted_desc_perm l : Permutation (sorted_desc l) l.
Proof.
  induction l as [|x l IH]; simpl; [reflexivity|].
  rewrite insert_desc_perm, IH. reflexivity.
Qed.

Lemma insert_desc_sorted x l :
  StronglySorted ge_count l -> StronglySorted ge_count (insert_desc x l).
Proof.
  induction 1 as [|y l Hl IH Hy]; simpl; [repeat constructor|].
  destruct (Nat.ltb_spec (sort_key x) (sort_key y)) as [Hlt|Hge].
  - constructor; [exact IH|].
    rewrite insert_desc_perm. constructor; [unfold ge_count; lia | exact Hy].
  - constructor; [constructor; assumption|].
    constructor; [exact Hge|].
    apply (Forall_impl _ _ _ Hy). unfold ge_count. intros z Hz. lia.
Qed.

Lemma sorted_desc_sorted l : StronglySorted ge_count (sorted_desc l).
Proof.
  induction l as [|x l IH]; simpl; [constructor | apply insert_desc_sorted, IH].
Qed.

(** Stability: among the entries of one count the order is the report's. *)
Lemma insert_desc_stable n x l :
  List.filter (fun e => sort_key e =? n)%nat (insert_desc x l) =
  List.filter (fun e => sort_key e =? n)%nat (x :: l).
Proof.
  induction l as [|y l IH]; [reflexivity|].
  cbn [insert_desc].
  destruct (Nat.ltb_spec (sort_key x) (sort_key y)) as [Hlt|Hge]; [|reflexivity].
  cbn [List.filter] in *. rewrite IH.
  destruct (Nat.eqb_spec (sort_key y) n), (Nat.eqb_spec (sort_key x) n);
    try reflexivity; lia.
Qed.

Lemma sorted_desc_stable n l :
  List.filter (fun e => sort_key e =? n)%nat (sorted_desc l) =
  List.filter (fun e => sort_key e =? n)%nat l.
Proof.
  induction l as [|x l IH]; [reflexivity|].
  cbn [sorted_desc fold_right]. fold (sorted_desc l).
  rewrite insert_desc_stable. cbn [List.filter]. rewrite IH. reflexivity.
Qed.

Lemma filter_firstn_prefix {A} (f : A -> bool) k (l : list A) :
  List.filter f (firstn k l) `prefix_of` List.filter f l.
Proof.
  exists (List.filter f (skipn k l)).
  rewrite <- List.filter_app, firstn_skipn. reflexivity.
Qed.

Lemma sorted_split {A} (R : A -> A -> Prop) (l1 l2 : list A) :
  StronglySorted R (l1 ++ l2) ->
  Forall (fun b => Forall (fun a => R a b) l1) l2.
Proof.
  induction l1 as [|a l1 IH]; simpl; intros Hs.
  - apply Forall_forall. intros b _. constructor.
  - inversion Hs as [|? ? Hs' Ha]; subst.
    specialize (IH Hs'). rewrite Forall_forall in IH |- *.
    intros b Hb. constructor; [|apply IH, Hb].
    rewrite Forall_forall in Ha. apply Ha. apply elem_of_app. right. exact Hb.
Qed.

Lemma sorted_firstn {A} (R : A -> A -> Prop) k (l : list A) :
  StronglySorted R l -> StronglySorted R (firstn k l).
Proof.
  intros Hs. revert k. induction Hs as [|a l Hl IH Ha]; intros [|k]; simpl;
    try constructor; [apply IH|].
  apply Forall_forall. intros b Hb. rewrite Forall_forall in Ha. apply Ha.
  rewrite <- (firstn_skipn k l). apply elem_of_app. left. exact Hb.
Qed.

End Ranking.

(** C3 (ranking).  [top_errors] keeps three entries of the report, or all of
    them when the report has fewer, so at most three; they are in descending
    order of match count; among entries of equal count it keeps the report's
    first-seen order (and, when it cuts, the first-seen ones); the report is
    the entries kept together with the entries left out, and those left out
    have counts no larger than the ones kept; the empty report ranks to the
    empty sequence. *)
Theorem top_errors_ranking (r : Report) :
  List.length (top_errors r) = Nat.min 3 (List.length r)
  /\ List.length (top_errors r) <= 3
  /\ StronglySorted (fun x y => sort_key y <= sort_key x) (top_errors r)
  /\ (forall n, List.filter (fun e => sort_key e =? n)%nat (top_errors r)
                `prefix_of` List.filter (fun e => sort_key e =? n)%nat r)
  /\ (exists rest, Permutation r (top_errors r ++ rest)
        /\ Forall (fun y => Forall (fun x => sort_key y <= sort_key x) (top_errors r)) rest)
  /\ top_errors [] = [].
Proof.
  unfold top_errors. split.
  { rewrite length_firstn. f_equal. apply Permutation_length, sorted_desc_perm. }
  split; [apply firstn_le_length|].
  split; [apply sorted_firstn, sorted_desc_sorted|].
  split; [|split; [|reflexivity]].
  - intros n. rewrite <- (sorted_desc_stable n r). apply filter_firstn_prefix.
  - exists (skipn 3 (sorted_desc r)). split.
    + rewrite firstn_skipn. symmetry. apply sorted_desc_perm.
    + apply (sorted_split ge_count). rewrite firstn_skipn. apply sorted_desc_sorted.
Qed.

Example rank_ties_first_seen :
  map fst (top_errors
             [ ("a", [NaN]); ("b", [NaN; NaN]); ("c", [NaN]); ("d", [NaN; NaN]);
               ("e", [NaN; NaN]); ("f", [NaN; NaN]) ])
  = ["b"; "d"; "e"].
Proof. vm_compute. reflexivity. Qed.

(** ** Session keys *)

Section Keys.

Implicit Types (a b e : string) (c : ascii) (i n : nat).

Lemma separator_not_digits a b : NilEmpty.uint_of_string (a +:+ "_" +:+ b) = None.
Proof.
  induction a as [|c a IH].
  - rewrite append_nil, append_cons. simpl. destruct (NilEmpty.uint_of_string _); reflexivity.
  - rewrite append_cons. simpl. rewrite IH. reflexivity.
Qed.

Lemma str_of_nat_digits n : NilEmpty.uint_of_string (Py.str_of_nat n) <> None.
Proof.
  unfold Py.str_of_nat, NilZero.string_of_uint.
  destruct (Nat.to_uint n); try discriminate; rewrite NilEmpty.usu; discriminate.
Qed.

Lemma to_uint_not_nil n : Nat.to_uint n <> Decimal.Nil.
Proof.
  rewrite <- (DecimalNat.Unsigned.of_to n) at 1. rewrite DecimalNat.Unsigned.to_of.
  unfold Decimal.unorm. destruct (Decimal.nzhead _); discriminate.
Qed.

Lemma str_of_nat_inj n n' : Py.str_of_nat n = Py.str_of_nat n' -> n = n'.
Proof.
  unfold Py.str_of_nat. intros H.
  apply (f_equal NilZero.uint_of_string) in H.
  rewrite !NilZero.usu in H by apply to_uint_not_nil.
  injection H as H. apply DecimalNat.Unsigned.to_uint_inj, H.
Qed.

(** [f'{err_type}_{idx}'] determines both the error type and the index. *)
Lemma key_suffix_inj a a' n n' :
  a +:+ "_" +:+ Py.str_of_nat n = a' +:+ "_" +:+ Py.str_of_nat n' -> a = a' /\ n = n'.
Proof.
  revert a'. induction a as [|c a IH]; intros [|c' a'] H.
  - injection H as H. split; [reflexivity | apply str_of_nat_inj, H].
  - injection H as _ H.
    change (Py.str_of_nat n = a' +:+ "_" +:+ Py.str_of_nat n') in H.
    destruct (str_of_nat_digits n). rewrite H. apply separator_not_digits.
  - injection H as _ H.
    change (a +:+ "_" +:+ Py.str_of_nat n = Py.str_of_nat n') in H.
    destruct (str_of_nat_digits n'). rewrite <- H. apply separator_not_digits.
  - injection H as Hc H.
    change (a +:+ "_" +:+ Py.str_of_nat n = a' +:+ "_" +:+ Py.str_of_nat n') in H.
    destruct (IH _ H) as [-> ->]. subst. split; reflexivity.
Qed.

Lemma passage_key_inj e i e' i' : passage_key e i = passage_key e' i' -> e = e' /\ i = i'.
Proof. unfold passage_key. intros H. injection H as H. apply key_suffix_inj, H. Qed.

Lemma reveal_key_inj e i e' i' : reveal_key e i = reveal_key e' i' -> e = e' /\ i = i'.
Proof. unfold reveal_key. intros H. injection H as H. apply key_suffix_inj, H. Qed.

Lemma chat_key_inj e i e' i' : chat_key e i = chat_key e' i' -> e = e' /\ i = i'.
Proof. unfold chat_key. intros H. injection H as H. apply key_suffix_inj, H. Qed.

(** The three families of keys are told apart by their first character. *)
Lemma passage_reveal_key e i e' i' : passage_key e i <> reveal_key e' i'.
Proof. discriminate. Qed.

Lemma passage_chat_key e i e' i' : passage_key e i <> chat_key e' i'.
Proof. discriminate. Qed.

Lemma reveal_chat_key e i e' i' : reveal_key e i <> chat_key e' i'.
Proof. discriminate. Qed.

End Keys.

(** ** Frames of the script's computations *)

Section Frames.

Context `{G : Generator}.

Implicit Types (w : World) (k key : string) (keys : string -> Prop).

Lemma only_writes_weaken {A} keys keys' (m : M A) :
  (forall k, keys k -> keys' k) -> only_writes keys m -> only_writes keys' m.
Proof. intros Hsub Hm w k Hk. apply Hm. intros Hin. apply Hk, Hsub, Hin. Qed.

Lemma only_writes_ret {A} keys (a : A) : only_writes keys (ret a).
Proof. intros w k _. reflexivity. Qed.

Lemma only_writes_raise {A} keys (e : Exc) : only_writes keys (raise (A := A) e).
Proof. intros w k _. reflexivity. Qed.

Lemma only_writes_bind {A B} keys (m : M A) (f : A -> M B) :
  only_writes keys m -> (forall a, only_writes keys (f a)) -> only_writes keys (bind m f).
Proof.
  intros Hm Hf w k Hk. unfold bind.
  specialize (Hm w k Hk). destruct (m w) as [[a|e] w1]; simpl in *.
  - rewrite (Hf a w1 k Hk). exact Hm.
  - exact Hm.
Qed.

Lemma only_writes_try_except {A} keys (body : M A) (handler : string -> M A) :
  only_writes keys body -> (forall msg, only_writes keys (handler msg)) ->
  only_writes keys (try_except body handler).
Proof.
  intros Hb Hh w k Hk. unfold try_except.
  specialize (Hb w k Hk). destruct (body w) as [[a|[msg|]] w1]; simpl in *; try exact Hb.
  rewrite (Hh msg w1 k Hk). exact Hb.
Qed.

Lemma only_writes_contains_key keys key : only_writes keys (contains_key key).
Proof. intros w k _. reflexivity. Qed.

Lemma only_writes_session_get keys key : only_writes keys (session_get key).
Proof. intros w k _. unfold session_get. destruct (session_state w !! key); reflexivity. Qed.

Lemma only_writes_session_set key v : only_writes (eq key) (session_set key v).
Proof. intros w k Hk. simpl. apply lookup_insert_ne. exact Hk. Qed.

Lemma only_writes_draw keys u : only_writes keys (draw u).
Proof. intros w k _. reflexivity. Qed.

Lemma only_writes_generate keys error_type history :
  only_writes keys (generate_cars_content error_type history).
Proof.
  intros w k _. unfold generate_cars_content. destruct (chat_completions _ _); reflexivity.
Qed.

Lemma only_writes_session_append key msg : only_writes (eq key) (session_append key msg).
Proof.
  unfold session_append. apply only_writes_bind; [apply only_writes_session_get|].
  intros [s|b|l]; try apply only_writes_raise. apply only_writes_session_set.
Qed.

Lemma only_writes_for_each {A} keys (l : list A) (body : A -> M unit) :
  (forall a, only_writes keys (body a)) -> only_writes keys (for_each l body).
Proof.
  intros Hbody. induction l as [|a l IH]; simpl; [apply only_writes_ret|].
  apply only_writes_bind; [apply Hbody | intros _; exact IH].
Qed.

Lemma only_writes_getOrGenerateContent e i :
  only_writes (eq (passage_key e i)) (getOrGenerateContent e i).
Proof.
  unfold getOrGenerateContent.
  apply only_writes_bind; [apply only_writes_contains_key|]. intros cached.
  apply only_writes_bind.
  - destruct cached; [apply only_writes_ret|].
    apply only_writes_bind; [apply only_writes_generate|].
    intros content. apply only_writes_session_set.
  - intros _. apply only_writes_bind; [apply only_writes_session_get|].
    intros [s|b|l]; (apply only_writes_ret || apply only_writes_raise).
Qed.

Lemma only_writes_reveal_gate e i clicked :
  only_writes (eq (reveal_key e i)) (reveal_gate e i clicked).
Proof.
  unfold reveal_gate.
  apply only_writes_bind; [apply only_writes_contains_key|]. intros present.
  apply only_writes_bind.
  - destruct present; [apply only_writes_ret | apply only_writes_session_set].
  - intros _. apply only_writes_bind; [apply only_writes_session_get|].
    intros flag. destruct (negb (truthy flag)), clicked;
      (apply only_writes_ret || apply only_writes_session_set).
Qed.

Lemma only_writes_read_revealed keys e i : only_writes keys (read_revealed e i).
Proof.
  unfold read_revealed. apply only_writes_bind; [apply only_writes_session_get|].
  intros flag. apply only_writes_ret.
Qed.

Lemma only_writes_requestAssistantTurn e i :
  only_writes (eq (chat_key e i)) (requestAssistantTurn e i).
Proof.
  unfold requestAssistantTurn.
  apply only_writes_bind; [apply only_writes_session_get|]. intros cached.
  apply only_writes_bind; [apply only_writes_session_get|]. intros transcript.
  destruct cached, transcript; try apply only_writes_raise.
  apply only_writes_bind; [apply only_writes_generate|]. intros reply.
  apply only_writes_bind; [apply only_writes_session_append|]. intros _.
  apply only_writes_ret.
Qed.

Lemma only_writes_chat e i prompt : only_writes (eq (chat_key e i)) (chat e i prompt).
Proof.
  unfold chat.
  apply only_writes_bind; [apply only_writes_contains_key|]. intros present.
  apply only_writes_bind.
  { destruct present; [apply only_writes_ret | apply only_writes_session_set]. }
  intros _. apply only_writes_bind; [apply only_writes_session_get|]. intros transcript.
  apply only_writes_bind.
  { destruct transcript; try apply only_writes_raise.
    apply only_writes_for_each. intros msg. apply only_writes_draw. }
  intros _. destruct prompt as [[|c text]|]; try apply only_writes_ret.
  apply only_writes_bind; [apply only_writes_session_append|]. intros _.
  apply only_writes_try_except.
  - apply only_writes_bind; [apply only_writes_requestAssistantTurn|].
    intros reply. apply only_writes_raise.
  - intros msg. apply only_writes_draw.
Qed.

(** A frame keeps whatever holds of a key outside it. *)
Lemma preserves_outside {A} keys (m : M A) k (P : option SVal -> Prop) :
  only_writes keys m -> ~ keys k -> preserves (fun st => P (st !! k)) m.
Proof. intros Hm Hk w HP. rewrite (Hm w k Hk). exact HP. Qed.

Lemma preserves_bind {A B} J (m : M A) (f : A -> M B) :
  preserves J m -> (forall a, preserves J (f a)) -> preserves J (bind m f).
Proof.
  intros Hm Hf w HJ. unfold bind.
  specialize (Hm w HJ). destruct (m w) as [[a|e] w1]; simpl in *.
  - apply Hf, Hm.
  - exact Hm.
Qed.

Lemma preserves_draw J u : preserves J (draw u).
Proof. intros w HJ. exact HJ. Qed.

Lemma preserves_ret {A} J (a : A) : preserves J (ret a).
Proof. intros w HJ. exact HJ. Qed.

Lemma preserves_read_revealed J e i : preserves J (read_revealed e i).
Proof.
  intros w HJ. unfold read_revealed, bind, session_get.
  destruct (session_state w !! reveal_key e i); exact HJ.
Qed.

End Frames.

(** ** Content: generated once, then served from the session *)

Section Units.

Context `{G : Generator}.

Implicit Types (w : World) (e : string) (i : nat) (ev : Interaction).

Lemma getOrGenerateContent_cached e i w v :
  session_state w !! passage_key e i = Some v ->
  getOrGenerateContent e i w =
  (match v with VStr text => Ok text | _ => Raise (PyException "AttributeError") end, w).
Proof.
  intros Hv. unfold getOrGenerateContent, bind, contains_key, session_get.
  rewrite Hv. rewrite bool_decide_eq_true_2 by (eexists; reflexivity).
  simpl. rewrite Hv. destruct v; reflexivity.
Qed.

Lemma getOrGenerateContent_fresh e i w text :
  session_state w !! passage_key e i = None ->
  chat_completions (List.length (requests w)) (messages_for e None) = inl text ->
  getOrGenerateContent e i w =
  (Ok text, {| session_state := <[passage_key e i := VStr text]> (session_state w);
               requests := requests w ++ [(e, None)];
               screen := screen w |}).
Proof.
  intros Hnone Hgen.
  unfold getOrGenerateContent, bind, contains_key, generate_cars_content, session_get.
  rewrite Hnone. rewrite bool_decide_eq_false_2 by (intros [? ?]; discriminate).
  rewrite Hgen. simpl. rewrite lookup_insert_eq. reflexivity.
Qed.

Lemma getOrGenerateContent_failed e i w msg :
  session_state w !! passage_key e i = None ->
  chat_completions (List.length (requests w)) (messages_for e None) = inr msg ->
  getOrGenerateContent e i w =
  (Raise (PyException msg),
   {| session_state := session_state w; requests := requests w ++ [(e, None)];
      screen := screen w |}).
Proof.
  intros Hnone Hgen.
  unfold getOrGenerateContent, bind, contains_key, generate_cars_content.
  rewrite Hnone. rewrite bool_decide_eq_false_2 by (intros [? ?]; discriminate).
  rewrite Hgen. reflexivity.
Qed.

(** No block of the script overwrites a stored passage. *)
Lemma getOrGenerateContent_keeps e i k v :
  preserves (fun st => st !! k = Some v) (getOrGenerateContent e i).
Proof.
  destruct (decide (passage_key e i = k)) as [<-|Hne].
  - intros w Hv. rewrite (getOrGenerateContent_cached e i w v Hv). exact Hv.
  - apply (preserves_outside (eq (passage_key e i)) _ k (fun o => o = Some v));
      [apply only_writes_getOrGenerateContent | exact Hne].
Qed.

Lemma practice_unit_keeps_passage e i v e' i' clicked prompt :
  preserves (fun st => st !! passage_key e i = Some v) (practice_unit e' i' clicked prompt).
Proof.
  unfold practice_unit.
  apply preserves_bind; [apply getOrGenerateContent_keeps|]. intros full_text.
  destruct (parse_content full_text) as [passage_text answers_text].
  apply preserves_bind; [apply preserves_draw|]. intros _.
  apply preserves_bind; [apply preserves_draw|]. intros _.
  apply preserves_bind.
  { apply (preserves_outside (eq (reveal_key e' i')) _ (passage_key e i) (fun o => o = Some v));
      [apply only_writes_reveal_gate|].
    intros H. symmetry in H. revert H. apply passage_reveal_key. }
  intros _. apply preserves_bind; [apply preserves_read_revealed|]. intros revealed.
  apply preserves_bind.
  { destruct revealed; [|apply preserves_ret].
    apply preserves_bind; [apply preserves_draw | intros _; apply preserves_draw]. }
  intros _. apply preserves_bind; [apply preserves_draw|]. intros _.
  apply preserves_bind; [apply preserves_draw|]. intros _.
  apply (preserves_outside (eq (chat_key e' i')) _ (passage_key e i) (fun o => o = Some v));
    [apply only_writes_chat|].
  intros H. symmetry in H. revert H. apply passage_chat_key.
Qed.

Lemma session_run_preserves J (evs : list Interaction) w :
  Forall (fun ev => preserves J (interact ev)) evs ->
  J (session_state w) -> J (session_state (session_run evs w)).
Proof.
  unfold session_run. intros Hevs. revert w.
  induction Hevs as [|ev evs Hev _ IH]; intros w HJ; [exact HJ|].
  simpl. apply IH, Hev, HJ.
Qed.

Lemma session_run_keeps_passage e i v (evs : list Interaction) w :
  session_state w !! passage_key e i = Some v ->
  session_state (session_run evs w) !! passage_key e i = Some v.
Proof.
  apply (session_run_preserves (fun st => st !! passage_key e i = Some v)).
  apply Forall_forall. intros ev _. unfold interact. apply practice_unit_keeps_passage.
Qed.

(** C1 (at-most-once generation).  The first access to a unit whose content
    is not stored yet, the generator answering, makes one request for the
    unit's error type without history, stores the answer and returns it;
    whatever units run afterwards, with whatever clicks, prompts and replies,
    the stored content stays the same, and every later access returns the same
    text and leaves the session, and the list of requests made, as they are. *)
Theorem content_generated_once e i w text :
  session_state w !! passage_key e i = None ->
  chat_completions (List.length (requests w)) (messages_for e None) = inl text ->
  let first := getOrGenerateContent e i w in
  fst first = Ok text
  /\ requests (snd first) = requests w ++ [(e, None)]
  /\ forall evs : list Interaction,
       let later := session_run evs (snd first) in
       session_state later !! passage_key e i = Some (VStr text)
       /\ getOrGenerateContent e i later = (Ok text, later).
Proof.
  intros Hnone Hgen. cbv zeta.
  rewrite (getOrGenerateContent_fresh e i w text Hnone Hgen). cbn [fst snd requests].
  split; [reflexivity|]. split; [reflexivity|]. intros evs.
  match goal with |- context [session_run evs ?w1] => set (w0 := w1) end.
  assert (Hstored : session_state (session_run evs w0) !! passage_key e i = Some (VStr text)).
  { apply session_run_keeps_passage. apply lookup_insert_eq. }
  split; [exact Hstored|].
  apply (getOrGenerateContent_cached e i _ (VStr text) Hstored).
Qed.

End Units.

(** ** The reveal gate *)

Section Reveal.

Context `{G : Generator}.

Implicit Types (w : World) (e : string) (i : nat) (ev : Interaction).

(** After the gate the flag is set when it was set before or the button was
    clicked, and only then. *)
Lemma reveal_gate_flag e i clicked w :
  isRevealed e i (snd (reveal_gate e i clicked w)) = isRevealed e i w || clicked.
Proof.
  unfold isRevealed, reveal_gate, bind, contains_key, session_get.
  destruct (session_state w !! reveal_key e i) as [flag|] eqn:Hflag.
  - rewrite bool_decide_eq_true_2 by (eexists; reflexivity). simpl. rewrite Hflag.
    destruct (truthy flag) eqn:Htruthy; simpl; [rewrite Hflag; simpl; exact Htruthy|].
    destruct clicked; simpl.
    + rewrite lookup_insert_eq. reflexivity.
    + rewrite Hflag. simpl. rewrite Htruthy. reflexivity.
  - rewrite bool_decide_eq_false_2 by (intros [? ?]; discriminate). simpl.
    rewrite lookup_insert_eq. simpl.
    destruct clicked; simpl; rewrite lookup_insert_eq; reflexivity.
Qed.

(** A unit not created yet gets its flag, unset, from a run without click. *)
Lemma reveal_gate_creates e i w :
  session_state w !! reveal_key e i = None ->
  session_state (snd (reveal_gate e i false w)) !! reveal_key e i = Some (VBool false).
Proof.
  intros Hnone. unfold reveal_gate, bind, contains_key, session_get.
  rewrite Hnone. rewrite bool_decide_eq_false_2 by (intros [? ?]; discriminate). simpl.
  rewrite lookup_insert_eq. simpl. apply lookup_insert_eq.
Qed.

(** The blocks of a unit after its gate leave every reveal flag alone. *)
Lemma after_gate_keeps_flag e i b e' i' answers_text prompt :
  preserves (fun st => revealed_in (st !! reveal_key e i) = b)
    (revealed <- read_revealed e' i' ;;
     (if revealed
      then draw (Markdown "### ✅ Answers & Explanations") ;;; draw (Markdown answers_text)
      else ret tt) ;;;
     draw (Markdown "---") ;;;
     draw (Markdown "💬 **Ask a question about the passage:**") ;;;
     chat e' i' prompt)%script.
Proof.
  apply preserves_bind; [apply preserves_read_revealed|]. intros revealed.
  apply preserves_bind.
  { destruct revealed; [|apply preserves_ret].
    apply preserves_bind; [apply preserves_draw | intros _; apply preserves_draw]. }
  intros _. apply preserves_bind; [apply preserves_draw|]. intros _.
  apply preserves_bind; [apply preserves_draw|]. intros _.
  apply (preserves_outside (eq (chat_key e' i')) _ (reveal_key e i)
           (fun o => revealed_in o = b)); [apply only_writes_chat|].
  intros H. symmetry in H. revert H. apply reveal_chat_key.
Qed.

(** What a run of a unit does to the flag of the unit of [e] at [i]: nothing,
    unless it is that unit's reveal button that was clicked. *)
Lemma practice_unit_flag e i b e' i' clicked prompt :
  (clicked = true -> e' = e -> i' = i -> b = true) ->
  preserves (fun st => revealed_in (st !! reveal_key e i) = b)
            (practice_unit e' i' clicked prompt).
Proof.
  intros Hclick. unfold practice_unit.
  apply preserves_bind.
  { apply (preserves_outside (eq (passage_key e' i')) _ (reveal_key e i)
             (fun o => revealed_in o = b)); [apply only_writes_getOrGenerateContent|].
    apply passage_reveal_key. }
  intros full_text. destruct (parse_content full_text) as [passage_text answers_text].
  apply preserves_bind; [apply preserves_draw|]. intros _.
  apply preserves_bind; [apply preserves_draw|]. intros _.
  apply preserves_bind; [|intros _; apply after_gate_keeps_flag].
  destruct (decide (reveal_key e' i' = reveal_key e i)) as [Heq|Hne].
  - apply reveal_key_inj in Heq as [-> ->]. intros w Hb.
    fold (isRevealed e i w) in Hb. fold (isRevealed e i (snd (reveal_gate e i clicked w))).
    rewrite reveal_gate_flag, Hb.
    destruct clicked; [|apply orb_false_r].
    rewrite Hclick by reflexivity. reflexivity.
  - apply (preserves_outside (eq (reveal_key e' i')) _ (reveal_key e i)
             (fun o => revealed_in o = b)); [apply only_writes_reveal_gate | exact Hne].
Qed.

Lemma practice_unit_click e i prompt w text :
  fst (getOrGenerateContent e i w) = Ok text ->
  isRevealed e i (snd (practice_unit e i true prompt w)) = true.
Proof.
  intros Hcontent. unfold practice_unit, bind at 1.
  destruct (getOrGenerateContent e i w) as [[full_text|exc] w1]; [|discriminate].
  destruct (parse_content full_text) as [passage_text answers_text].
  unfold bind at 1. cbn [draw]. unfold bind at 1. cbn [draw].
  match goal with |- context [bind (reveal_gate e i true) ?k ?w2] =>
    set (rest := k); set (w0 := w2) end.
  unfold bind. pose proof (reveal_gate_flag e i true w0) as Hgate.
  rewrite orb_true_r in Hgate.
  destruct (reveal_gate e i true w0) as [[[]|exc] w3]; cbn [snd] in *; [|exact Hgate].
  apply (after_gate_keeps_flag e i true e i answers_text prompt w3 Hgate).
Qed.

(** C7 (reveal monotonicity).  Through any runs of any units, the flag of the
    unit of [e] at [i] stays unset as long as no run clicks that unit's reveal
    button, a unit created by a run without click has its flag stored as
    [False], a click on the button of a unit whose content is available sets
    the flag, and a set flag stays set whatever runs follow. *)
Theorem reveal_monotone e i w (evs : list Interaction) :
  (isRevealed e i w = false -> Forall (fun ev => reveals e i ev = false) evs ->
     isRevealed e i (session_run evs w) = false)
  /\ (forall prompt text,
        session_state w !! reveal_key e i = None ->
        fst (getOrGenerateContent e i w) = Ok text ->
        session_state (snd (practice_unit e i false prompt w)) !! reveal_key e i
        = Some (VBool false))
  /\ (forall prompt text,
        fst (getOrGenerateContent e i w) = Ok text ->
        isRevealed e i (snd (practice_unit e i true prompt w)) = true)
  /\ (isRevealed e i w = true -> isRevealed e i (session_run evs w) = true).
Proof.
  split; [|split; [|split]].
  - intros Hw Hevs.
    apply (session_run_preserves (fun st => revealed_in (st !! reveal_key e i) = false));
      [|exact Hw].
    apply Forall_forall. intros ev Hev. rewrite Forall_forall in Hevs.
    specialize (Hevs ev Hev). unfold interact. apply practice_unit_flag.
    intros Hc He Hi. unfold reveals in Hevs. rewrite Hc in Hevs.
    rewrite bool_decide_eq_true_2 in Hevs by (split; assumption). discriminate.
  - intros prompt text Hnone Hcontent. unfold practice_unit, bind at 1.
    pose proof (only_writes_getOrGenerateContent e i w (reveal_key e i)) as Hframe.
    destruct (getOrGenerateContent e i w) as [[full_text|exc] w1]; [|discriminate].
    cbn [snd] in Hframe. rewrite <- Hframe in Hnone
      by (intros H; revert H; apply passage_reveal_key).
    destruct (parse_content full_text) as [passage_text answers_text].
    unfold bind at 1. cbn [draw]. unfold bind at 1. cbn [draw].
    match goal with |- context [bind (reveal_gate e i false) ?k ?w2] =>
      set (rest := k); set (w0 := w2) end.
    pose proof (reveal_gate_creates e i w0 Hnone) as Hgate.
    unfold bind. destruct (reveal_gate e i false w0) as [[[]|exc] w3]; cbn [snd] in *;
      [|exact Hgate].
    assert (Hkeep : preserves (fun st => st !! reveal_key e i = Some (VBool false))
                              (rest tt)).
    { subst rest. cbv beta.
      apply preserves_bind; [apply preserves_read_revealed|]. intros revealed.
      apply preserves_bind.
      { destruct revealed; [|apply preserves_ret].
        apply preserves_bind; [apply preserves_draw | intros _; apply preserves_draw]. }
      intros _. apply preserves_bind; [apply preserves_draw|]. intros _.
      apply preserves_bind; [apply preserves_draw|]. intros _.
      apply (preserves_outside (eq (chat_key e i)) _ (reveal_key e i)
               (fun o => o = Some (VBool false))); [apply only_writes_chat|].
      intros H. symmetry in H. revert H. apply reveal_chat_key. }
    apply Hkeep, Hgate.
  - intros prompt text. apply practice_unit_click.
  - intros Hw.
    apply (session_run_preserves (fun st => revealed_in (st !! reveal_key e i) = true));
      [|exact Hw].
    apply Forall_forall. intros ev _. unfold interact. apply practice_unit_flag.
    reflexivity.
Qed.

End Reveal.

(** ** The chat: a user turn, then the assistant's *)

Section Chat.

Context `{G : Generator}.

Implicit Types (w : World) (e : string) (i : nat) (entries : list Msg).

Lemma last_n_suffix {A} n (l : list A) :
  l = firstn (List.length l - n) l ++ last_n n l
  /\ List.length (last_n n l) = Nat.min n (List.length l).
Proof.
  unfold last_n. split; [symmetry; apply firstn_skipn|].
  rewrite length_skipn. lia.
Qed.

Lemma last_n_snoc {A} n (l : list A) (x : A) :
  exists middle, last_n (S n) (l ++ [x]) = middle ++ [x].
Proof.
  unfold last_n. rewrite length_app. simpl.
  replace (List.length l + 1 - S n) with (List.length l - n) by lia.
  rewrite skipn_app.
  replace (List.length l - n - List.length l) with 0 by lia.
  exists (skipn (List.length l - n) l). reflexivity.
Qed.

Lemma appendUserTurn_spec e i w entries prompt :
  session_state w !! chat_key e i = Some (VList entries) ->
  appendUserTurn e i prompt w =
  (Ok tt, with_session (<[chat_key e i := VList (entries ++ [user_turn prompt])]>
                          (session_state w)) w).
Proof.
  intros Hchat. unfold appendUserTurn, session_append, bind, session_get.
  rewrite Hchat. reflexivity.
Qed.

Lemma requestAssistantTurn_spec e i w text entries :
  session_state w !! passage_key e i = Some (VStr text) ->
  session_state w !! chat_key e i = Some (VList entries) ->
  requestAssistantTurn e i w =
  let asked := {| session_state := session_state w;
                  requests := requests w ++ [(e, Some (full_context text entries))];
                  screen := screen w |} in
  match chat_completions (List.length (requests w))
          (messages_for e (Some (full_context text entries))) with
  | inl reply =>
      (Ok reply,
       with_session (<[chat_key e i := VList (entries ++ [assistant_turn reply])]>
                       (session_state w)) asked)
  | inr msg => (Raise (PyException msg), asked)
  end.
Proof.
  intros Hpassage Hchat.
  unfold requestAssistantTurn, bind, session_get, generate_cars_content.
  rewrite Hpassage, Hchat. fold (full_context text entries).
  destruct (chat_completions _ _) as [reply|msg]; [|reflexivity].
  unfold session_append, bind, session_get. cbn [session_state].
  rewrite Hchat. reflexivity.
Qed.

Lemma draw_entries entries w :
  for_each entries (fun msg => draw (ChatMessage (role msg) (content msg))) w =
  (Ok tt, {| session_state := session_state w; requests := requests w;
             screen := screen w ++ map (fun msg => ChatMessage (role msg) (content msg))
                                       entries |}).
Proof.
  revert w. induction entries as [|msg entries IH]; intros w; simpl.
  - rewrite app_nil_r. destruct w; reflexivity.
  - unfold bind. cbn [draw]. rewrite IH. cbn [session_state requests screen].
    rewrite <- app_assoc. reflexivity.
Qed.

(** The chat block up to the point where a submitted prompt is handled. *)
Lemma chat_submit e i w entries c prompt :
  session_state w !! chat_key e i = Some (VList entries) ->
  chat e i (Some (String c prompt)) w =
  (appendUserTurn e i (String c prompt) ;;;
   try_except (reply <- requestAssistantTurn e i ;; raise RerunException)
              (fun e => draw (StError ("GPT failed: " +:+ e))))%script
    {| session_state := session_state w; requests := requests w;
       screen := screen w ++ map (fun msg => ChatMessage (role msg) (content msg)) entries |}.
Proof.
  intros Hchat. unfold chat.
  unfold bind at 1, contains_key.
  rewrite bool_decide_eq_true_2 by (eexists; exact Hchat).
  unfold bind at 1, ret. unfold bind at 1, session_get. rewrite Hchat.
  unfold bind at 1. rewrite draw_entries. reflexivity.
Qed.

(** The chat block on a submitted prompt, in full. *)
Lemma chat_submit_outcome e i w text entries c rest :
  session_state w !! passage_key e i = Some (VStr text) ->
  session_state w !! chat_key e i = Some (VList entries) ->
  let prompt := String c rest in
  let sent := full_context text (entries ++ [user_turn prompt]) in
  let drawn := screen w ++ map (fun msg => ChatMessage (role msg) (content msg)) entries in
  let asked := <[chat_key e i := VList (entries ++ [user_turn prompt])]> (session_state w) in
  chat e i (Some prompt) w =
  match chat_completions (List.length (requests w)) (messages_for e (Some sent)) with
  | inl reply =>
      (Raise RerunException,
       {| session_state :=
            <[chat_key e i := VList ((entries ++ [user_turn prompt]) ++ [assistant_turn reply])]>
              asked;
          requests := requests w ++ [(e, Some sent)];
          screen := drawn |})
  | inr msg =>
      (Ok tt,
       {| session_state := asked;
          requests := requests w ++ [(e, Some sent)];
          screen := drawn ++ [StError ("GPT failed: " +:+ msg)] |})
  end.
Proof.
  intros Hpassage Hchat prompt sent drawn asked. subst prompt.
  rewrite (chat_submit e i w entries c rest Hchat). fold drawn.
  match goal with |- context [bind _ _ ?w1] => set (w0 := w1) end.
  assert (Hw0 : session_state w0 !! chat_key e i = Some (VList entries)) by exact Hchat.
  unfold bind at 1. rewrite (appendUserTurn_spec e i w0 entries (String c rest) Hw0).
  subst w0. cbn [with_session session_state requests screen]. fold asked.
  unfold try_except, bind.
  rewrite (requestAssistantTurn_spec e i _ text (entries ++ [user_turn (String c rest)])).
  - cbv zeta. cbn [with_session session_state requests screen]. fold sent.
    destruct (chat_completions _ _) as [reply|msg]; reflexivity.
  - unfold with_session. cbn [session_state]. subst asked.
    rewrite lookup_insert_ne; [exact Hpassage|].
    intros H. symmetry in H. revert H. apply passage_chat_key.
  - unfold with_session. cbn [session_state]. subst asked. apply lookup_insert_eq.
Qed.

(** A turn that raises has written nothing to the session. *)
Lemma requestAssistantTurn_raise e i w exc :
  fst (requestAssistantTurn e i w) = Raise exc ->
  session_state (snd (requestAssistantTurn e i w)) = session_state w.
Proof.
  unfold requestAssistantTurn, bind, session_get.
  destruct (session_state w !! passage_key e i) as [cached|]; [|reflexivity].
  destruct (session_state w !! chat_key e i) as [transcript|] eqn:Hchat; [|reflexivity].
  destruct cached, transcript; try reflexivity.
  unfold generate_cars_content.
  destruct (chat_completions _ _) as [reply|msg]; [|reflexivity].
  unfold session_append, bind, session_get. cbn [session_state]. rewrite Hchat.
  discriminate.
Qed.

(** C4 (append on success only).  A prompt is handled by appending the user
    turn first; when the generator then fails, the assistant turn raises and
    leaves the session as the user turn left it, the chat block reports the
    failure on the screen and ends normally, and the transcript is the former
    one with the user turn as its last entry. *)
Theorem failed_turn_not_recorded e i w text entries c rest msg :
  session_state w !! passage_key e i = Some (VStr text) ->
  session_state w !! chat_key e i = Some (VList entries) ->
  chat_completions (List.length (requests w))
    (messages_for e (Some (full_context text (entries ++ [user_turn (String c rest)]))))
  = inr msg ->
  let prompt := String c rest in
  let asked := snd (appendUserTurn e i prompt w) in
  let failed := requestAssistantTurn e i asked in
  let handled := chat e i (Some prompt) w in
  transcript_of e i asked = Some (VList (entries ++ [user_turn prompt]))
  /\ fst failed = Raise (PyException msg)
  /\ session_state (snd failed) = session_state asked
  /\ fst handled = Ok tt
  /\ session_state (snd handled) = session_state asked
  /\ transcript_of e i (snd handled) = Some (VList (entries ++ [user_turn prompt]))
  /\ List.last (screen (snd handled)) (Markdown "") = StError ("GPT failed: " +:+ msg).
Proof.
  intros Hpassage Hchat Hfail prompt. subst prompt. intros asked failed handled.
  assert (Hasked : transcript_of e i asked = Some (VList (entries ++ [user_turn (String c rest)]))).
  { subst asked. rewrite (appendUserTurn_spec e i w entries (String c rest) Hchat).
    unfold transcript_of. cbn [snd with_session session_state]. apply lookup_insert_eq. }
  assert (Hpassage' : session_state asked !! passage_key e i = Some (VStr text)).
  { subst asked. rewrite (appendUserTurn_spec e i w entries (String c rest) Hchat).
    cbn [snd with_session session_state]. rewrite lookup_insert_ne; [exact Hpassage|].
    intros H. symmetry in H. revert H. apply passage_chat_key. }
  assert (Hrequests : requests asked = requests w).
  { subst asked. rewrite (appendUserTurn_spec e i w entries (String c rest) Hchat). reflexivity. }
  assert (Hfailed : fst failed = Raise (PyException msg)).
  { subst failed. rewrite (requestAssistantTurn_spec e i asked text _ Hpassage' Hasked).
    cbv zeta. rewrite Hrequests, Hfail. reflexivity. }
  split; [exact Hasked|]. split; [exact Hfailed|].
  split; [apply (requestAssistantTurn_raise e i asked _ Hfailed)|].
  assert (Hst : session_state asked =
                <[chat_key e i := VList (entries ++ [user_turn (String c rest)])]> (session_state w)).
  { subst asked. rewrite (appendUserTurn_spec e i w entries (String c rest) Hchat). reflexivity. }
  subst handled. rewrite (chat_submit_outcome e i w text entries c rest Hpassage Hchat).
  cbv zeta. rewrite Hfail. cbn [fst snd session_state screen].
  split; [reflexivity|]. split; [symmetry; exact Hst|]. split.
  - unfold transcript_of. cbn [session_state]. apply lookup_insert_eq.
  - apply last_last.
Qed.

(** C9 (history of an assistant turn).  An assistant turn asks the generator
    once, for the unit's error type, with the stored passage as one assistant
    entry followed by the last five entries of the transcript (all of them
    when there are fewer); a reply is appended to the transcript as an
    assistant entry and is the turn's result.  In the chat block the user turn
    of the submitted prompt is appended first, so it is the last entry of the
    history sent, and after a reply the transcript ends with the user turn
    and the reply, and the script asks for a rerun. *)
Theorem assistant_turn_history e i w text entries :
  session_state w !! passage_key e i = Some (VStr text) ->
  session_state w !! chat_key e i = Some (VList entries) ->
  let history := [assistant_turn text] ++ last_n 5 entries in
  let turn := requestAssistantTurn e i w in
  requests (snd turn) = requests w ++ [(e, Some history)]
  /\ entries = firstn (List.length entries - 5) entries ++ last_n 5 entries
  /\ List.length (last_n 5 entries) = Nat.min 5 (List.length entries)
  /\ (forall reply,
        chat_completions (List.length (requests w)) (messages_for e (Some history))
        = inl reply ->
        fst turn = Ok reply
        /\ session_state (snd turn) =
             <[chat_key e i := VList (entries ++ [assistant_turn reply])]> (session_state w))
  /\ (forall c rest,
        let prompt := String c rest in
        let sent := [assistant_turn text] ++ last_n 5 (entries ++ [user_turn prompt]) in
        let handled := chat e i (Some prompt) w in
        requests (snd handled) = requests w ++ [(e, Some sent)]
        /\ (exists middle, sent = assistant_turn text :: middle ++ [user_turn prompt])
        /\ forall reply,
             chat_completions (List.length (requests w)) (messages_for e (Some sent))
             = inl reply ->
             fst handled = Raise RerunException
             /\ transcript_of e i (snd handled) =
                  Some (VList (entries ++ [user_turn prompt; assistant_turn reply]))).
Proof.
  intros Hpassage Hchat history turn.
  subst turn. rewrite (requestAssistantTurn_spec e i w text entries Hpassage Hchat).
  cbv zeta. change history with (full_context text entries).
  split; [destruct (chat_completions _ _); reflexivity|].
  split; [apply last_n_suffix|]. split; [apply last_n_suffix|]. split.
  { intros reply Hreply. rewrite Hreply. split; reflexivity. }
  intros c rest.
  rewrite (chat_submit_outcome e i w text entries c rest Hpassage Hchat).
  cbv zeta. fold (full_context text (entries ++ [user_turn (String c rest)])).
  split; [|split].
  - destruct (chat_completions _ _); reflexivity.
  - destruct (last_n_snoc 4 entries (user_turn (String c rest))) as [middle Hmiddle].
    exists middle. unfold full_context. rewrite Hmiddle. reflexivity.
  - intros reply Hreply. rewrite Hreply. cbn [fst snd]. split; [reflexivity|].
    unfold transcript_of. cbn [session_state].
    rewrite lookup_insert_eq, <- app_assoc. reflexivity.
Qed.

End Chat.

(** ** Parsing the generated content *)

Lemma marker_border_free : border_free marker = true.
Proof. vm_compute. reflexivity. Qed.

Lemma marker_not_empty : marker <> "".
Proof. discriminate. Qed.

(** With the marker in the text, the passage is what precedes its first
    occurrence and the answers are the piece that follows it, up to the next
    occurrence when there is one. *)
Lemma parse_content_at_marker (before after : string) :
  Py.contains marker before = false ->
  parse_content (before +:+ marker +:+ after) =
  (Py.strip before, Py.strip (nth 0 (Py.split marker after) "")).
Proof.
  intros Hbefore. unfold parse_content.
  rewrite (split_first marker before after marker_border_free marker_not_empty Hbefore).
  pose proof (split_not_nil marker after) as Hparts.
  destruct (Py.split marker after) as [|answers parts]; [congruence|]. reflexivity.
Qed.

(** C6 (parsing contract, amended).  A text without the marker parses, without
    failure, to its trimmed whole as the passage and the fixed sentinel as the
    answers.  A text with the marker parses to the trimmed text before the
    first marker and the trimmed text after it, the latter taken up to the
    next marker when the marker occurs again: with one marker these are the
    text before and the text after the marker.  [split] always yields a first
    piece, so the passage is always there. *)
Theorem parse_content_contract (full_text before after rest : string) :
  (Py.contains marker full_text = false ->
     parse_content full_text = (Py.strip full_text, answers_unavailable))
  /\ (Py.contains marker before = false -> Py.contains marker after = false ->
        parse_content (before +:+ marker +:+ after) = (Py.strip before, Py.strip after)
        /\ parse_content (before +:+ marker +:+ after +:+ marker +:+ rest)
           = (Py.strip before, Py.strip after))
  /\ Py.split marker full_text <> [].
Proof.
  split; [|split].
  - intros Hnone. unfold parse_content. rewrite (split_none _ _ Hnone). reflexivity.
  - intros Hbefore Hafter. rewrite !(parse_content_at_marker _ _ Hbefore).
    rewrite (split_none _ _ Hafter).
    rewrite (split_first marker after rest marker_border_free marker_not_empty Hafter).
    split; reflexivity.
  - apply split_not_nil.
Qed.

Lemma parse_content_contract_witness :
  parse_content "A short passage. " = ("A short passage.", answers_unavailable)
  /\ parse_content (" Passage and questions
" +:+ marker +:+ "
**Question 1** B ")
     = ("Passage and questions", "**Question 1** B")
  /\ parse_content (" Passage and questions
" +:+ marker +:+ "
**Question 1** B " +:+ marker +:+ " **Question 2** C")
     = ("Passage and questions", "**Question 1** B").
Proof.
  pose proof (parse_content_contract "A short passage. " " Passage and questions
" "
**Question 1** B " " **Question 2** C") as (Hnone & Hsplit & _).
  split; [apply Hnone; vm_compute; reflexivity|].
  apply Hsplit; vm_compute; reflexivity.
Defined.

(** With the marker twice in the text, the answers are neither the text after
    the first marker nor the text after the last one, trimmed: the piece
    between the two markers is kept and what follows the second is left out. *)
Lemma parse_content_repeated_marker :
  let before := "P " in
  let after := " A1 " +:+ marker +:+ " A2" in
  Py.contains marker before = false
  /\ parse_content (before +:+ marker +:+ after) = ("P", "A1")
  /\ snd (parse_content (before +:+ marker +:+ after)) <> Py.strip after
  /\ snd (parse_content (before +:+ marker +:+ after)) <> Py.strip " A2".
Proof.
  cbv zeta. split; [vm_compute; reflexivity|]. split; [vm_compute; reflexivity|].
  split; vm_compute; discriminate.
Qed.

(** ** The session theorems at work on concrete sessions *)

Lemma content_generated_once_witness :
  fst (@getOrGenerateContent (canned "P") "Vocabulary" 2 empty_world) = Ok "P"
  /\ @getOrGenerateContent (canned "P") "Vocabulary" 2
       (@session_run (canned "P")
          [ {| unit_type := "Vocabulary"; unit_idx := 2; clicked_reveal := true;
               chat_prompt := Some "why?" |};
            {| unit_type := "Vocabulary"; unit_idx := 1; clicked_reveal := false;
               chat_prompt := None |} ]
          (snd (@getOrGenerateContent (canned "P") "Vocabulary" 2 empty_world)))
     = (Ok "P",
        @session_run (canned "P")
          [ {| unit_type := "Vocabulary"; unit_idx := 2; clicked_reveal := true;
               chat_prompt := Some "why?" |};
            {| unit_type := "Vocabulary"; unit_idx := 1; clicked_reveal := false;
               chat_prompt := None |} ]
          (snd (@getOrGenerateContent (canned "P") "Vocabulary" 2 empty_world))).
Proof.
  destruct (@content_generated_once (canned "P") "Vocabulary" 2 empty_world "P"
              eq_refl eq_refl) as (Hfirst & _ & Hlater).
  split; [exact Hfirst|]. apply Hlater.
Defined.

Lemma reveal_monotone_witness :
  isRevealed "Tone/Attitude" 0
    (@session_run (canned "P")
       [ {| unit_type := "Tone/Attitude"; unit_idx := 0; clicked_reveal := false;
            chat_prompt := Some "why?" |};
         {| unit_type := "Tone/Attitude"; unit_idx := 1; clicked_reveal := true;
            chat_prompt := None |} ]
       (opened (canned "P"))) = false
  /\ isRevealed "Tone/Attitude" 0
       (snd (@practice_unit (canned "P") "Tone/Attitude" 0 true None (opened (canned "P"))))
     = true.
Proof.
  destruct (@reveal_monotone (canned "P") "Tone/Attitude" 0 (opened (canned "P"))
              [ {| unit_type := "Tone/Attitude"; unit_idx := 0; clicked_reveal := false;
                   chat_prompt := Some "why?" |};
                {| unit_type := "Tone/Attitude"; unit_idx := 1; clicked_reveal := true;
                   chat_prompt := None |} ])
    as (Hhidden & _ & Hclick & _).
  split.
  - apply Hhidden; [vm_compute; reflexivity|].
    repeat constructor.
  - apply (Hclick None "P"). vm_compute. reflexivity.
Defined.

Lemma failed_turn_not_recorded_witness :
  transcript_of "Tone/Attitude" 0
    (snd (@chat (flaky "P" "quota") "Tone/Attitude" 0 (Some "why?")
            (opened (flaky "P" "quota"))))
  = Some (VList [user_turn "why?"])
  /\ fst (@chat (flaky "P" "quota") "Tone/Attitude" 0 (Some "why?")
            (opened (flaky "P" "quota"))) = Ok tt.
Proof.
  destruct (@failed_turn_not_recorded (flaky "P" "quota") "Tone/Attitude" 0
              (opened (flaky "P" "quota")) "P" [] "w" "hy?" "quota"
              ltac:(vm_compute; reflexivity) ltac:(vm_compute; reflexivity)
              ltac:(vm_compute; reflexivity))
    as (_ & _ & _ & Hok & _ & Htranscript & _).
  split; [exact Htranscript | exact Hok].
Defined.

Lemma assistant_turn_history_witness :
  requests (snd (@requestAssistantTurn (canned "P") "Tone/Attitude" 0 (opened (canned "P"))))
  = requests (opened (canned "P")) ++ [("Tone/Attitude", Some [assistant_turn "P"])]
  /\ transcript_of "Tone/Attitude" 0
       (snd (@chat (canned "P") "Tone/Attitude" 0 (Some "why?") (opened (canned "P"))))
     = Some (VList [user_turn "why?"; assistant_turn "P"]).
Proof.
  destruct (@assistant_turn_history (canned "P") "Tone/Attitude" 0 (opened (canned "P"))
              "P" [] ltac:(vm_compute; reflexivity) ltac:(vm_compute; reflexivity))
    as (Hrequests & _ & _ & _ & Hchat).
  split; [exact Hrequests|].
  destruct (Hchat "w"%char "hy?") as (_ & _ & Hreply).
  apply (Hreply "P"). reflexivity.
Defined.

(** ** More on the report *)

Section ReportShape.

Implicit Types (r : Report) (df : DataFrame) (cat : string).

Lemma dd_append_filed patterns r k p :
  In k (map fst patterns) -> Forall (filed patterns) r ->
  Forall (filed patterns) (dd_append r k p).
Proof.
  intros Hk Hr. induction Hr as [|[k0 v0] r Hentry Hr IH]; simpl.
  - constructor; [|constructor]. split; [exact Hk | discriminate].
  - destruct (String.eqb_spec k0 k) as [->|_].
    + constructor; [|exact Hr]. split; [exact Hk|]. simpl. destruct v0; discriminate.
    + constructor; [exact Hentry | exact IH].
Qed.

Lemma match_patterns_filed all patterns text p r :
  incl (map fst patterns) (map fst all) -> Forall (filed all) r ->
  Forall (filed all) (match_patterns patterns text p r).
Proof.
  unfold match_patterns. revert r.
  induction patterns as [|[k kws] patterns IH]; intros r Hincl Hr; simpl; [exact Hr|].
  apply IH.
  - intros x Hx. apply Hincl. right. exact Hx.
  - destruct (Py.any _ kws); [|exact Hr].
    apply dd_append_filed; [|exact Hr]. apply Hincl. left. reflexivity.
Qed.

Lemma analyze_errors_filed df : Forall (filed error_patterns) (analyze_errors df).
Proof.
  unfold analyze_errors.
  assert (H : forall r, Forall (filed error_patterns) r ->
                        Forall (filed error_patterns) (fold_left analyze_row df r)).
  { induction df as [|row df IH]; intros r Hr; [exact Hr|].
    cbn [fold_left]. apply IH. unfold analyze_row.
    destruct (isna _); [exact Hr|].
    apply match_patterns_filed; [apply incl_refl | exact Hr]. }
  apply H. constructor.
Qed.

Lemma keys_prefix_dd_append r k p : map fst r `prefix_of` map fst (dd_append r k p).
Proof.
  rewrite keys_dd_append. destruct (existsb _ _); [reflexivity|].
  exists [k]. reflexivity.
Qed.

Lemma keys_prefix_match_patterns patterns text p r :
  map fst r `prefix_of` map fst (match_patterns patterns text p r).
Proof.
  unfold match_patterns. revert r.
  induction patterns as [|[k kws] patterns IH]; intros r; simpl; [reflexivity|].
  etransitivity; [|apply IH].
  destruct (Py.any _ kws); [apply keys_prefix_dd_append | reflexivity].
Qed.

Lemma keys_prefix_fold df r :
  map fst r `prefix_of` map fst (fold_left analyze_row df r).
Proof.
  revert r. induction df as [|row df IH]; intros r; [reflexivity|].
  cbn [fold_left]. etransitivity; [|apply IH].
  unfold analyze_row. destruct (isna _); [reflexivity | apply keys_prefix_match_patterns].
Qed.

End ReportShape.

(** The entries of the report: what each key is and holds. *)
Lemma analyze_errors_entries (df : DataFrame) :
  Forall (fun entry =>
            In (fst entry) (map fst error_patterns)
            /\ snd entry <> []
            /\ snd entry = map Passage_Title (List.filter (triggers (fst entry)) df))
         (analyze_errors df).
Proof.
  pose proof (analyze_errors_filed df) as Hfiled.
  rewrite Forall_forall in Hfiled |- *. intros [cat seq] Hentry.
  destruct (Hfiled _ Hentry) as [Hcat Hseq]. split; [exact Hcat|]. split; [exact Hseq|].
  cbn [fst snd]. rewrite <- analyze_errors_matched. symmetry.
  apply in_report_matched; [apply analyze_errors_keys_unique|].
  apply list_elem_of_In, Hentry.
Qed.

Lemma no_trigger_empty_report (df : DataFrame) :
  (forall row cat, In row df -> In cat (map fst error_patterns) -> triggers cat row = false) ->
  analyze_errors df = [].
Proof.
  intros Hnone. pose proof (analyze_errors_entries df) as Hshape.
  destruct (analyze_errors df) as [|[cat seq] r]; [reflexivity|].
  apply Forall_inv in Hshape as (Hcat & Hseq & Heq). cbn [fst snd] in *.
  exfalso. apply Hseq. rewrite Heq.
  replace (List.filter (triggers cat) df) with (@nil Row); [reflexivity|].
  symmetry. clear Heq. induction df as [|row df IH]; [reflexivity|].
  cbn [List.filter]. rewrite (Hnone row cat (or_introl eq_refl) Hcat).
  apply IH. intros row' cat' Hrow'. apply Hnone. right. exact Hrow'.
Qed.

(** X1 (shape of the report).  Whatever the dataset, the keys of the report
    are pairwise distinct categories of the catalog, no key has an empty
    sequence, and the sequence of a key is the titles, in row order, of the
    rows that trigger the category. *)
Theorem report_well_formed (df : DataFrame) :
  NoDup (map fst (analyze_errors df))
  /\ Forall (fun entry =>
               In (fst entry) (map fst error_patterns)
               /\ snd entry <> []
               /\ snd entry = map Passage_Title (List.filter (triggers (fst entry)) df))
            (analyze_errors df).
Proof.
  split.
  - apply analyze_errors_keys_unique.
  - apply analyze_errors_entries.
Qed.

(** X2 (empty report).  The report is empty exactly when no row of the
    dataset triggers a category of the catalog. *)
Theorem report_empty_iff (df : DataFrame) :
  analyze_errors df = []
  <-> forall row cat, In row df -> In cat (map fst error_patterns) -> triggers cat row = false.
Proof.
  split.
  - intros Hempty row cat Hrow _.
    pose proof (analyze_errors_matched df cat) as Hm. rewrite Hempty in Hm.
    apply not_true_is_false. intros Htrig.
    assert (Hin : In row (List.filter (triggers cat) df)) by (apply filter_In; auto).
    apply (in_map Passage_Title) in Hin. rewrite <- Hm in Hin. destruct Hin.
  - apply no_trigger_empty_report.
Qed.

Lemma report_empty_iff_witness :
  analyze_errors
    [ {| Passage_Title := Str "P1"; Why_I_Got_It_Wrong := Str "Ran out of time" |} ] = [].
Proof.
  apply (proj2 (report_empty_iff _)). intros row cat [<-|[]] Hcat.
  simpl in Hcat.
  repeat (destruct Hcat as [<-|Hcat]; [vm_compute; reflexivity|]). destruct Hcat.
Defined.

(** X3 (rows are classified one by one, in order).  The sequence of a
    category in the report of two datasets put end to end is the sequence for
    the first followed by the sequence for the second, and the categories of
    the first dataset's report keep their places at the front of the keys. *)
Theorem classification_appends (df1 df2 : DataFrame) (cat : string) :
  matched (analyze_errors (df1 ++ df2)) cat =
    matched (analyze_errors df1) cat ++ matched (analyze_errors df2) cat
  /\ map fst (analyze_errors df1) `prefix_of` map fst (analyze_errors (df1 ++ df2)).
Proof.
  split.
  - rewrite !analyze_errors_matched, List.filter_app, map_app. reflexivity.
  - unfold analyze_errors. rewrite fold_left_app. apply keys_prefix_fold.
Qed.

Lemma lower_char_idempotent (c : ascii) : Py.lower_char (Py.lower_char c) = Py.lower_char c.
Proof. destruct c as [[] [] [] [] [] [] [] []]; reflexivity. Qed.

Lemma lower_idempotent (s : string) : Py.lower (Py.lower s) = Py.lower s.
Proof.
  induction s as [|c s IH]; [reflexivity|].
  cbn [Py.lower]. rewrite lower_char_idempotent, IH. reflexivity.
Qed.

Lemma analyze_row_same_up_to_case (r : Report) (row row' : Row) :
  same_up_to_case row row' -> analyze_row r row = analyze_row r row'.
Proof.
  intros [Htitle Hwhy]. unfold analyze_row. rewrite Htitle.
  destruct (Why_I_Got_It_Wrong row) as [|s], (Why_I_Got_It_Wrong row') as [|s'];
    try contradiction; [reflexivity|].
  cbn [isna notna negb str]. rewrite Hwhy. reflexivity.
Qed.

(** X4 (matching ignores case).  Two datasets whose rows agree on the titles
    and, up to the case of the letters, on the explanations have the same
    report; in particular lower-casing every explanation changes nothing. *)
Theorem classification_ignores_case (df df' : DataFrame) :
  Forall2 same_up_to_case df df' ->
  analyze_errors df = analyze_errors df'
  /\ analyze_errors (map lowered df) = analyze_errors df.
Proof.
  assert (Hgen : forall d d', Forall2 same_up_to_case d d' ->
            forall r, fold_left analyze_row d r = fold_left analyze_row d' r).
  { induction 1 as [|row row' d d' Hrow _ IH]; intros r; [reflexivity|].
    cbn [fold_left]. rewrite (analyze_row_same_up_to_case r row row' Hrow). apply IH. }
  intros Hsame. split; [apply Hgen, Hsame|].
  apply Hgen. clear. induction df as [|[p [|s]] df IH]; constructor; try exact IH.
  - split; [reflexivity | exact I].
  - split; [reflexivity|]. apply lower_idempotent.
Qed.

Lemma classification_ignores_case_witness :
  analyze_errors
    [ {| Passage_Title := Str "P1"; Why_I_Got_It_Wrong := Str "MISSED the Tone" |} ]
  = analyze_errors
      [ {| Passage_Title := Str "P1"; Why_I_Got_It_Wrong := Str "missed THE tone" |} ].
Proof.
  refine (proj1 (classification_ignores_case _ _ _)).
  constructor; [|constructor]. split; reflexivity.
Defined.

Lemma analyze_row_nan (r : Report) (row : Row) :
  Why_I_Got_It_Wrong row = NaN -> analyze_row r row = r.
Proof. intros H. unfold analyze_row. rewrite H. reflexivity. Qed.

(** X5 (cleaning does not change the classification).  Dropping the rows
    without explanation and casting the column to text before the analysis
    gives the report the analysis gives on the frame as read. *)
Theorem cleaning_transparent (df : DataFrame) :
  analyze_errors (astype_str (dropna df)) = analyze_errors df.
Proof.
  rewrite astype_str_dropna. unfold analyze_errors, dropna. generalize (@nil (string * list Cell)).
  induction df as [|row df IH]; intros r; [reflexivity|].
  cbn [List.filter fold_left]. unfold notna.
  destruct (Why_I_Got_It_Wrong row) as [|s] eqn:Hwhy; cbn [isna negb].
  - rewrite (analyze_row_nan r row Hwhy). apply IH.
  - cbn [fold_left]. apply IH.
Qed.

(** ** Suggestions, the targeted practice and the ranked categories *)

Lemma dict_get_absent {V} (d : list (string * V)) (key : string) (default : V) :
  ~ In key (map fst d) -> dict_get d key default = default.
Proof.
  induction d as [|[k v] d IH]; simpl; [reflexivity|].
  intros Hnotin. destruct (String.eqb_spec k key) as [->|_]; [tauto|].
  apply IH. tauto.
Qed.

(** X6 (the helper tables cover the catalog).  A pattern gets a suggestion of
    its own, and a drill of its own, exactly when it is a category of the
    catalog; any other pattern gets the fallback suggestion and the empty
    drill. *)
Theorem helper_tables_cover_catalog (pattern : string) :
  (In pattern (map fst error_patterns) <-> get_fix_suggestion pattern <> fix_fallback)
  /\ (In pattern (map fst error_patterns) <-> dict_get samples pattern "" <> "").
Proof.
  split; split.
  - intros Hin. simpl in Hin.
    repeat (destruct Hin as [<-|Hin]; [vm_compute; discriminate|]). destruct Hin.
  - intros Hne. destruct (in_dec string_dec pattern (map fst error_patterns)) as [Hin|Hnotin];
      [exact Hin|].
    destruct Hne. apply dict_get_absent. exact Hnotin.
  - intros Hin. simpl in Hin.
    repeat (destruct Hin as [<-|Hin]; [vm_compute; discriminate|]). destruct Hin.
  - intros Hne. destruct (in_dec string_dec pattern (map fst error_patterns)) as [Hin|Hnotin];
      [exact Hin|].
    destruct Hne. apply dict_get_absent. exact Hnotin.
Qed.

Lemma hd_insert_desc (d x : string * list Cell) (l : Report) :
  hd d (insert_desc x l) =
  match l with
  | [] => x
  | h :: _ => if (sort_key x <? sort_key h)%nat then h else x
  end.
Proof. destruct l as [|h l]; [reflexivity|]. simpl. destruct (_ <? _)%nat; reflexivity. Qed.

(** [max] picks what the stable descending sort puts first. *)
Lemma py_max_sorted (best : string * list Cell) (items : Report) :
  py_max best items = hd best (sorted_desc (best :: items)).
Proof.
  revert best. induction items as [|x items IH]; intros best; [reflexivity|].
  cbn [py_max]. destruct (Nat.ltb_spec (sort_key best) (sort_key x)) as [Hlt|Hge];
    rewrite IH; cbn [sorted_desc fold_right]; fold (sorted_desc items);
    rewrite !hd_insert_desc.
  - destruct (sorted_desc items) as [|h s]; cbn [insert_desc].
    + apply Nat.ltb_lt in Hlt. rewrite Hlt. reflexivity.
    + destruct (Nat.ltb_spec (sort_key x) (sort_key h)) as [Hxh|Hxh].
      * replace (sort_key best <? sort_key h)%nat with true
          by (symmetry; apply Nat.ltb_lt; lia). reflexivity.
      * apply Nat.ltb_lt in Hlt. rewrite Hlt. reflexivity.
  - destruct (sorted_desc items) as [|h s]; cbn [insert_desc].
    + replace (sort_key best <? sort_key x)%nat with false
        by (symmetry; apply Nat.ltb_ge; lia). reflexivity.
    + destruct (Nat.ltb_spec (sort_key x) (sort_key h)) as [Hxh|Hxh].
      * reflexivity.
      * replace (sort_key best <? sort_key x)%nat with false
          by (symmetry; apply Nat.ltb_ge; lia).
        replace (sort_key best <? sort_key h)%nat with false
          by (symmetry; apply Nat.ltb_ge; lia). reflexivity.
Qed.

Lemma sorted_desc_cons_not_nil (x : string * list Cell) (l : Report) :
  sorted_desc (x :: l) <> [].
Proof.
  intros H. pose proof (sorted_desc_perm (x :: l)) as Hperm. rewrite H in Hperm.
  apply Permutation_nil in Hperm. discriminate.
Qed.

(** X7 (the targeted practice names the top of the ranking).  For the empty
    report the generic practice is proposed; otherwise the practice names the
    category the ranking puts first, an entry of the report whose count no
    entry exceeds, with the drill of that category. *)
Theorem sample_question_names_top (error_report : Report) :
  generate_sample_question [] = practice_fallback
  /\ (error_report <> [] ->
      exists top,
        hd_error (top_errors error_report) = Some top
        /\ In top error_report
        /\ Forall (fun entry => sort_key entry <= sort_key top) error_report
        /\ generate_sample_question error_report =
           dict_get samples (fst top) "" +:+ " (Your top error: " +:+ fst top +:+ ")").
Proof.
  split; [reflexivity|]. intros Hne.
  destruct error_report as [|first rest]; [congruence|]. clear Hne.
  exists (py_max first rest). rewrite py_max_sorted.
  pose proof (sorted_desc_cons_not_nil first rest) as Hnil.
  pose proof (sorted_desc_perm (first :: rest)) as Hperm.
  pose proof (sorted_desc_sorted (first :: rest)) as Hsorted.
  unfold top_errors.
  destruct (sorted_desc (first :: rest)) as [|top s] eqn:Hs; [congruence|].
  cbn [hd firstn hd_error]. split; [reflexivity|]. split; [|split].
  - apply (Permutation_in top Hperm). left. reflexivity.
  - inversion Hsorted as [|? ? _ Htop]; subst.
    rewrite <- Hperm. constructor; [lia | exact Htop].
  - cbn [generate_sample_question]. rewrite py_max_sorted, Hs. reflexivity.
Qed.

Lemma sample_question_names_top_witness :
  generate_sample_question
    [ ("Vocabulary", [Str "P1"]); ("Overthinking", [Str "P2"; Str "P3"]);
      ("Tone/Attitude", [Str "P4"; Str "P5"]) ]
  = "Do 5 questions where you must justify each answer with exact passage text. (Your top error: Overthinking)".
Proof.
  destruct (proj2 (sample_question_names_top
                     [ ("Vocabulary", [Str "P1"]); ("Overthinking", [Str "P2"; Str "P3"]);
                       ("Tone/Attitude", [Str "P4"; Str "P5"]) ]) ltac:(discriminate))
    as (top & Htop & _ & _ & Hq).
  vm_compute in Htop. injection Htop as <-. exact Hq.
Defined.

Lemma NoDup_firstn {A} n (l : list A) : NoDup l -> NoDup (firstn n l).
Proof.
  intros Hnd. rewrite <- (firstn_skipn n l) in Hnd.
  apply NoDup_app in Hnd. apply Hnd.
Qed.

Lemma ranked_entries (df : DataFrame) :
  Forall (fun entry =>
            In entry (analyze_errors df)
            /\ In (fst entry) (map fst error_patterns)
            /\ snd entry <> [])
         (top_errors (analyze_errors df)).
Proof.
  pose proof (analyze_errors_entries df) as Hshape.
  pose proof (sorted_desc_perm (analyze_errors df)) as Hperm.
  unfold top_errors. apply Forall_forall. intros entry Hentry.
  assert (Hin : entry ∈ analyze_errors df).
  { rewrite <- Hperm, <- (firstn_skipn 3 (sorted_desc _)). apply elem_of_app. left.
    exact Hentry. }
  rewrite Forall_forall in Hshape. destruct (Hshape entry Hin) as (Hcat & Hseq & _).
  split; [apply list_elem_of_In, Hin|]. split; assumption.
Qed.

(** X8 (the ranked categories).  The categories handed to the practice
    section are pairwise distinct categories of the catalog, each an entry of
    the report with at least one passage, and there are three of them unless
    the report has fewer entries, which are then all kept. *)
Theorem ranked_categories (df : DataFrame) :
  NoDup (map fst (top_errors (analyze_errors df)))
  /\ Forall (fun entry =>
               In entry (analyze_errors df)
               /\ In (fst entry) (map fst error_patterns)
               /\ snd entry <> [])
            (top_errors (analyze_errors df))
  /\ List.length (top_errors (analyze_errors df)) = Nat.min 3 (List.length (analyze_errors df)).
Proof.
  pose proof (sorted_desc_perm (analyze_errors df)) as Hperm.
  split; [|split].
  - unfold top_errors. rewrite <- firstn_map. apply NoDup_firstn.
    rewrite (Permutation_map fst Hperm). apply analyze_errors_keys_unique.
  - apply ranked_entries.
  - unfold top_errors. rewrite length_firstn, (Permutation_length Hperm). reflexivity.
Qed.

(** ** More on the session: keys, frames and requests *)

(** X9 (session keys).  The key of a passage, of a reveal flag and of a
    transcript each determine the error type and the index of their unit,
    whatever characters the error type contains, and keys of different kinds
    never coincide: no two units, and no two fields of a unit, share an entry
    of the session dictionary. *)
Theorem unit_keys_distinct (e e' : string) (i i' : nat) :
  (passage_key e i = passage_key e' i' <-> e = e' /\ i = i')
  /\ (reveal_key e i = reveal_key e' i' <-> e = e' /\ i = i')
  /\ (chat_key e i = chat_key e' i' <-> e = e' /\ i = i')
  /\ passage_key e i <> reveal_key e' i'
  /\ passage_key e i <> chat_key e' i'
  /\ reveal_key e i <> chat_key e' i'.
Proof.
  split; [|split; [|split; [|split; [|split]]]].
  - split; [apply passage_key_inj | intros [-> ->]; reflexivity].
  - split; [apply reveal_key_inj | intros [-> ->]; reflexivity].
  - split; [apply chat_key_inj | intros [-> ->]; reflexivity].
  - apply passage_reveal_key.
  - apply passage_chat_key.
  - apply reveal_chat_key.
Qed.

Example keys_with_underscores :
  passage_key "a_1" 2 = "passage_a_1_2" /\ passage_key "a" 12 = "passage_a_12"
  /\ passage_key "a_1" 2 <> passage_key "a" 12.
Proof. repeat split; try reflexivity. discriminate. Qed.

Section Requests.

Context `{G : Generator}.

Implicit Types (w : World) (e : string) (i : nat) (allowed : string -> Prop).

Lemma asks_weaken {A} allowed n n' (m : M A) : n <= n' -> asks allowed n m -> asks allowed n' m.
Proof.
  intros Hle Hm w. destruct (Hm w) as (new & Hnew & Hlen & Hall).
  exists new. split; [exact Hnew | split; [lia | exact Hall]].
Qed.

Lemma asks_ret {A} allowed (a : A) : asks allowed 0 (ret a).
Proof.
  intros w. exists []. rewrite app_nil_r.
  split; [reflexivity | split; [cbn; lia | constructor]].
Qed.

Lemma asks_raise {A} allowed (exc : Exc) : asks allowed 0 (raise (A := A) exc).
Proof.
  intros w. exists []. rewrite app_nil_r.
  split; [reflexivity | split; [cbn; lia | constructor]].
Qed.

Lemma asks_bind {A B} allowed n k (m : M A) (f : A -> M B) :
  asks allowed n m -> (forall a, asks allowed k (f a)) -> asks allowed (n + k) (bind m f).
Proof.
  intros Hm Hf w. unfold bind.
  destruct (Hm w) as (new & Hnew & Hlen & Hall).
  destruct (m w) as [[a|exc] w1]; cbn [snd] in *.
  - destruct (Hf a w1) as (new' & Hnew' & Hlen' & Hall').
    exists (new ++ new'). rewrite Hnew', Hnew, <- app_assoc, length_app.
    split; [reflexivity | split; [lia | apply Forall_app; split; assumption]].
  - exists new. split; [exact Hnew | split; [lia | exact Hall]].
Qed.

Lemma asks_try_except {A} allowed n k (body : M A) (handler : string -> M A) :
  asks allowed n body -> (forall msg, asks allowed k (handler msg)) ->
  asks allowed (n + k) (try_except body handler).
Proof.
  intros Hb Hh w. unfold try_except.
  destruct (Hb w) as (new & Hnew & Hlen & Hall).
  destruct (body w) as [[a|[msg|]] w1]; cbn [snd] in *;
    try (exists new; split; [exact Hnew | split; [lia | exact Hall]]).
  destruct (Hh msg w1) as (new' & Hnew' & Hlen' & Hall').
  exists (new ++ new'). rewrite Hnew', Hnew, <- app_assoc, length_app.
  split; [reflexivity | split; [lia | apply Forall_app; split; assumption]].
Qed.

Lemma asks_silent {A} allowed (m : M A) :
  (forall w, requests (snd (m w)) = requests w) -> asks allowed 0 m.
Proof.
  intros Hm w. exists []. rewrite app_nil_r, Hm.
  split; [reflexivity | split; [cbn; lia | constructor]].
Qed.

Lemma asks_contains_key allowed k : asks allowed 0 (contains_key k).
Proof. apply asks_silent. reflexivity. Qed.

Lemma asks_session_get allowed k : asks allowed 0 (session_get k).
Proof.
  apply asks_silent. intros w. unfold session_get. destruct (_ !! _); reflexivity.
Qed.

Lemma asks_session_set allowed k v : asks allowed 0 (session_set k v).
Proof. apply asks_silent. reflexivity. Qed.

Lemma asks_draw allowed u : asks allowed 0 (draw u).
Proof. apply asks_silent. reflexivity. Qed.

Lemma asks_session_append allowed k msg : asks allowed 0 (session_append k msg).
Proof.
  unfold session_append. apply (asks_bind allowed 0 0); [apply asks_session_get|].
  intros [s|b|l]; (apply asks_raise || apply asks_session_set).
Qed.

Lemma asks_for_each {A} allowed (l : list A) (body : A -> M unit) :
  (forall a, asks allowed 0 (body a)) -> asks allowed 0 (for_each l body).
Proof.
  intros Hbody. induction l as [|a l IH]; simpl; [apply asks_ret|].
  apply (asks_bind allowed 0 0); [apply Hbody | intros _; exact IH].
Qed.

Lemma asks_generate allowed e history :
  allowed e -> asks allowed 1 (generate_cars_content e history).
Proof.
  intros He w. exists [(e, history)]. unfold generate_cars_content.
  destruct (chat_completions _ _); cbn [snd requests];
    (split; [reflexivity | split; [cbn; lia | constructor; [exact He | constructor]]]).
Qed.

Lemma asks_getOrGenerateContent allowed e i :
  allowed e -> asks allowed 1 (getOrGenerateContent e i).
Proof.
  intros He. unfold getOrGenerateContent.
  apply (asks_bind allowed 0 1); [apply asks_contains_key|]. intros cached.
  apply (asks_bind allowed 1 0).
  - destruct cached; [apply (asks_weaken allowed 0); [lia | apply asks_ret]|].
    apply (asks_bind allowed 1 0); [apply asks_generate, He|].
    intros content. apply asks_session_set.
  - intros _. apply (asks_bind allowed 0 0); [apply asks_session_get|].
    intros [s|b|l]; (apply asks_ret || apply asks_raise).
Qed.

Lemma asks_reveal_gate allowed e i clicked : asks allowed 0 (reveal_gate e i clicked).
Proof.
  unfold reveal_gate.
  apply (asks_bind allowed 0 0); [apply asks_contains_key|]. intros present.
  apply (asks_bind allowed 0 0).
  - destruct present; [apply asks_ret | apply asks_session_set].
  - intros _. apply (asks_bind allowed 0 0); [apply asks_session_get|].
    intros flag. destruct (negb (truthy flag)), clicked;
      (apply asks_ret || apply asks_session_set).
Qed.

Lemma asks_read_revealed allowed e i : asks allowed 0 (read_revealed e i).
Proof.
  unfold read_revealed. apply (asks_bind allowed 0 0); [apply asks_session_get|].
  intros flag. apply asks_ret.
Qed.

Lemma asks_requestAssistantTurn allowed e i :
  allowed e -> asks allowed 1 (requestAssistantTurn e i).
Proof.
  intros He. unfold requestAssistantTurn.
  apply (asks_bind allowed 0 1); [apply asks_session_get|]. intros cached.
  apply (asks_bind allowed 0 1); [apply asks_session_get|]. intros transcript.
  destruct cached, transcript;
    try (apply (asks_weaken allowed 0); [lia | apply asks_raise]).
  apply (asks_bind allowed 1 0); [apply asks_generate, He|]. intros reply.
  apply (asks_bind allowed 0 0); [apply asks_session_append|]. intros _.
  apply asks_ret.
Qed.

Lemma asks_chat allowed e i prompt : allowed e -> asks allowed 1 (chat e i prompt).
Proof.
  intros He. unfold chat.
  apply (asks_bind allowed 0 1); [apply asks_contains_key|]. intros present.
  apply (asks_bind allowed 0 1).
  { destruct present; [apply asks_ret | apply asks_session_set]. }
  intros _. apply (asks_bind allowed 0 1); [apply asks_session_get|]. intros transcript.
  apply (asks_bind allowed 0 1).
  { destruct transcript; try apply asks_raise.
    apply asks_for_each. intros msg. apply asks_draw. }
  intros _. destruct prompt as [[|c text]|];
    try (apply (asks_weaken allowed 0); [lia | apply asks_ret]).
  apply (asks_bind allowed 0 1); [apply asks_session_append|]. intros _.
  apply (asks_try_except allowed 1 0).
  - apply (asks_bind allowed 1 0); [apply asks_requestAssistantTurn, He|].
    intros reply. apply asks_raise.
  - intros msg. apply asks_draw.
Qed.

Lemma asks_practice_unit allowed e i clicked prompt :
  allowed e -> asks allowed 2 (practice_unit e i clicked prompt).
Proof.
  intros He. unfold practice_unit.
  apply (asks_bind allowed 1 1); [apply asks_getOrGenerateContent, He|].
  intros full_text. destruct (parse_content full_text) as [passage_text answers_text].
  apply (asks_bind allowed 0 1); [apply asks_draw|]. intros _.
  apply (asks_bind allowed 0 1); [apply asks_draw|]. intros _.
  apply (asks_bind allowed 0 1); [apply asks_reveal_gate|]. intros _.
  apply (asks_bind allowed 0 1); [apply asks_read_revealed|]. intros revealed.
  apply (asks_bind allowed 0 1).
  { destruct revealed; [|apply asks_ret].
    apply (asks_bind allowed 0 0); [apply asks_draw | intros _; apply asks_draw]. }
  intros _. apply (asks_bind allowed 0 1); [apply asks_draw|]. intros _.
  apply (asks_bind allowed 0 1); [apply asks_draw|]. intros _.
  apply asks_chat, He.
Qed.

Lemma only_writes_practice_unit e i clicked prompt :
  only_writes (fun k => k = passage_key e i \/ k = reveal_key e i \/ k = chat_key e i)
              (practice_unit e i clicked prompt).
Proof.
  unfold practice_unit.
  apply only_writes_bind.
  { apply (only_writes_weaken (eq (passage_key e i)));
      [intros k <-; tauto | apply only_writes_getOrGenerateContent]. }
  intros full_text. destruct (parse_content full_text) as [passage_text answers_text].
  apply only_writes_bind; [apply only_writes_draw|]. intros _.
  apply only_writes_bind; [apply only_writes_draw|]. intros _.
  apply only_writes_bind.
  { apply (only_writes_weaken (eq (reveal_key e i)));
      [intros k <-; tauto | apply only_writes_reveal_gate]. }
  intros _. apply only_writes_bind; [apply only_writes_read_revealed|]. intros revealed.
  apply only_writes_bind.
  { destruct revealed; [|apply only_writes_ret].
    apply only_writes_bind; [apply only_writes_draw | intros _; apply only_writes_draw]. }
  intros _. apply only_writes_bind; [apply only_writes_draw|]. intros _.
  apply only_writes_bind; [apply only_writes_draw|]. intros _.
  apply (only_writes_weaken (eq (chat_key e i)));
    [intros k <-; tauto | apply only_writes_chat].
Qed.

(** X10 (a unit keeps to itself).  A run of a unit, whatever the click, the
    prompt and the generator's answers, and however it ends, leaves the
    passage, the flag and the transcript of every other unit as they were; it
    makes at most two requests to the generator, both for its own error type,
    and keeps the requests made before. *)
Theorem unit_run_frame e i clicked prompt w :
  let after := snd (practice_unit e i clicked prompt w) in
  (forall e' i', ~ (e' = e /\ i' = i) ->
     session_state after !! passage_key e' i' = session_state w !! passage_key e' i'
     /\ session_state after !! reveal_key e' i' = session_state w !! reveal_key e' i'
     /\ session_state after !! chat_key e' i' = session_state w !! chat_key e' i')
  /\ exists new,
       requests after = requests w ++ new
       /\ List.length new <= 2
       /\ Forall (fun request => fst request = e) new.
Proof.
  cbv zeta. split.
  - intros e' i' Hother.
    pose proof (passage_key_inj e' i' e i) as Hp.
    pose proof (reveal_key_inj e' i' e i) as Hr.
    pose proof (chat_key_inj e' i' e i) as Hc.
    pose proof (passage_reveal_key e' i' e i) as Hpr.
    pose proof (passage_chat_key e' i' e i) as Hpc.
    pose proof (reveal_chat_key e' i' e i) as Hrc.
    pose proof (passage_reveal_key e i e' i') as Hpr'.
    pose proof (passage_chat_key e i e' i') as Hpc'.
    pose proof (reveal_chat_key e i e' i') as Hrc'.
    repeat split; apply (only_writes_practice_unit e i clicked prompt w);
      intros [Hk|[Hk|Hk]]; try tauto; congruence.
  - apply (asks_practice_unit (fun e' => e' = e) e i clicked prompt eq_refl w).
Qed.

End Requests.

(** ** Runs of a unit: what is kept, what is drawn, how they end *)

Section UnitRuns.

Context `{G : Generator}.

Implicit Types (w : World) (e : string) (i : nat) (J : gmap string SVal -> Prop).

Lemma preserves_unchanged {A} J (m : M A) :
  (forall w, session_state (snd (m w)) = session_state w) -> preserves J m.
Proof. intros Hm w HJ. rewrite Hm. exact HJ. Qed.

Lemma preserves_contains_key J k : preserves J (contains_key k).
Proof. apply preserves_unchanged. reflexivity. Qed.

Lemma preserves_session_get J k : preserves J (session_get k).
Proof.
  apply preserves_unchanged. intros w. unfold session_get. destruct (_ !! _); reflexivity.
Qed.

Lemma preserves_raise {A} J (exc : Exc) : preserves J (raise (A := A) exc).
Proof. apply preserves_unchanged. reflexivity. Qed.

Lemma preserves_generate J e history : preserves J (generate_cars_content e history).
Proof.
  apply preserves_unchanged. intros w. unfold generate_cars_content.
  destruct (chat_completions _ _); reflexivity.
Qed.

Lemma preserves_try_except {A} J (body : M A) (handler : string -> M A) :
  preserves J body -> (forall msg, preserves J (handler msg)) ->
  preserves J (try_except body handler).
Proof.
  intros Hb Hh w HJ. unfold try_except. specialize (Hb w HJ).
  destruct (body w) as [[a|[msg|]] w1]; cbn [snd] in *; try exact Hb.
  apply Hh, Hb.
Qed.

Lemma preserves_for_each {A} J (l : list A) (body : A -> M unit) :
  (forall a, preserves J (body a)) -> preserves J (for_each l body).
Proof.
  intros Hbody. induction l as [|a l IH]; simpl; [apply preserves_ret|].
  apply preserves_bind; [apply Hbody | intros _; exact IH].
Qed.

(** A property of the session that the three blocks of a unit keep is kept by
    the unit. *)
Lemma practice_unit_preserves J e i clicked prompt :
  preserves J (getOrGenerateContent e i) ->
  preserves J (reveal_gate e i clicked) ->
  preserves J (chat e i prompt) ->
  preserves J (practice_unit e i clicked prompt).
Proof.
  intros Hcontent Hgate Hchat. unfold practice_unit.
  apply preserves_bind; [exact Hcontent|]. intros full_text.
  destruct (parse_content full_text) as [passage_text answers_text].
  apply preserves_bind; [apply preserves_draw|]. intros _.
  apply preserves_bind; [apply preserves_draw|]. intros _.
  apply preserves_bind; [exact Hgate|]. intros _.
  apply preserves_bind; [apply preserves_read_revealed|]. intros revealed.
  apply preserves_bind.
  { destruct revealed; [|apply preserves_ret].
    apply preserves_bind; [apply preserves_draw | intros _; apply preserves_draw]. }
  intros _. apply preserves_bind; [apply preserves_draw|]. intros _.
  apply preserves_bind; [apply preserves_draw|]. intros _. exact Hchat.
Qed.

(** What holds of a transcript and survives an append, and holds of the empty
    transcript if it holds of none, survives the chat block. *)
Lemma session_append_preserves (P : option SVal -> Prop) k msg :
  (forall l, P (Some (VList l)) -> P (Some (VList (l ++ [msg])))) ->
  preserves (fun st => P (st !! k)) (session_append k msg).
Proof.
  intros Happend w HP. unfold session_append, bind, session_get.
  destruct (session_state w !! k) as [[s|b|l]|] eqn:Hk; cbn [snd raise]; rewrite ?Hk;
    try exact HP.
  cbn [session_set snd session_state]. rewrite lookup_insert_eq. apply Happend. exact HP.
Qed.

Lemma bind_assoc {A B C} (m : M A) (g : A -> M B) (h : B -> M C) w :
  bind m (fun a => bind (g a) h) w = bind (bind m g) h w.
Proof. unfold bind. destruct (m w) as [[a|exc] w1]; reflexivity. Qed.

(** Creating the entry of a key that has none. *)
Lemma ensure_preserves (P : option SVal -> Prop) k v :
  (P None -> P (Some v)) ->
  preserves (fun st => P (st !! k))
    (present <- contains_key k ;; if present then ret tt else session_set k v)%script.
Proof.
  intros Hcreate w HP. unfold bind, contains_key.
  destruct (session_state w !! k) as [v0|] eqn:Hk.
  - rewrite bool_decide_eq_true_2 by (eexists; reflexivity). cbn [ret snd]. rewrite Hk. exact HP.
  - rewrite bool_decide_eq_false_2 by (intros [? ?]; discriminate).
    cbn [session_set snd session_state]. rewrite lookup_insert_eq. apply Hcreate. exact HP.
Qed.

Lemma requestAssistantTurn_preserves (P : option SVal -> Prop) e i :
  (forall l msg, P (Some (VList l)) -> P (Some (VList (l ++ [msg])))) ->
  preserves (fun st => P (st !! chat_key e i)) (requestAssistantTurn e i).
Proof.
  intros Happend. unfold requestAssistantTurn.
  apply preserves_bind; [apply preserves_session_get|]. intros cached.
  apply preserves_bind; [apply preserves_session_get|]. intros transcript.
  destruct cached, transcript; try apply preserves_raise.
  apply preserves_bind; [apply preserves_generate|]. intros reply.
  apply preserves_bind; [|intros _; apply preserves_ret].
  apply session_append_preserves. intros l0. apply Happend.
Qed.

Lemma chat_preserves (P : option SVal -> Prop) e i prompt :
  (forall l msg, P (Some (VList l)) -> P (Some (VList (l ++ [msg])))) ->
  (P None -> P (Some (VList []))) ->
  preserves (fun st => P (st !! chat_key e i)) (chat e i prompt).
Proof.
  intros Happend Hcreate w HP. unfold chat. rewrite bind_assoc.
  revert w HP. apply (preserves_bind (fun st => P (st !! chat_key e i))).
  { apply ensure_preserves. exact Hcreate. }
  intros _. apply preserves_bind; [apply preserves_session_get|]. intros transcript.
  apply preserves_bind.
  { destruct transcript; try apply preserves_raise.
    apply preserves_for_each. intros msg. apply preserves_draw. }
  intros _. destruct prompt as [[|c text]|]; try apply preserves_ret.
  apply preserves_bind.
  { apply session_append_preserves. intros l. apply Happend. }
  intros _. apply preserves_try_except.
  - apply preserves_bind; [apply requestAssistantTurn_preserves, Happend|].
    intros reply. apply preserves_raise.
  - intros msg. apply preserves_draw.
Qed.

Lemma practice_unit_keeps_transcript_property (P : option SVal -> Prop) e i e' i' clicked prompt :
  (forall l msg, P (Some (VList l)) -> P (Some (VList (l ++ [msg])))) ->
  (P None -> P (Some (VList []))) ->
  preserves (fun st => P (st !! chat_key e i)) (practice_unit e' i' clicked prompt).
Proof.
  intros Happend Hcreate. apply practice_unit_preserves.
  - apply (preserves_outside (eq (passage_key e' i')) _ (chat_key e i) P);
      [apply only_writes_getOrGenerateContent | apply passage_chat_key].
  - apply (preserves_outside (eq (reveal_key e' i')) _ (chat_key e i) P);
      [apply only_writes_reveal_gate | apply reveal_chat_key].
  - destruct (decide (chat_key e' i' = chat_key e i)) as [Heq|Hne].
    + apply chat_key_inj in Heq as [-> ->]. apply chat_preserves; assumption.
    + apply (preserves_outside (eq (chat_key e' i')) _ (chat_key e i) P);
        [apply only_writes_chat | exact Hne].
Qed.

(** X11 (transcripts are append-only).  Through any runs of any units, with
    any clicks, prompts and answers of the generator, the transcript of a unit
    only grows at its end: the entries it had are still there, in order, at
    its front. *)
Theorem transcript_append_only e i w entries (evs : list Interaction) :
  session_state w !! chat_key e i = Some (VList entries) ->
  exists more,
    session_state (session_run evs w) !! chat_key e i = Some (VList (entries ++ more)).
Proof.
  intros Hchat.
  apply (session_run_preserves
           (fun st => exists more, st !! chat_key e i = Some (VList (entries ++ more)))).
  - apply Forall_forall. intros ev _. unfold interact.
    apply (practice_unit_keeps_transcript_property
             (fun o => exists more, o = Some (VList (entries ++ more)))).
    + intros l msg [more Hmore]. injection Hmore as ->.
      exists (more ++ [msg]). rewrite app_assoc. reflexivity.
    + intros [more Hmore]. discriminate Hmore.
  - exists []. rewrite app_nil_r. exact Hchat.
Qed.

Lemma getOrGenerateContent_typed e i :
  preserves (fun st => st !! passage_key e i = None
                       \/ exists text, st !! passage_key e i = Some (VStr text))
            (getOrGenerateContent e i).
Proof.
  intros w Htyped.
  destruct (session_state w !! passage_key e i) as [v|] eqn:Hv.
  - rewrite (getOrGenerateContent_cached e i w v Hv). cbn [snd]. rewrite Hv. exact Htyped.
  - destruct (chat_completions (List.length (requests w)) (messages_for e None))
      as [text|msg] eqn:Hgen.
    + rewrite (getOrGenerateContent_fresh e i w text Hv Hgen). cbn [snd session_state].
      right. exists text. apply lookup_insert_eq.
    + rewrite (getOrGenerateContent_failed e i w msg Hv Hgen). cbn [snd session_state].
      left. exact Hv.
Qed.

Lemma reveal_gate_typed e i clicked :
  preserves (fun st => st !! reveal_key e i = None
                       \/ exists flag, st !! reveal_key e i = Some (VBool flag))
            (reveal_gate e i clicked).
Proof.
  intros w Htyped. unfold reveal_gate, bind, contains_key, session_get.
  destruct (session_state w !! reveal_key e i) as [v|] eqn:Hv.
  - rewrite bool_decide_eq_true_2 by (eexists; reflexivity). cbn [ret]. rewrite Hv.
    destruct (negb (truthy v)), clicked; cbn [ret session_set snd session_state];
      rewrite ?Hv; try exact Htyped.
    right. exists true. apply lookup_insert_eq.
  - rewrite bool_decide_eq_false_2 by (intros [? ?]; discriminate).
    cbn [session_set session_state]. rewrite lookup_insert_eq. cbn [truthy negb].
    destruct clicked; cbn [ret session_set snd session_state]; right;
      eexists; apply lookup_insert_eq.
Qed.

Lemma practice_unit_typed e i e' i' clicked prompt :
  preserves (typed_unit e i) (practice_unit e' i' clicked prompt).
Proof.
  intros w (Hp & Hr & Hc). split; [|split].
  - revert w Hp Hr Hc. intros w Hp _ _. revert w Hp.
    apply (practice_unit_preserves
             (fun st => st !! passage_key e i = None
                        \/ exists text, st !! passage_key e i = Some (VStr text))).
    + destruct (decide (passage_key e' i' = passage_key e i)) as [Heq|Hne].
      * apply passage_key_inj in Heq as [-> ->]. apply getOrGenerateContent_typed.
      * apply (preserves_outside (eq (passage_key e' i')) _ (passage_key e i)
                 (fun o => o = None \/ exists text, o = Some (VStr text)));
          [apply only_writes_getOrGenerateContent | exact Hne].
    + apply (preserves_outside (eq (reveal_key e' i')) _ (passage_key e i)
               (fun o => o = None \/ exists text, o = Some (VStr text)));
        [apply only_writes_reveal_gate|].
      intros H. symmetry in H. revert H. apply passage_reveal_key.
    + apply (preserves_outside (eq (chat_key e' i')) _ (passage_key e i)
               (fun o => o = None \/ exists text, o = Some (VStr text)));
        [apply only_writes_chat|].
      intros H. symmetry in H. revert H. apply passage_chat_key.
  - revert w Hr Hp Hc. intros w Hr _ _. revert w Hr.
    apply (practice_unit_preserves
             (fun st => st !! reveal_key e i = None
                        \/ exists flag, st !! reveal_key e i = Some (VBool flag))).
    + apply (preserves_outside (eq (passage_key e' i')) _ (reveal_key e i)
               (fun o => o = None \/ exists flag, o = Some (VBool flag)));
        [apply only_writes_getOrGenerateContent | apply passage_reveal_key].
    + destruct (decide (reveal_key e' i' = reveal_key e i)) as [Heq|Hne].
      * apply reveal_key_inj in Heq as [-> ->]. apply reveal_gate_typed.
      * apply (preserves_outside (eq (reveal_key e' i')) _ (reveal_key e i)
                 (fun o => o = None \/ exists flag, o = Some (VBool flag)));
          [apply only_writes_reveal_gate | exact Hne].
    + apply (preserves_outside (eq (chat_key e' i')) _ (reveal_key e i)
               (fun o => o = None \/ exists flag, o = Some (VBool flag)));
        [apply only_writes_chat|].
      intros H. symmetry in H. revert H. apply reveal_chat_key.
  - revert w Hc Hp Hr. intros w Hc _ _. revert w Hc.
    apply (practice_unit_keeps_transcript_property
             (fun o => o = None \/ exists entries, o = Some (VList entries))).
    + intros l msg _. right. eexists. reflexivity.
    + intros _. right. eexists. reflexivity.
Qed.

Lemma empty_world_well_typed : well_typed (session_state empty_world).
Proof.
  intros e i. unfold typed_unit. cbn [empty_world session_state].
  rewrite !lookup_empty. tauto.
Qed.

Lemma session_run_well_typed w (evs : list Interaction) :
  well_typed (session_state w) -> well_typed (session_state (session_run evs w)).
Proof.
  intros Hw e i. apply (session_run_preserves (typed_unit e i)); [|apply Hw].
  apply Forall_forall. intros ev _. unfold interact. apply practice_unit_typed.
Qed.

(** X12 (what the session holds).  Starting from the empty session, and from
    any session whose entries hold what the script stores in them, every
    sequence of runs leaves a session in which each passage entry holds a
    text, each reveal entry a boolean and each transcript entry a list of
    messages: the script never meets a value of another kind under its keys. *)
Theorem session_well_typed w (evs : list Interaction) :
  well_typed (session_state empty_world)
  /\ (well_typed (session_state w) -> well_typed (session_state (session_run evs w))).
Proof.
  split.
  - apply empty_world_well_typed.
  - apply session_run_well_typed.
Qed.

Lemma bind_ok {A B} (m : M A) (k : A -> M B) w a w' :
  m w = (Ok a, w') -> bind m k w = k a w'.
Proof. intros Hm. unfold bind. rewrite Hm. reflexivity. Qed.

Lemma bind_raised {A B} (m : M A) (k : A -> M B) w exc w' :
  m w = (Raise exc, w') -> bind m k w = (Raise exc, w').
Proof. intros Hm. unfold bind. rewrite Hm. reflexivity. Qed.

(** The gate never raises: it leaves the flag set when it was set or the
    button was clicked, and stored as [False] otherwise. *)
Lemma reveal_gate_run e i clicked w :
  reveal_gate e i clicked w =
  (Ok tt,
   match session_state w !! reveal_key e i with
   | Some flag =>
       if negb (truthy flag) && clicked
       then with_session (<[reveal_key e i := VBool true]> (session_state w)) w
       else w
   | None =>
       if clicked
       then with_session (<[reveal_key e i := VBool true]>
                            (<[reveal_key e i := VBool false]> (session_state w))) w
       else with_session (<[reveal_key e i := VBool false]> (session_state w)) w
   end).
Proof.
  unfold reveal_gate, bind, contains_key, session_get.
  destruct (session_state w !! reveal_key e i) as [flag|] eqn:Hflag.
  - rewrite bool_decide_eq_true_2 by (eexists; reflexivity). cbn [ret]. rewrite Hflag.
    destruct (negb (truthy flag)), clicked; reflexivity.
  - rewrite bool_decide_eq_false_2 by (intros [? ?]; discriminate).
    cbn [session_set session_state]. rewrite lookup_insert_eq. cbn [truthy negb].
    destruct clicked; reflexivity.
Qed.

Lemma read_revealed_run e i w flag :
  session_state w !! reveal_key e i = Some flag ->
  read_revealed e i w = (Ok (truthy flag), w).
Proof. intros Hflag. unfold read_revealed, bind, session_get. rewrite Hflag. reflexivity. Qed.

(** Without a prompt the chat block draws the transcript and changes nothing. *)
Lemma chat_idle e i prompt w entries :
  session_state w !! chat_key e i = Some (VList entries) ->
  prompt = None \/ prompt = Some "" ->
  chat e i prompt w =
  (Ok tt, {| session_state := session_state w; requests := requests w;
             screen := screen w ++ map (fun msg => ChatMessage (role msg) (content msg))
                                       entries |}).
Proof.
  intros Hchat Hprompt. unfold chat.
  unfold bind at 1, contains_key.
  rewrite bool_decide_eq_true_2 by (eexists; exact Hchat).
  unfold bind at 1, ret. unfold bind at 1, session_get. rewrite Hchat.
  unfold bind at 1. rewrite draw_entries.
  destruct Hprompt as [-> | ->]; reflexivity.
Qed.

Lemma ensure_absent k v w :
  session_state w !! k = None ->
  (present <- contains_key k ;; if present then ret tt else session_set k v)%script w =
  (Ok tt, with_session (<[k := v]> (session_state w)) w).
Proof.
  intros Hnone. unfold bind, contains_key.
  rewrite bool_decide_eq_false_2 by (rewrite Hnone; intros [? ?]; discriminate).
  reflexivity.
Qed.

Lemma ensure_present k v w :
  is_Some (session_state w !! k) ->
  (present <- contains_key k ;; if present then ret tt else session_set k v)%script w =
  (Ok tt, w).
Proof.
  intros Hsome. unfold bind, contains_key.
  rewrite bool_decide_eq_true_2 by exact Hsome. reflexivity.
Qed.

(** A transcript that does not exist yet is created empty. *)
Lemma chat_creates e i prompt w :
  session_state w !! chat_key e i = None ->
  chat e i prompt w =
  chat e i prompt (with_session (<[chat_key e i := VList []]> (session_state w)) w).
Proof.
  intros Hnone. unfold chat.
  rewrite (bind_assoc _ _ _ w), (bind_assoc _ _ _ (with_session _ w)).
  rewrite (bind_ok _ _ w tt _ (ensure_absent _ _ w Hnone)).
  erewrite (bind_ok _ _ (with_session _ w) tt); [reflexivity|].
  apply ensure_present. cbn [with_session session_state]. rewrite lookup_insert_eq.
  eexists. reflexivity.
Qed.

Lemma bind_draw {B} (u : Ui) (k : unit -> M B) w :
  bind (draw u) k w =
  k tt {| session_state := session_state w; requests := requests w;
          screen := screen w ++ [u] |}.
Proof. reflexivity. Qed.

Lemma bind_ret {A B} (a : A) (k : A -> M B) w : bind (ret a) k w = k a w.
Proof. reflexivity. Qed.

(** The run, without prompt, of a unit that is in the session, in full. *)
Lemma practice_unit_render e i clicked w text flag entries :
  session_state w !! passage_key e i = Some (VStr text) ->
  session_state w !! reveal_key e i = Some (VBool flag) ->
  session_state w !! chat_key e i = Some (VList entries) ->
  practice_unit e i clicked None w =
  (Ok tt,
   {| session_state :=
        if negb flag && clicked
        then <[reveal_key e i := VBool true]> (session_state w)
        else session_state w;
      requests := requests w;
      screen := screen w ++ unit_view text (flag || clicked) entries |}).
Proof.
  intros Hpassage Hflag Hchat. unfold practice_unit, unit_view.
  rewrite (bind_ok _ _ w text w (getOrGenerateContent_cached e i w _ Hpassage)).
  destruct (parse_content text) as [passage_text answers_text]. cbn [fst snd].
  rewrite !bind_draw.
  match goal with |- context [bind (reveal_gate e i clicked) _ ?w2] => set (drawn := w2) end.
  assert (Hflag2 : session_state drawn !! reveal_key e i = Some (VBool flag)) by exact Hflag.
  assert (Hchat2 : session_state drawn !! chat_key e i = Some (VList entries)) by exact Hchat.
  rewrite (bind_ok _ _ drawn tt _ (reveal_gate_run e i clicked drawn)).
  rewrite Hflag2. cbn [truthy].
  destruct flag, clicked; cbn [negb andb orb].
  - rewrite (bind_ok _ _ drawn _ drawn (read_revealed_run e i drawn _ Hflag2)).
    cbn [truthy]. rewrite <- (bind_assoc _ _ _ drawn), !bind_draw.
    erewrite chat_idle; [|exact Hchat | left; reflexivity].
    subst drawn. cbn [session_state requests screen]. rewrite <- !app_assoc. reflexivity.
  - rewrite (bind_ok _ _ drawn _ drawn (read_revealed_run e i drawn _ Hflag2)).
    cbn [truthy]. rewrite <- (bind_assoc _ _ _ drawn), !bind_draw.
    erewrite chat_idle; [|exact Hchat | left; reflexivity].
    subst drawn. cbn [session_state requests screen]. rewrite <- !app_assoc. reflexivity.
  - match goal with |- context [bind (read_revealed e i) _ ?w3] => set (gated := w3) end.
    assert (Hflag3 : session_state gated !! reveal_key e i = Some (VBool true))
      by apply lookup_insert_eq.
    rewrite (bind_ok _ _ gated _ gated (read_revealed_run e i gated _ Hflag3)).
    cbn [truthy]. rewrite <- (bind_assoc _ _ _ gated), !bind_draw.
    erewrite chat_idle; [| |left; reflexivity].
    + subst gated drawn. cbn [with_session session_state requests screen].
      rewrite <- !app_assoc. reflexivity.
    + subst gated drawn. cbn [with_session session_state].
      rewrite lookup_insert_ne; [exact Hchat | apply reveal_chat_key].
  - rewrite (bind_ok _ _ drawn _ drawn (read_revealed_run e i drawn _ Hflag2)).
    cbn [truthy]. rewrite bind_ret, !bind_draw.
    erewrite chat_idle; [|exact Hchat | left; reflexivity].
    subst drawn. cbn [session_state requests screen]. rewrite <- !app_assoc. reflexivity.
Qed.

(** X13 (rendering a unit).  A run, without prompt, of a unit whose passage,
    flag and transcript are in the session makes no request and ends
    normally; the flag of the unit is set afterwards exactly when it was set
    or the button was clicked, and every passage, every transcript and the
    flag of every other unit are as they were; the run draws the passage, the
    answers exactly when the flag was set or the button was clicked in this
    run, and the transcript in order. *)
Theorem render_existing_unit e i clicked w text flag entries :
  session_state w !! passage_key e i = Some (VStr text) ->
  session_state w !! reveal_key e i = Some (VBool flag) ->
  session_state w !! chat_key e i = Some (VList entries) ->
  let run := practice_unit e i clicked None w in
  fst run = Ok tt
  /\ requests (snd run) = requests w
  /\ session_state (snd run) !! reveal_key e i = Some (VBool (flag || clicked))
  /\ (forall e' i',
        session_state (snd run) !! passage_key e' i' = session_state w !! passage_key e' i'
        /\ session_state (snd run) !! chat_key e' i' = session_state w !! chat_key e' i'
        /\ (~ (e' = e /\ i' = i) ->
            session_state (snd run) !! reveal_key e' i'
            = session_state w !! reveal_key e' i'))
  /\ screen (snd run) = screen w ++ unit_view text (flag || clicked) entries.
Proof.
  intros Hpassage Hflag Hchat. cbv zeta.
  rewrite (practice_unit_render e i clicked w text flag entries Hpassage Hflag Hchat).
  cbn [fst snd requests session_state screen].
  split; [reflexivity|]. split; [reflexivity|]. split; [|split; [|reflexivity]].
  - destruct flag, clicked; cbn [negb andb orb];
      [exact Hflag | exact Hflag | apply lookup_insert_eq | exact Hflag].
  - intros e' i'.
    destruct (negb flag && clicked); [|repeat split].
    split; [|split].
    + apply lookup_insert_ne. intros Heq. symmetry in Heq.
      exact (passage_reveal_key _ _ _ _ Heq).
    + apply lookup_insert_ne. apply reveal_chat_key.
    + intros Hother. apply lookup_insert_ne. intros Heq. apply Hother.
      symmetry in Heq. apply reveal_key_inj in Heq. exact Heq.
Qed.

Lemma practice_unit_generation_failed e i clicked prompt w msg :
  session_state w !! passage_key e i = None ->
  chat_completions (List.length (requests w)) (messages_for e None) = inr msg ->
  practice_unit e i clicked prompt w =
  (Raise (PyException msg),
   {| session_state := session_state w; requests := requests w ++ [(e, None)];
      screen := screen w |}).
Proof.
  intros Hnone Hgen. unfold practice_unit.
  apply (bind_raised _ _ w _ _ (getOrGenerateContent_failed e i w msg Hnone Hgen)).
Qed.

(** X14 (a failed generation leaves no trace).  When the passage of a unit is
    not stored and the generator fails, the run of the unit raises the
    generator's error with nothing stored and nothing drawn, only the request
    being on record; the passage is still missing, so the next access asks
    the generator again. *)
Theorem generation_failure_leaves_no_trace e i clicked prompt w msg :
  session_state w !! passage_key e i = None ->
  chat_completions (List.length (requests w)) (messages_for e None) = inr msg ->
  let failed := practice_unit e i clicked prompt w in
  fst failed = Raise (PyException msg)
  /\ session_state (snd failed) = session_state w
  /\ screen (snd failed) = screen w
  /\ requests (snd failed) = requests w ++ [(e, None)]
  /\ requests (snd (getOrGenerateContent e i (snd failed)))
     = requests w ++ [(e, None); (e, None)].
Proof.
  intros Hnone Hgen. cbv zeta.
  rewrite (practice_unit_generation_failed e i clicked prompt w msg Hnone Hgen).
  cbn [fst snd session_state screen requests].
  repeat (split; [reflexivity|]).
  match goal with |- context [getOrGenerateContent e i ?w1] => set (retry := w1) end.
  assert (Hnone' : session_state retry !! passage_key e i = None) by exact Hnone.
  destruct (chat_completions (List.length (requests retry)) (messages_for e None))
    as [text|msg'] eqn:Hretry.
  - rewrite (getOrGenerateContent_fresh e i retry text Hnone' Hretry).
    subst retry. cbn [snd requests]. rewrite <- app_assoc. reflexivity.
  - rewrite (getOrGenerateContent_failed e i retry msg' Hnone' Hretry).
    subst retry. cbn [snd requests]. rewrite <- app_assoc. reflexivity.
Qed.

Lemma reveal_gate_present e i clicked w :
  exists flag, session_state (snd (reveal_gate e i clicked w)) !! reveal_key e i = Some flag.
Proof.
  rewrite reveal_gate_run. cbn [snd].
  destruct (session_state w !! reveal_key e i) as [flag|] eqn:Hflag.
  - destruct (negb (truthy flag) && clicked).
    + eexists. apply lookup_insert_eq.
    + exists flag. exact Hflag.
  - destruct clicked; eexists; apply lookup_insert_eq.
Qed.

(** Once the passage is at hand, a run of a unit ends as its chat block does,
    in a session where the passage and the transcript are as they were. *)
Lemma practice_unit_after_content e i clicked prompt w text w1 :
  getOrGenerateContent e i w = (Ok text, w1) ->
  exists w5,
    practice_unit e i clicked prompt w = chat e i prompt w5
    /\ session_state w5 !! passage_key e i = session_state w1 !! passage_key e i
    /\ session_state w5 !! chat_key e i = session_state w1 !! chat_key e i
    /\ (exists flag, session_state w5 !! reveal_key e i = Some flag)
    /\ requests w5 = requests w1.
Proof.
  intros Hcontent. unfold practice_unit.
  rewrite (bind_ok _ _ w text w1 Hcontent).
  destruct (parse_content text) as [passage_text answers_text].
  rewrite !bind_draw.
  match goal with |- context [bind (reveal_gate e i clicked) _ ?w2] => set (drawn := w2) end.
  destruct (reveal_gate_present e i clicked drawn) as [flag Hflag].
  pose proof (only_writes_reveal_gate e i clicked drawn) as Hframe.
  pose proof (asks_reveal_gate (fun _ => True) e i clicked drawn) as (new & Hnew & Hlen & _).
  set (gated := snd (reveal_gate e i clicked drawn)) in *.
  assert (Hgate : reveal_gate e i clicked drawn = (Ok tt, gated))
    by (subst gated; rewrite reveal_gate_run; reflexivity).
  rewrite (bind_ok _ _ drawn tt gated Hgate).
  rewrite (bind_ok _ _ gated _ gated (read_revealed_run e i gated _ Hflag)).
  assert (Hpassage : session_state gated !! passage_key e i
                     = session_state w1 !! passage_key e i).
  { rewrite Hframe; [reflexivity|]. intros H. revert H. apply not_eq_sym, passage_reveal_key. }
  assert (Hchat : session_state gated !! chat_key e i = session_state w1 !! chat_key e i).
  { rewrite Hframe; [reflexivity | apply reveal_chat_key]. }
  assert (Hrequests : requests gated = requests w1).
  { rewrite Hnew. destruct new; [apply app_nil_r | cbn in Hlen; lia]. }
  destruct (truthy flag).
  - rewrite <- (bind_assoc _ _ _ gated), !bind_draw. eexists. split; [reflexivity|].
    cbn [session_state requests]. eauto.
  - rewrite bind_ret, !bind_draw. eexists. split; [reflexivity|].
    cbn [session_state requests]. eauto.
Qed.

(** How the chat block can end when the passage is stored and the transcript,
    if there is one, is a list: normally, or by asking for a rerun after the
    reply to a submitted prompt has been appended. *)
Lemma chat_outcomes e i prompt w text :
  session_state w !! passage_key e i = Some (VStr text) ->
  (session_state w !! chat_key e i = None
   \/ exists entries, session_state w !! chat_key e i = Some (VList entries)) ->
  match fst (chat e i prompt w) with
  | Ok _ => True
  | Raise (PyException _) => False
  | Raise RerunException =>
      exists c rest entries reply,
        prompt = Some (String c rest)
        /\ session_state (snd (chat e i prompt w)) !! chat_key e i
           = Some (VList (entries ++ [user_turn (String c rest); assistant_turn reply]))
  end.
Proof.
  assert (Hpresent : forall w entries,
            session_state w !! passage_key e i = Some (VStr text) ->
            session_state w !! chat_key e i = Some (VList entries) ->
            match fst (chat e i prompt w) with
            | Ok _ => True
            | Raise (PyException _) => False
            | Raise RerunException =>
                exists c rest entries reply,
                  prompt = Some (String c rest)
                  /\ session_state (snd (chat e i prompt w)) !! chat_key e i
                     = Some (VList (entries ++ [user_turn (String c rest);
                                                assistant_turn reply]))
            end).
  { clear w. intros w entries Hpassage Hchat.
    destruct prompt as [[|c rest]|].
    - rewrite (chat_idle e i _ w entries Hchat (or_intror eq_refl)). exact I.
    - rewrite (chat_submit_outcome e i w text entries c rest Hpassage Hchat). cbv zeta.
      destruct (chat_completions _ _) as [reply|msg]; cbn [fst snd]; [|exact I].
      exists c, rest, entries, reply. split; [reflexivity|].
      cbn [session_state]. rewrite lookup_insert_eq, <- app_assoc. reflexivity.
    - rewrite (chat_idle e i _ w entries Hchat (or_introl eq_refl)). exact I. }
  intros Hpassage [Hnone|[entries Hchat]].
  - rewrite (chat_creates e i prompt w Hnone). apply (Hpresent _ []).
    + cbn [with_session session_state]. rewrite lookup_insert_ne; [exact Hpassage|].
      intros H. symmetry in H. revert H. apply passage_chat_key.
    + cbn [with_session session_state]. apply lookup_insert_eq.
  - apply (Hpresent w entries Hpassage Hchat).
Qed.

(** The chat block asks for a rerun only after the reply to a submitted prompt
    has been appended: the request sent is the last on record and the reply
    the generator's answer to it. *)
Lemma chat_reruns e i prompt w text w' :
  session_state w !! passage_key e i = Some (VStr text) ->
  (session_state w !! chat_key e i = None
   \/ exists entries, session_state w !! chat_key e i = Some (VList entries)) ->
  chat e i prompt w = (Raise RerunException, w') ->
  exists c rest entries reply,
    let asked := entries ++ [user_turn (String c rest)] in
    prompt = Some (String c rest)
    /\ session_state w' !! passage_key e i = Some (VStr text)
    /\ session_state w' !! chat_key e i = Some (VList (asked ++ [assistant_turn reply]))
    /\ requests w' = requests w ++ [(e, Some (full_context text asked))]
    /\ chat_completions (List.length (requests w))
         (messages_for e (Some (full_context text asked))) = inl reply.
Proof.
  assert (Hpresent : forall w entries,
            session_state w !! passage_key e i = Some (VStr text) ->
            session_state w !! chat_key e i = Some (VList entries) ->
            chat e i prompt w = (Raise RerunException, w') ->
            exists c rest entries reply,
              let asked := entries ++ [user_turn (String c rest)] in
              prompt = Some (String c rest)
              /\ session_state w' !! passage_key e i = Some (VStr text)
              /\ session_state w' !! chat_key e i
                 = Some (VList (asked ++ [assistant_turn reply]))
              /\ requests w' = requests w ++ [(e, Some (full_context text asked))]
              /\ chat_completions (List.length (requests w))
                   (messages_for e (Some (full_context text asked))) = inl reply).
  { clear w. intros w entries Hpassage Hchat Hrun.
    destruct prompt as [[|c rest]|].
    - rewrite (chat_idle e i _ w entries Hchat (or_intror eq_refl)) in Hrun. discriminate Hrun.
    - rewrite (chat_submit_outcome e i w text entries c rest Hpassage Hchat) in Hrun.
      cbv zeta in Hrun.
      destruct (chat_completions _ _) as [reply|msg] eqn:Hreply; [|discriminate Hrun].
      injection Hrun as <-. exists c, rest, entries, reply. cbv zeta.
      cbn [session_state requests]. split; [reflexivity|]. split; [|split; [|split]].
      + rewrite !lookup_insert_ne; [exact Hpassage| |];
          intros H; symmetry in H; revert H; apply passage_chat_key.
      + apply lookup_insert_eq.
      + reflexivity.
      + exact Hreply.
    - rewrite (chat_idle e i _ w entries Hchat (or_introl eq_refl)) in Hrun. discriminate Hrun. }
  intros Hpassage [Hnone|[entries Hchat]] Hrun.
  - rewrite (chat_creates e i prompt w Hnone) in Hrun.
    apply (Hpresent _ [] ) in Hrun; [exact Hrun| |].
    + cbn [with_session session_state]. rewrite lookup_insert_ne; [exact Hpassage|].
      intros H. symmetry in H. revert H. apply passage_chat_key.
    + cbn [with_session session_state]. apply lookup_insert_eq.
  - apply (Hpresent w entries Hpassage Hchat Hrun).
Qed.

(** A run of a unit in a session of the right kinds either fails on the first
    generation of its passage or ends as the chat block does, on a session
    where the passage is stored and the transcript is as it was. *)
Lemma practice_unit_cases e i clicked prompt w :
  typed_unit e i (session_state w) ->
  (exists msg,
     session_state w !! passage_key e i = None
     /\ chat_completions (List.length (requests w)) (messages_for e None) = inr msg
     /\ practice_unit e i clicked prompt w =
        (Raise (PyException msg),
         {| session_state := session_state w; requests := requests w ++ [(e, None)];
            screen := screen w |}))
  \/ (exists text w5,
        practice_unit e i clicked prompt w = chat e i prompt w5
        /\ session_state w5 !! passage_key e i = Some (VStr text)
        /\ session_state w5 !! chat_key e i = session_state w !! chat_key e i
        /\ exists flag, session_state w5 !! reveal_key e i = Some flag).
Proof.
  intros (Hp & _ & _).
  assert (Hafter : forall text w1,
            getOrGenerateContent e i w = (Ok text, w1) ->
            session_state w1 !! passage_key e i = Some (VStr text) ->
            session_state w1 !! chat_key e i = session_state w !! chat_key e i ->
            exists text w5,
              practice_unit e i clicked prompt w = chat e i prompt w5
              /\ session_state w5 !! passage_key e i = Some (VStr text)
              /\ session_state w5 !! chat_key e i = session_state w !! chat_key e i
              /\ exists flag, session_state w5 !! reveal_key e i = Some flag).
  { intros text w1 Hcontent Hpassage1 Hchat1.
    destruct (practice_unit_after_content e i clicked prompt w text w1 Hcontent)
      as (w5 & Hrun & Hpassage5 & Hchat5 & Hflag5 & _).
    exists text, w5. rewrite Hpassage5, Hchat5. auto. }
  destruct Hp as [Hnone|[text Hpassage]].
  - destruct (chat_completions (List.length (requests w)) (messages_for e None))
      as [text|msg] eqn:Hgen.
    + right. apply (Hafter text _ (getOrGenerateContent_fresh e i w text Hnone Hgen)).
      * cbn [session_state]. apply lookup_insert_eq.
      * cbn [session_state]. apply lookup_insert_ne, passage_chat_key.
    + left. exists msg. split; [exact Hnone|]. split; [reflexivity|].
      apply practice_unit_generation_failed; assumption.
  - right. apply (Hafter text w (getOrGenerateContent_cached e i w _ Hpassage));
      [exact Hpassage | reflexivity].
Qed.


End UnitRuns.

(** ** More on parsing and on the generator's requests *)

Section Sections.

Implicit Types (s x y sep : string) (c : ascii).

(** The first occurrence of a separator splits the text around it. *)
Lemma first_occurrence sep s :
  sep <> "" -> Py.contains sep s = true ->
  exists x y, s = x +:+ sep +:+ y /\ Py.contains sep x = false.
Proof.
  intros Hsep. induction s as [|c s IH]; cbn [Py.contains]; intros Hin.
  - rewrite orb_false_r in Hin. apply prefix_spec in Hin as [z Hz].
    destruct sep; [congruence | discriminate Hz].
  - destruct (String.prefix sep (String c s)) eqn:Hpre.
    + apply prefix_spec in Hpre as [z Hz]. exists "", z. split; [exact Hz|].
      destruct sep; [congruence | reflexivity].
    + cbn [orb] in Hin. destruct (IH Hin) as (x & y & -> & Hx).
      exists (String c x), y. split; [reflexivity|].
      cbn [Py.contains]. rewrite Hx, orb_false_r.
      apply not_true_is_false. intros Hpre'. apply prefix_spec in Hpre' as [z Hz].
      assert (String.prefix sep (String c (x +:+ sep +:+ y)) = true); [|congruence].
      apply prefix_spec. exists (z +:+ sep +:+ y).
      change (String c (x +:+ sep +:+ y)) with (String c x +:+ sep +:+ y).
      rewrite Hz, string_app_assoc. reflexivity.
Qed.

(** A text inside a text without the separator has none either. *)
Lemma contains_inside sep x s y :
  Py.contains sep (x +:+ s +:+ y) = false -> Py.contains sep s = false.
Proof.
  intros Hnone. apply not_true_is_false. intros Hin.
  apply contains_spec in Hin as (a & b & ->).
  assert (Py.contains sep (x +:+ (a +:+ sep +:+ b) +:+ y) = true); [|congruence].
  apply contains_spec. exists (x +:+ a), (b +:+ y).
  rewrite !string_app_assoc. reflexivity.
Qed.

Lemma lstrip_suffix s : exists x, s = x +:+ Py.lstrip s.
Proof.
  induction s as [|c s [x Hx]]; [exists ""; reflexivity|].
  cbn [Py.lstrip]. destruct (Py.isspace c).
  - exists (String c x). rewrite append_cons, <- Hx. reflexivity.
  - exists "". reflexivity.
Qed.

Lemma rstrip_prefix s : exists y, s = Py.rstrip s +:+ y.
Proof.
  induction s as [|c s [y Hy]]; [exists ""; reflexivity|].
  cbn [Py.rstrip]. destruct (Py.rstrip s) as [|c' r] eqn:Hr.
  - destruct (Py.isspace c).
    + exists (String c s). reflexivity.
    + exists y. rewrite !append_cons, append_nil. rewrite append_nil in Hy.
      rewrite <- Hy. reflexivity.
  - exists y. rewrite append_cons, <- Hy. reflexivity.
Qed.

Lemma strip_clean sep s : Py.contains sep s = false -> Py.contains sep (Py.strip s) = false.
Proof.
  intros Hnone. unfold Py.strip.
  destruct (lstrip_suffix s) as [x Hx]. destruct (rstrip_prefix (Py.lstrip s)) as [y Hy].
  apply (contains_inside sep x _ y). rewrite <- Hy, <- Hx. exact Hnone.
Qed.

(** The first piece of a split has no separator in it. *)
Lemma first_piece_clean sep s :
  border_free sep = true -> sep <> "" ->
  Py.contains sep (nth 0 (Py.split sep s) "") = false.
Proof.
  intros Hfree Hsep. destruct (Py.contains sep s) eqn:Hs.
  - destruct (first_occurrence sep s Hsep Hs) as (x & y & -> & Hx).
    rewrite (split_first sep x y Hfree Hsep Hx). exact Hx.
  - rewrite (split_none sep s Hs). exact Hs.
Qed.

End Sections.

(** X16 (the two sections of any text).  Every text either has no marker, and
    parses to its trimmed whole and the sentinel, or is a part without
    marker, the marker and a rest, and parses to the trimmed part and the
    trimmed piece of the rest that precedes any further marker; in both cases
    neither the passage nor the answers contain the marker. *)
Theorem parse_content_sections (full_text : string) :
  ((Py.contains marker full_text = false
    /\ parse_content full_text = (Py.strip full_text, answers_unavailable))
   \/ exists before rest,
        full_text = before +:+ marker +:+ rest
        /\ Py.contains marker before = false
        /\ parse_content full_text =
           (Py.strip before, Py.strip (nth 0 (Py.split marker rest) "")))
  /\ Py.contains marker (fst (parse_content full_text)) = false
  /\ Py.contains marker (snd (parse_content full_text)) = false.
Proof.
  destruct (Py.contains marker full_text) eqn:Hin.
  - destruct (first_occurrence marker full_text marker_not_empty Hin)
      as (before & rest & -> & Hbefore).
    rewrite (parse_content_at_marker before rest Hbefore). cbn [fst snd].
    split; [|split].
    + right. exists before, rest. repeat split. exact Hbefore.
    + apply strip_clean, Hbefore.
    + apply strip_clean, first_piece_clean; [apply marker_border_free | apply marker_not_empty].
  - unfold parse_content. rewrite (split_none marker full_text Hin).
    cbn [nth List.length Nat.ltb Nat.leb fst snd]. split; [|split].
    + left. split; reflexivity.
    + apply strip_clean, Hin.
    + vm_compute. reflexivity.
Qed.

(** X17 (the generator's two modes).  A request without history and a request
    with an empty history are the same request for a full passage, of two
    messages; a follow-up request of the script always carries the stored
    passage, so it is never taken for a request for a full passage: its
    messages are the follow-up system prompt, the passage as an assistant
    entry and the last five entries of the transcript at most, seven messages
    at most in all. *)
Theorem generator_modes `{G : Generator} (e text : string) (entries : list Msg) :
  messages_for e (Some []) = messages_for e None
  /\ List.length (messages_for e None) = 2
  /\ messages_for e (Some (full_context text entries)) =
       {| role := "system"; content := follow_up_prompt e |}
       :: assistant_turn text :: last_n 5 entries
  /\ List.length (messages_for e (Some (full_context text entries))) <= 7.
Proof.
  split; [reflexivity|]. split; [reflexivity|]. split; [reflexivity|].
  unfold full_context. cbn [messages_for app List.length].
  destruct (last_n_suffix 5 entries) as [_ Hlen]. rewrite Hlen. lia.
Qed.

(** ** Runs of the whole script *)

Section Script.

Context `{G : Generator} `{Pd : Pandas}.

Implicit Types (w : World) (e : string) (i : nat) (events : Events).

Lemma hoare_ret {A} (P : World -> Prop) (a : A) (Q : A -> World -> Prop) E :
  (forall w, P w -> Q a w) -> hoare P (ret a) Q E.
Proof. intros H w HP. apply H, HP. Qed.

Lemma hoare_bind {A B} (P : World -> Prop) (m : M A) (f : A -> M B)
    (R : A -> World -> Prop) (Q : B -> World -> Prop) E :
  hoare P m R E -> (forall a, hoare (R a) (f a) Q E) -> hoare P (bind m f) Q E.
Proof.
  intros Hm Hf w HP. unfold bind. specialize (Hm w HP).
  destruct (m w) as [[a|exc] w1]; [apply Hf, Hm | exact Hm].
Qed.

Lemma hoare_for_each {A} (I : World -> Prop) (l : list A) (body : A -> M unit) E :
  (forall a, In a l -> hoare I (body a) (fun _ => I) E) ->
  hoare I (for_each l body) (fun _ => I) E.
Proof.
  induction l as [|a l IH]; intros Hbody; cbn [for_each].
  - apply hoare_ret. auto.
  - apply (hoare_bind I _ _ (fun _ => I)).
    + apply Hbody. left. reflexivity.
    + intros _. apply IH. intros a' Ha'. apply Hbody. right. exact Ha'.
Qed.

Lemma in_enumerate {A} (l : list A) (n : nat) (a : A) :
  In (n, a) (enumerate l) -> n < List.length l /\ In a l.
Proof.
  unfold enumerate. intros Hin. split.
  - apply in_combine_l, in_seq in Hin. lia.
  - apply in_combine_r in Hin. exact Hin.
Qed.

Lemma length_enumerate {A} (l : list A) : List.length (enumerate l) = List.length l.
Proof. unfold enumerate. rewrite length_combine, length_seq. lia. Qed.

(** What the units keep, the practice section and the script keep. *)
Lemma practice_section_preserves J (error_report : Report) events :
  (forall e i clicked prompt, preserves J (practice_unit e i clicked prompt)) ->
  preserves J (practice_section error_report events).
Proof.
  intros Hunit. unfold practice_section.
  apply preserves_for_each. intros [idx [err_type seq]]. apply Hunit.
Qed.

Lemma script_preserves J uploaded_file events :
  (forall e i clicked prompt, preserves J (practice_unit e i clicked prompt)) ->
  preserves J (script uploaded_file events).
Proof.
  intros Hunit. unfold script. destruct uploaded_file as [records|]; [|apply preserves_ret].
  apply preserves_try_except; [|intros msg; apply preserves_draw].
  cbv zeta. destruct (analyze_errors (load records)) eqn:Hreport; [apply preserves_ret|].
  rewrite <- Hreport. apply practice_section_preserves, Hunit.
Qed.

(** X18 (the script keeps what the units hold).  A run of the script, for any
    uploaded file and any widget events, leaves every stored passage as it is
    and every set flag set, only appends to the transcripts, and keeps the
    entries of the session of the kinds the script stores. *)
Theorem script_keeps_units uploaded_file events w e i :
  let after := snd (script uploaded_file events w) in
  (forall v, session_state w !! passage_key e i = Some v ->
             session_state after !! passage_key e i = Some v)
  /\ (isRevealed e i w = true -> isRevealed e i after = true)
  /\ (forall entries, session_state w !! chat_key e i = Some (VList entries) ->
        exists more, session_state after !! chat_key e i = Some (VList (entries ++ more)))
  /\ (well_typed (session_state w) -> well_typed (session_state after)).
Proof.
  cbv zeta. split; [|split; [|split]].
  - intros v. apply (script_preserves (fun st => st !! passage_key e i = Some v)).
    intros e' i' clicked prompt. apply practice_unit_keeps_passage.
  - apply (script_preserves (fun st => revealed_in (st !! reveal_key e i) = true)).
    intros e' i' clicked prompt. apply practice_unit_flag. reflexivity.
  - intros entries Hchat.
    apply (script_preserves
             (fun st => exists more, st !! chat_key e i = Some (VList (entries ++ more)))).
    + intros e' i' clicked prompt.
      apply (practice_unit_keeps_transcript_property
               (fun o => exists more, o = Some (VList (entries ++ more)))).
      * intros l msg [more Hmore]. injection Hmore as ->.
        exists (more ++ [msg]). rewrite app_assoc. reflexivity.
      * intros [more Hmore]. discriminate Hmore.
    + exists []. rewrite app_nil_r. exact Hchat.
  - intros Htyped e' i'. apply (script_preserves (typed_unit e' i')); [|apply Htyped].
    intros e0 i0 clicked prompt. apply practice_unit_typed.
Qed.

(** X19 (nothing to practise).  Without an uploaded file, and with a file none
    of whose rows triggers a category, a run of the script ends normally and
    leaves the session, the requests made and the drawing of the units as
    they are: the generator is not asked. *)
Theorem script_idle uploaded_file events w :
  uploaded_file = None
  \/ (exists records, uploaded_file = Some records
        /\ forall row cat, In row (load records) -> In cat (map fst error_patterns) ->
             triggers cat row = false) ->
  script uploaded_file events w = (Ok tt, w).
Proof.
  intros [-> | (records & -> & Hnone)]; [reflexivity|].
  apply no_trigger_empty_report in Hnone.
  unfold script, try_except. cbv zeta. rewrite Hnone. reflexivity.
Qed.

Lemma asks_for_each_bounded {A} (allowed : string -> Prop) n (l : list A) (body : A -> M unit) :
  (forall a, In a l -> asks allowed n (body a)) ->
  asks allowed (List.length l * n) (for_each l body).
Proof.
  induction l as [|a l IH]; intros Hbody; cbn [for_each List.length].
  - apply asks_ret.
  - apply (asks_weaken allowed (n + List.length l * n)); [lia|].
    apply asks_bind; [apply Hbody; left; reflexivity|].
    intros _. apply IH. intros a' Ha'. apply Hbody. right. exact Ha'.
Qed.

Lemma asks_practice_section (error_report : Report) events :
  asks (fun e => In e (map fst (top_errors error_report))) 6
       (practice_section error_report events).
Proof.
  unfold practice_section.
  apply (asks_weaken _ (List.length (enumerate (top_errors error_report)) * 2)).
  { rewrite length_enumerate. unfold top_errors.
    pose proof (firstn_le_length 3 (sorted_desc error_report)). lia. }
  apply asks_for_each_bounded. intros [idx [err_type seq]] Hin.
  apply asks_practice_unit. apply in_enumerate in Hin as [_ Hin].
  apply (in_map fst) in Hin. exact Hin.
Qed.

(** X20 (what a run asks of the generator).  A run of the script keeps the
    requests made before and adds at most six, two for each of the three
    units at most; each is for a category that the ranking of the uploaded
    file's report holds, hence for a category of the catalog. *)
Theorem script_requests uploaded_file events w :
  exists new,
    requests (snd (script uploaded_file events w)) = requests w ++ new
    /\ List.length new <= 6
    /\ Forall (fun request =>
                 In (fst request) (map fst error_patterns)
                 /\ exists records,
                      uploaded_file = Some records
                      /\ In (fst request)
                            (map fst (top_errors (analyze_errors (load records)))))
              new.
Proof.
  destruct uploaded_file as [records|].
  - set (allowed := fun e => In e (map fst (top_errors (analyze_errors (load records))))).
    assert (Hasks : asks allowed 6 (script (Some records) events)).
    { unfold script. apply (asks_try_except allowed 6 0); [|intros msg; apply asks_draw].
      cbv zeta. destruct (analyze_errors (load records)) eqn:Hreport.
      - apply (asks_weaken allowed 0); [lia | apply asks_ret].
      - subst allowed. rewrite <- Hreport. apply asks_practice_section. }
    destruct (Hasks w) as (new & Hnew & Hlen & Hall).
    exists new. split; [exact Hnew|]. split; [exact Hlen|].
    apply (Forall_impl _ _ _ Hall) . subst allowed. cbv beta. intros [e history] He.
    cbn [fst] in *. split; [|exists records; split; [reflexivity | exact He]].
    pose proof (ranked_entries (load records)) as Hranked.
    apply in_map_iff in He as ([e' seq] & <- & Hentry).
    rewrite Forall_forall in Hranked. apply list_elem_of_In, Hranked in Hentry.
    apply Hentry.
  - exists []. rewrite app_nil_r. split; [reflexivity|]. split; [cbn; lia | constructor].
Qed.

(** A run of a unit in a session of the right kinds stays in one; what it
    raises is the failure of the first generation of its passage, or the
    request for a rerun after a reply. *)
Lemma practice_unit_hoare e i clicked prompt :
  hoare (fun w => well_typed (session_state w))
        (practice_unit e i clicked prompt)
        (fun _ w' => well_typed (session_state w'))
        (fun exc w' =>
           match exc with
           | PyException msg => generation_failed e i msg w'
           | RerunException => replied e i prompt w'
           end).
Proof.
  intros w Htyped.
  assert (Hafter : well_typed (session_state (snd (practice_unit e i clicked prompt w)))).
  { intros e' i'. apply (practice_unit_typed e' i' e i clicked prompt w), Htyped. }
  destruct (practice_unit_cases e i clicked prompt w (Htyped e i))
    as [(msg & Hnone & Hgen & Hrun)|(text & w5 & Hrun & Hpassage & Hchat & _)];
    rewrite Hrun in *.
  { exists (requests w). cbn [session_state requests]. repeat split; assumption. }
  assert (Hkind : session_state w5 !! chat_key e i = None
                  \/ exists entries, session_state w5 !! chat_key e i = Some (VList entries)).
  { rewrite Hchat. exact (proj2 (proj2 (Htyped e i))). }
  pose proof (chat_outcomes e i prompt w5 text Hpassage Hkind) as Hout.
  destruct (chat e i prompt w5) as [[[]|[msg|]] w'] eqn:Hend; cbn [fst snd] in *.
  - exact Hafter.
  - destruct Hout.
  - destruct (chat_reruns e i prompt w5 text w' Hpassage Hkind Hend)
      as (c & rest & entries & reply & Hreplied).
    exists c, rest, text, entries, reply, (requests w5). exact Hreplied.
Qed.

(** What the practice section raises, a ranked unit has raised. *)
Lemma practice_section_hoare (records : list (string * string)) events :
  hoare (fun w => well_typed (session_state w))
        (practice_section (analyze_errors (load records)) events)
        (fun _ w' => well_typed (session_state w'))
        (fun exc w' =>
           exists idx err_type seq,
             In (idx, (err_type, seq)) (ranked_units records)
             /\ match exc with
                | PyException msg => generation_failed err_type idx msg w'
                | RerunException =>
                    replied err_type idx (chat_submitted events err_type idx) w'
                end).
Proof.
  unfold practice_section. apply hoare_for_each.
  intros [idx [err_type seq]] Hin w0 Hw0.
  pose proof (practice_unit_hoare err_type idx (button_clicked events err_type idx)
                (chat_submitted events err_type idx) w0 Hw0) as Hunit.
  destruct (practice_unit err_type idx _ _ w0) as [[[]|exc] w']; [exact Hunit|].
  exists idx, err_type, seq. split; [exact Hin|]. destruct exc; exact Hunit.
Qed.

(** X21 (how a run of the script can end).  From a session holding values of
    the kinds the script stores, a run of the script never lets a Python
    exception out.  It ends normally, or it asks for a rerun, and then a
    ranked unit of the uploaded file was submitted a prompt, the stored
    passage and the transcript ending with that prompt were the last request
    sent, and the transcript ends with the generator's reply to it.  When the
    practice section raises a Python exception, the script ends normally with
    the error reported as the last element of the page and nothing else
    changed, and the error is the generator's failure on the first
    generation of the passage of a ranked unit, whose passage is still
    missing. *)
Theorem script_outcomes uploaded_file events w :
  well_typed (session_state w) ->
  let run := script uploaded_file events w in
  (fst run = Ok tt
   \/ fst run = Raise RerunException
      /\ exists records idx err_type seq,
           uploaded_file = Some records
           /\ In (idx, (err_type, seq)) (ranked_units records)
           /\ replied err_type idx (chat_submitted events err_type idx) (snd run))
  /\ forall records msg w',
       uploaded_file = Some records ->
       practice_section (analyze_errors (load records)) events w
       = (Raise (PyException msg), w') ->
       run = (Ok tt,
              {| session_state := session_state w'; requests := requests w';
                 screen := screen w' ++ [StError ("Error processing file: " +:+ msg)] |})
       /\ exists idx err_type seq,
            In (idx, (err_type, seq)) (ranked_units records)
            /\ generation_failed err_type idx msg w'.
Proof.
  intros Htyped. cbv zeta. split.
  - destruct uploaded_file as [records|]; [|left; reflexivity].
    unfold script, try_except. cbv zeta.
    destruct (analyze_errors (load records)) as [|entry report] eqn:Hreport;
      [left; reflexivity|].
    rewrite <- Hreport.
    pose proof (practice_section_hoare records events w Htyped) as Hbody.
    destruct (practice_section (analyze_errors (load records)) events w)
      as [[[]|[msg|]] w']; cbn [fst snd draw]; [left; reflexivity..|].
    right. split; [reflexivity|].
    destruct Hbody as (idx & err_type & seq & Hin & Hreplied).
    exists records, idx, err_type, seq. auto.
  - intros records msg w' -> Hraise.
    pose proof (practice_section_hoare records events w Htyped) as Hbody.
    rewrite Hraise in Hbody. split; [|exact Hbody].
    unfold script, try_except. cbv zeta.
    destruct (analyze_errors (load records)) as [|entry report] eqn:Hreport.
    + cbn in Hraise. discriminate Hraise.
    + rewrite Hraise. reflexivity.
Qed.

Lemma practice_unit_keeps_flag_kind e i e' i' clicked prompt :
  preserves (fun st => exists flag, st !! reveal_key e i = Some (VBool flag))
            (practice_unit e' i' clicked prompt).
Proof.
  apply practice_unit_preserves.
  - apply (preserves_outside (eq (passage_key e' i')) _ (reveal_key e i)
             (fun o => exists flag, o = Some (VBool flag)));
      [apply only_writes_getOrGenerateContent | apply passage_reveal_key].
  - destruct (decide (reveal_key e' i' = reveal_key e i)) as [Heq|Hne].
    + apply reveal_key_inj in Heq as [-> ->]. intros w [flag Hflag].
      rewrite reveal_gate_run. cbn [snd]. rewrite Hflag. cbn [truthy].
      destruct (negb flag && clicked).
      * exists true. apply lookup_insert_eq.
      * exists flag. exact Hflag.
    + apply (preserves_outside (eq (reveal_key e' i')) _ (reveal_key e i)
               (fun o => exists flag, o = Some (VBool flag)));
        [apply only_writes_reveal_gate | exact Hne].
  - apply (preserves_outside (eq (chat_key e' i')) _ (reveal_key e i)
             (fun o => exists flag, o = Some (VBool flag)));
      [apply only_writes_chat|].
    intros H. symmetry in H. revert H. apply reveal_chat_key.
Qed.

Lemma practice_unit_keeps_stored (unit : nat * (string * list Cell)) e i clicked prompt :
  preserves (fun st => stored_unit st unit) (practice_unit e i clicked prompt).
Proof.
  destruct unit as [idx [err_type seq]]. intros w (Hp & Hr & Hc). split; [|split].
  - destruct Hp as [text Hp]. exists text.
    apply (practice_unit_keeps_passage err_type idx (VStr text) e i clicked prompt w Hp).
  - apply (practice_unit_keeps_flag_kind err_type idx e i clicked prompt w Hr).
  - apply (practice_unit_keeps_transcript_property
             (fun o => exists entries, o = Some (VList entries))
             err_type idx e i clicked prompt); [| |exact Hc].
    + intros l msg _. eexists. reflexivity.
    + intros [entries Hentries]. discriminate Hentries.
Qed.

(** The chat block leaves a transcript behind, whatever it was given. *)
Lemma chat_leaves_transcript e i prompt w :
  session_state w !! chat_key e i = None
  \/ (exists entries, session_state w !! chat_key e i = Some (VList entries)) ->
  exists entries,
    session_state (snd (chat e i prompt w)) !! chat_key e i = Some (VList entries).
Proof.
  assert (Hkeep : forall w0,
            (exists entries, session_state w0 !! chat_key e i = Some (VList entries)) ->
            exists entries,
              session_state (snd (chat e i prompt w0)) !! chat_key e i = Some (VList entries)).
  { intros w0. apply (chat_preserves (fun o => exists entries, o = Some (VList entries))).
    - intros l msg _. eexists. reflexivity.
    - intros [entries Hentries]. discriminate Hentries. }
  intros [Hnone|Hsome]; [|apply Hkeep, Hsome].
  rewrite (chat_creates e i prompt w Hnone). apply Hkeep.
  cbn [with_session session_state]. exists []. apply lookup_insert_eq.
Qed.

(** A run of a unit that ends normally leaves the unit in the session. *)
Lemma practice_unit_ok_stored e i seq clicked prompt w :
  typed_unit e i (session_state w) ->
  fst (practice_unit e i clicked prompt w) = Ok tt ->
  stored_unit (session_state (snd (practice_unit e i clicked prompt w))) (i, (e, seq)).
Proof.
  intros Htyped Hok.
  pose proof (practice_unit_typed e i e i clicked prompt w Htyped) as (Hp & Hr & Hc).
  assert (Hcontent : exists text w1, getOrGenerateContent e i w = (Ok text, w1)
                                     /\ is_Some (session_state w1 !! passage_key e i)).
  { destruct Htyped as ([Hnone|[text Hpassage]] & _ & _).
    - destruct (chat_completions (List.length (requests w)) (messages_for e None))
        as [text|msg] eqn:Hgen.
      + eexists _, _. split; [apply (getOrGenerateContent_fresh e i w text Hnone Hgen)|].
        cbn [session_state]. rewrite lookup_insert_eq. eexists. reflexivity.
      + rewrite (practice_unit_generation_failed e i clicked prompt w msg Hnone Hgen) in Hok.
        discriminate Hok.
    - eexists _, _. split; [apply (getOrGenerateContent_cached e i w _ Hpassage)|].
      rewrite Hpassage. eexists. reflexivity. }
  destruct Hcontent as (text & w1 & Hcontent & Hstored).
  destruct (practice_unit_after_content e i clicked prompt w text w1 Hcontent)
    as (w5 & Hrun & Hpassage5 & Hchat5 & Hflag5 & _).
  rewrite Hrun in *.
  pose proof (only_writes_chat e i prompt w5) as Hframe.
  split; [|split].
  - destruct Hp as [Hnone|Hp]; [|exact Hp].
    rewrite Hframe, Hpassage5 in Hnone
      by (intros H; symmetry in H; revert H; apply passage_chat_key).
    rewrite Hnone in Hstored. destruct Hstored as [? Hstored]. discriminate Hstored.
  - destruct Hr as [Hnone|Hr]; [|exact Hr].
    rewrite Hframe in Hnone by apply not_eq_sym, reveal_chat_key.
    destruct Hflag5 as [flag Hflag5]. rewrite Hflag5 in Hnone. discriminate Hnone.
  - destruct Hc as [Hnone|Hc]; [|exact Hc].
    destruct (chat_leaves_transcript e i prompt w5) as [entries Hentries].
    + rewrite Hchat5.
      pose proof (only_writes_getOrGenerateContent e i w (chat_key e i)) as Hframe1.
      rewrite Hcontent in Hframe1. cbn [snd] in Hframe1.
      rewrite Hframe1 by apply passage_chat_key. apply Htyped.
    + rewrite Hentries in Hnone. discriminate Hnone.
Qed.

(** X22 (a normal run leaves its units in the session).  When the practice
    section, run from a session holding values of the kinds the script
    stores, ends normally, each ranked category has its unit in the session:
    a passage text, a flag and a transcript. *)
Theorem practice_section_stores (error_report : Report) events w :
  well_typed (session_state w) ->
  fst (practice_section error_report events w) = Ok tt ->
  Forall (stored_unit (session_state (snd (practice_section error_report events w))))
         (enumerate (top_errors error_report)).
Proof.
  unfold practice_section. generalize (enumerate (top_errors error_report)) as units.
  intros units.
  revert w. induction units as [|[idx [err_type seq]] units IH]; intros w Htyped Hok;
    [constructor|].
  cbn [for_each] in *. unfold bind in *.
  pose proof (practice_unit_ok_stored err_type idx seq (button_clicked events err_type idx)
                (chat_submitted events err_type idx) w (Htyped err_type idx)) as Hstored.
  assert (Htyped1 : well_typed
            (session_state (snd (practice_unit err_type idx
                                   (button_clicked events err_type idx)
                                   (chat_submitted events err_type idx) w)))).
  { intros e' i'. apply (practice_unit_typed e' i' err_type idx _ _ w), Htyped. }
  destruct (practice_unit err_type idx _ _ w) as [[[]|exc] w1]; cbn [fst snd] in *;
    [|discriminate Hok].
  constructor; [|apply IH; assumption].
  apply (preserves_for_each (fun st => stored_unit st (idx, (err_type, seq))));
    [|apply Hstored; reflexivity].
  intros [idx' [err_type' seq']]. apply practice_unit_keeps_stored.
Qed.

(** X23 (rendering again asks nothing).  When the units of the ranked
    categories of the uploaded file are in the session, a run of the script
    in which the user did nothing ends normally, makes no request to the
    generator and leaves every passage, flag and transcript of the session
    as it is. *)
Theorem script_rerender (records : list (string * string)) w :
  Forall (stored_unit (session_state w)) (ranked_units records) ->
  let run := script (Some records) no_events w in
  fst run = Ok tt
  /\ same_units (session_state w) (session_state (snd run))
  /\ requests (snd run) = requests w.
Proof.
  intros Hstored. cbv zeta. unfold script, try_except. cbv zeta.
  destruct (analyze_errors (load records)) as [|entry report] eqn:Hreport;
    [repeat split|].
  rewrite <- Hreport.
  pose proof (hoare_for_each
                (fun w' => session_state w' = session_state w /\ requests w' = requests w)
                (ranked_units records)
                (fun '(idx, (err_type, _)) =>
                   practice_unit err_type idx (button_clicked no_events err_type idx)
                     (chat_submitted no_events err_type idx))
                (fun _ _ => False)) as Hloop.
  assert (Hbody : hoare (fun w' => session_state w' = session_state w
                                   /\ requests w' = requests w)
                        (practice_section (analyze_errors (load records)) no_events)
                        (fun _ w' => session_state w' = session_state w
                                     /\ requests w' = requests w)
                        (fun _ _ => False)).
  { apply Hloop. intros [idx [err_type seq]] Hin w0 [Hst Hrq].
    rewrite Forall_forall in Hstored. apply list_elem_of_In in Hin.
    destruct (Hstored _ Hin) as ([text Hp] & [flag Hr] & [entries Hc]).
    cbn [no_events button_clicked chat_submitted].
    rewrite (practice_unit_render err_type idx false w0 text flag entries)
      by (rewrite Hst; assumption).
    rewrite andb_false_r. cbn [session_state requests]. split; assumption. }
  specialize (Hbody w (conj eq_refl eq_refl)).
  destruct (practice_section (analyze_errors (load records)) no_events w)
    as [[[]|exc] w']; [|destruct Hbody].
  cbn [fst snd]. destruct Hbody as [Hst Hrq].
  split; [reflexivity|]. split; [|exact Hrq].
  intros err_type idx. rewrite Hst. repeat split.
Qed.

End Script.

(** ** The further theorems at work on concrete sessions *)

Lemma opened_well_typed (G : Generator) : well_typed (session_state (opened G)).
Proof.
  change (opened G) with
    (@session_run G
       [ {| unit_type := "Tone/Attitude"; unit_idx := 0; clicked_reveal := false;
            chat_prompt := None |} ] empty_world).
  apply session_run_well_typed, empty_world_well_typed.
Qed.

Lemma ranked_units_demo :
  @ranked_units text_columns demo_records = [ (0, ("Tone/Attitude", [Str "P1"])) ].
Proof. vm_compute. reflexivity. Qed.

Lemma opened_stored (text : string) :
  Forall (stored_unit (session_state (opened (canned text)))) (@ranked_units text_columns demo_records).
Proof.
  rewrite ranked_units_demo. constructor; [|constructor].
  split; [|split]; eexists; vm_compute; reflexivity.
Qed.

Lemma unit_run_frame_witness :
  session_state
    (snd (@practice_unit (canned "P") "Vocabulary" 1 true (Some "why?") (opened (canned "P"))))
    !! passage_key "Tone/Attitude" 0
  = session_state (opened (canned "P")) !! passage_key "Tone/Attitude" 0.
Proof.
  destruct (@unit_run_frame (canned "P") "Vocabulary" 1 true (Some "why?")
              (opened (canned "P"))) as (Hother & _).
  apply (Hother "Tone/Attitude" 0). intros [H _]. discriminate H.
Defined.

Lemma transcript_append_only_witness :
  exists more,
    session_state
      (@session_run (canned "P")
         [ {| unit_type := "Vocabulary"; unit_idx := 1; clicked_reveal := true;
              chat_prompt := Some "what does it mean?" |};
           {| unit_type := "Tone/Attitude"; unit_idx := 0; clicked_reveal := false;
              chat_prompt := Some "and question 2?" |} ]
         (@session_run (canned "P") [demo_chat] (opened (canned "P"))))
      !! chat_key "Tone/Attitude" 0
    = Some (VList ([user_turn "why?"; assistant_turn "P"] ++ more)).
Proof.
  apply (@transcript_append_only (canned "P") "Tone/Attitude" 0
           (@session_run (canned "P") [demo_chat] (opened (canned "P")))
           [user_turn "why?"; assistant_turn "P"]).
  vm_compute. reflexivity.
Defined.

Lemma session_well_typed_witness :
  well_typed (session_state (@session_run (canned "P") [demo_chat] (opened (canned "P")))).
Proof.
  apply (proj2 (@session_well_typed (canned "P") (opened (canned "P")) [demo_chat])).
  apply opened_well_typed.
Defined.

Lemma render_existing_unit_witness :
  let run := @practice_unit (canned "P") "Tone/Attitude" 0 true None (opened (canned "P")) in
  fst run = Ok tt
  /\ requests (snd run) = requests (opened (canned "P"))
  /\ session_state (snd run) !! reveal_key "Tone/Attitude" 0 = Some (VBool (false || true))
  /\ (forall e' i',
        session_state (snd run) !! passage_key e' i'
        = session_state (opened (canned "P")) !! passage_key e' i'
        /\ session_state (snd run) !! chat_key e' i'
           = session_state (opened (canned "P")) !! chat_key e' i'
        /\ (~ (e' = "Tone/Attitude" /\ i' = 0) ->
            session_state (snd run) !! reveal_key e' i'
            = session_state (opened (canned "P")) !! reveal_key e' i'))
  /\ screen (snd run) = screen (opened (canned "P")) ++ unit_view "P" (false || true) [].
Proof.
  apply (@render_existing_unit (canned "P") "Tone/Attitude" 0 true (opened (canned "P"))
           "P" false []); vm_compute; reflexivity.
Defined.

Lemma generation_failure_leaves_no_trace_witness :
  fst (@practice_unit (failing "quota") "Vocabulary" 0 false None empty_world)
  = Raise (PyException "quota")
  /\ session_state (snd (@practice_unit (failing "quota") "Vocabulary" 0 false None empty_world))
     = session_state empty_world.
Proof.
  destruct (@generation_failure_leaves_no_trace (failing "quota") "Vocabulary" 0 false None
              empty_world "quota" eq_refl eq_refl) as (Hraise & Hstate & _).
  split; [exact Hraise | exact Hstate].
Defined.


Lemma script_keeps_units_witness :
  session_state (snd (@script (canned "Q") text_columns (Some demo_records) no_events (opened (canned "P"))))
    !! passage_key "Tone/Attitude" 0
  = Some (VStr "P").
Proof.
  apply (proj1 (@script_keeps_units (canned "Q") text_columns (Some demo_records) no_events
                  (opened (canned "P")) "Tone/Attitude" 0)).
  vm_compute. reflexivity.
Defined.

Lemma script_idle_witness :
  @script (canned "P") text_columns (Some [("P1", "Ran out of time"); ("P2", "")]) no_events empty_world
  = (Ok tt, empty_world).
Proof.
  apply (@script_idle (canned "P") text_columns). right. eexists. split; [reflexivity|].
  intros row cat Hrow Hcat. vm_compute in Hrow. destruct Hrow as [<-|[]].
  simpl in Hcat.
  repeat (destruct Hcat as [<-|Hcat]; [vm_compute; reflexivity|]). destruct Hcat.
Defined.

Lemma script_outcomes_witness :
  (let run := @script (canned "P") text_columns (Some demo_records) demo_events (opened (canned "P")) in
   fst run = Raise RerunException
   /\ exists records idx err_type seq,
        Some demo_records = Some records
        /\ In (idx, (err_type, seq)) (@ranked_units text_columns records)
        /\ @replied (canned "P") err_type idx (chat_submitted demo_events err_type idx)
             (snd run))
  /\ (@script (failing "quota") text_columns (Some demo_records) no_events empty_world
      = (Ok tt,
         {| session_state := ∅; requests := [("Tone/Attitude", None)];
            screen := [StError "Error processing file: quota"] |})
      /\ exists idx err_type seq,
           In (idx, (err_type, seq)) (@ranked_units text_columns demo_records)
           /\ @generation_failed (failing "quota") err_type idx "quota"
                {| session_state := ∅; requests := [("Tone/Attitude", None)];
                   screen := [] |}).
Proof.
  split.
  - destruct (proj1 (@script_outcomes (canned "P") text_columns (Some demo_records) demo_events
                       (opened (canned "P")) (opened_well_typed (canned "P"))))
      as [Hok|Hrerun]; [vm_compute in Hok; discriminate Hok | exact Hrerun].
  - apply (proj2 (@script_outcomes (failing "quota") text_columns (Some demo_records) no_events
                    empty_world empty_world_well_typed)
             demo_records "quota"
             {| session_state := ∅; requests := [("Tone/Attitude", None)]; screen := [] |}
             eq_refl).
    vm_compute. reflexivity.
Defined.

Lemma practice_section_stores_witness :
  Forall (stored_unit
            (session_state
               (snd (@practice_section (canned "P") (analyze_errors (@load text_columns demo_records))
                       no_events empty_world))))
         (enumerate (top_errors (analyze_errors (@load text_columns demo_records)))).
Proof.
  apply (@practice_section_stores (canned "P")).
  - apply empty_world_well_typed.
  - vm_compute. reflexivity.
Defined.

Lemma script_rerender_witness :
  let run := @script (canned "Q") text_columns (Some demo_records) no_events (opened (canned "P")) in
  fst run = Ok tt
  /\ same_units (session_state (opened (canned "P"))) (session_state (snd run))
  /\ requests (snd run) = requests (opened (canned "P")).
Proof.
  apply (@script_rerender (canned "Q") text_columns demo_records (opened (canned "P"))).
  apply opened_stored.
Defined.
